(** * PythonHelper: a shallow embedding of [pythonHelper.py]

    The class [PythonHelper] bundles thin wrappers around the Python
    standard library, [requests] and [pandas].  Each static method is
    embedded as a computation in a state-and-exception monad over an
    explicit [world]: the log sink, the text files, the DataFrame objects,
    the clock, the network and the random generator.

    Python values are modelled as follows.
    - [str] is a list of Unicode code points (numbers of type [N]).
    - [int] is [Z].
    - an exception is a class (with Python's subclass relation) and a
      message; [try ... except C as e] tests [issubclass] against [C].
    - library calls whose behaviour is not fixed here ([strptime] and
      [strftime] on arbitrary formats, [str.upper], [str.lower]) are
      fields of a [library] record, and the CSV reader and writer are
      parameters of the CSV methods; the theorems about the wrappers
      quantify over them, and [cpython] is a reference instance used to
      evaluate the wrappers on concrete inputs. *)

From Stdlib Require Import ZArith NArith List Ascii String Bool Lia.
From stdpp Require Import base option list gmap strings.

Set Warnings "-register-all".
Local Open Scope Z_scope.

(** ** Strings *)

(** A Python [str]: its code points. *)
Definition str : Type := list N.

(** [u "abc"] is the [str] of a literal. *)
Definition u (s : string) : str :=
  List.map N_of_ascii (list_ascii_of_string s).

(** ** Exceptions *)

(** The exception classes the methods and their library calls can meet.
    [requests_*] are the classes of [requests.exceptions]; [re_error] is
    [re.error]. *)
Inductive exc_class : Set :=
| BaseException
| KeyboardInterrupt
| Exception
| ArithmeticError
| OverflowError
| AttributeError
| LookupError
| IndexError
| TypeError
| ValueError
| RuntimeError
| NotImplementedError
| re_error
| JSONDecodeError
| OSError
| FileNotFoundError
| PermissionError
| RequestException
| InvalidJSONError
| requests_JSONDecodeError
| HTTPError
| requests_ConnectionError
| requests_Timeout
| ConnectTimeout
| ReadTimeout.

#[global] Instance exc_class_eq_dec : EqDecision exc_class.
Proof. solve_decision. Defined.

(** The direct base classes, as the class statements give them
    ([class JSONDecodeError(InvalidJSONError, CompatJSONDecodeError)],
    [class ConnectTimeout(ConnectionError, Timeout)], ...). *)
Definition bases (c : exc_class) : list exc_class :=
  match c with
  | BaseException => []
  | KeyboardInterrupt => [BaseException]
  | Exception => [BaseException]
  | ArithmeticError => [Exception]
  | OverflowError => [ArithmeticError]
  | AttributeError => [Exception]
  | LookupError => [Exception]
  | IndexError => [LookupError]
  | TypeError => [Exception]
  | ValueError => [Exception]
  | RuntimeError => [Exception]
  | NotImplementedError => [RuntimeError]
  | re_error => [Exception]
  | JSONDecodeError => [ValueError]
  | OSError => [Exception]
  | FileNotFoundError => [OSError]
  | PermissionError => [OSError]
  | RequestException => [OSError]
  | InvalidJSONError => [RequestException]
  | requests_JSONDecodeError => [InvalidJSONError; JSONDecodeError]
  | HTTPError => [RequestException]
  | requests_ConnectionError => [RequestException]
  | requests_Timeout => [RequestException]
  | ConnectTimeout => [requests_ConnectionError; requests_Timeout]
  | ReadTimeout => [requests_Timeout]
  end.

Fixpoint issubclass_upto (n : nat) (c d : exc_class) : bool :=
  bool_decide (c = d) ||
  match n with
  | O => false
  | S n' => existsb (fun b => issubclass_upto n' b d) (bases c)
  end.

(** [issubclass c d]: [c] is [d] or derives from it.  No chain of bases is
    longer than six. *)
Definition issubclass (c d : exc_class) : bool := issubclass_upto 6 c d.

(** An exception object: its class and [str(e)]. *)
Record exn : Type := Exn { exn_class : exc_class; exn_msg : str }.

(** What a call does: it returns or it raises. *)
Inductive result (A : Type) : Type :=
| Return (a : A)
| Raise (e : exn).
Arguments Return {A} a.
Arguments Raise {A} e.

Definition raises {A} (r : result A) : bool :=
  match r with Return _ => false | Raise _ => true end.

(** ** Log records *)

Inductive level : Set := INFO | ERROR.

(** One call of [logging.info] or [logging.error]: the level and the
    message.  The handlers and formats of [setup_logging] are not part of
    the model: the log is a sink of its own, apart from the files the
    methods read and write. *)
Definition log_record : Type := level * str.

(** ** Python values *)

(** The values the methods exchange with their callers: [None], [bool],
    [int], [float], [str], [list] and [dict] with [str] keys (in insertion
    order).  A [float] is carried as a decimal literal that names it:
    [float.__repr__] writes the shortest literal that reads back as the
    same float, and that literal stands for the float here.  Binary
    rounding and arithmetic on floats are not modelled. *)
Inductive pyval : Type :=
| PNone
| PBool (b : bool)
| PInt (z : Z)
| PFloat (lit : str)
| PStr (s : str)
| PList (xs : list pyval)
| PDict (kvs : list (str * pyval)).

(** ** The [json] module *)

Section json.
Local Open Scope N_scope.

(** *** Writing: [json.dump(data, f, indent=4)] *)

Fixpoint digits_upto (fuel : nat) (n : N) (acc : str) : str :=
  let acc' := (48 + n mod 10) :: acc in
  match fuel with
  | O => acc'
  | S f => if n / 10 =? 0 then acc' else digits_upto f (n / 10) acc'
  end.

(** The decimal digits of [n], most significant first. *)
Definition digits (n : N) : str := digits_upto (N.to_nat (N.log2 n)) n [].

(** [int.__repr__]. *)
Definition int_repr (z : Z) : str :=
  if (z <? 0)%Z then 45 :: digits (Z.abs_N z) else digits (Z.abs_N z).

Definition hex_digit (n : N) : N := if n <? 10 then 48 + n else 87 + n.

(** ['{0:04x}'.format(n)] for [n < 65536]. *)
Definition hex4 (n : N) : str :=
  [hex_digit (n / 4096 mod 16); hex_digit (n / 256 mod 16);
   hex_digit (n / 16 mod 16); hex_digit (n mod 16)].

(** One character of [encode_basestring_ascii]: the short escapes, the
    printable ASCII characters as they are, and [\uXXXX] for the rest, with
    a surrogate pair above the basic plane. *)
Definition encode_char (c : N) : str :=
  if c =? 34 then [92; 34]
  else if c =? 92 then [92; 92]
  else if c =? 10 then [92; 110]
  else if c =? 13 then [92; 114]
  else if c =? 9 then [92; 116]
  else if c =? 12 then [92; 102]
  else if c =? 8 then [92; 98]
  else if (32 <=? c) && (c <=? 126) then [c]
  else if c <? 65536 then 92 :: 117 :: hex4 c
  else
    let n := c - 65536 in
    let s1 := N.lor 55296 (N.land (N.shiftr n 10) 1023) in
    let s2 := N.lor 56320 (N.land n 1023) in
    (92 :: 117 :: hex4 s1) ++ (92 :: 117 :: hex4 s2).

Definition encode_str (s : str) : str :=
  34 :: flat_map encode_char s ++ [34].

(** A line break followed by the indentation of nesting level [lvl]. *)
Definition newline_indent (lvl : nat) : str := 10 :: repeat 32 (4 * lvl)%nat.

(** The items of a list or dict at level [lvl], already encoded: one per
    line, separated by [","]; the closing bracket is on a line of its own
    at the level of the opening one.  An empty container has no line
    break. *)
Definition encode_container (open close : N) (lvl : nat) (items : list str) : str :=
  match items with
  | [] => [open; close]
  | i :: rest =>
      open :: newline_indent (S lvl) ++ i
        ++ flat_map (fun j => 44 :: newline_indent (S lvl) ++ j) rest
        ++ newline_indent lvl ++ [close]
  end.

Fixpoint encode (lvl : nat) (v : pyval) : str :=
  match v with
  | PNone => u "null"
  | PBool true => u "true"
  | PBool false => u "false"
  | PInt z => int_repr z
  | PFloat lit => lit
  | PStr s => encode_str s
  | PList xs => encode_container 91 93 lvl (List.map (encode (S lvl)) xs)
  | PDict kvs =>
      encode_container 123 125 lvl
        (List.map (fun kv => encode_str (fst kv) ++ [58; 32] ++ encode (S lvl) (snd kv)) kvs)
  end.

(** The text [json.dump(data, f, indent=4)] writes. *)
Definition dumps (data : pyval) : str := encode 0 data.

(** *** Reading: [json.load(f)] *)

(** The result of a scanner: the value and the text after it, or the
    message of the [JSONDecodeError]. *)
Inductive jres (A : Type) : Type :=
| JOk (a : A) (rest : str)
| JErr (msg : str).
#[global] Arguments JOk {A} a rest.
#[global] Arguments JErr {A} msg.

Definition jmap {A B} (f : A -> B) (r : jres A) : jres B :=
  match r with
  | JOk a rest => JOk (f a) rest
  | JErr msg => JErr msg
  end.

(** [WHITESPACE = " \t\n\r"]. *)
Definition is_ws (c : N) : bool :=
  (c =? 32) || (c =? 9) || (c =? 10) || (c =? 13).

Fixpoint skip_ws (s : str) : str :=
  match s with
  | c :: t => if is_ws c then skip_ws t else s
  | [] => []
  end.

Definition is_digit (c : N) : bool := (48 <=? c) && (c <=? 57).

(** The longest prefix of digits, and what follows it. *)
Fixpoint span_digits (s : str) : str * str :=
  match s with
  | c :: t =>
      if is_digit c then let (ds, r) := span_digits t in (c :: ds, r)
      else ([], s)
  | [] => ([], [])
  end.

Definition int_of_digits (ds : str) : N :=
  fold_left (fun acc c => acc * 10 + (c - 48)) ds 0.

(** [int(text)] for the integer part of a number. *)
Definition int_of_literal (text : str) : Z :=
  match text with
  | c :: ds =>
      if c =? 45 then (- Z.of_N (int_of_digits ds))%Z
      else Z.of_N (int_of_digits text)
  | [] => 0%Z
  end.

Fixpoint strip_prefix (p s : str) : option str :=
  match p, s with
  | [], _ => Some s
  | a :: p', b :: s' => if a =? b then strip_prefix p' s' else None
  | _ :: _, [] => None
  end.

(** [NUMBER_RE]: an optional minus sign and an integer part (a single
    zero, or a non-zero digit and more digits), then a fraction (a dot and
    at least one digit) and an exponent ([e] or [E], an optional sign and
    at least one digit) when they are there.  The result is the three
    parts and the text after the match. *)
Definition match_integer (s : str) : option (str * str) :=
  let (sign, s1) :=
    match s with
    | c :: t => if c =? 45 then ([45], t) else ([], s)
    | [] => ([], s)
    end in
  match s1 with
  | c :: t =>
      if c =? 48 then Some (sign ++ [48], t)
      else if is_digit c then
        let (ds, r) := span_digits t in Some (sign ++ c :: ds, r)
      else None
  | [] => None
  end.

Definition match_frac (s : str) : str * str :=
  match s with
  | c :: t =>
      if c =? 46 then
        match span_digits t with
        | ([], _) => ([], s)
        | (ds, r) => (46 :: ds, r)
        end
      else ([], s)
  | [] => ([], s)
  end.

Definition match_exp (s : str) : str * str :=
  match s with
  | c :: t =>
      if (c =? 101) || (c =? 69) then
        let (sg, t') :=
          match t with
          | d :: t1 => if (d =? 45) || (d =? 43) then ([d], t1) else ([], t)
          | [] => ([], t)
          end in
        match span_digits t' with
        | ([], _) => ([], s)
        | (ds, r) => (c :: sg ++ ds, r)
        end
      else ([], s)
  | [] => ([], s)
  end.

Definition match_number (s : str) : option (str * str * str * str) :=
  match match_integer s with
  | None => None
  | Some (int_part, s2) =>
      let (frac, s3) := match_frac s2 in
      let (exp, s4) := match_exp s3 in
      Some (int_part, frac, exp, s4)
  end.

Definition unhex (c : N) : option N :=
  if (48 <=? c) && (c <=? 57) then Some (c - 48)
  else if (97 <=? c) && (c <=? 102) then Some (c - 87)
  else if (65 <=? c) && (c <=? 70) then Some (c - 55)
  else None.

(** Four hexadecimal digits at the head of [s]: their value. *)
Definition unhex4 (s : str) : option (N * str) :=
  match s with
  | a :: b :: c :: d :: t =>
      match unhex a, unhex b, unhex c, unhex d with
      | Some x, Some y, Some z, Some w => Some (((x * 16 + y) * 16 + z) * 16 + w, t)
      | _, _, _, _ => None
      end
  | _ => None
  end.

Definition is_high_surrogate (c : N) : bool := (55296 <=? c) && (c <=? 56319).
Definition is_low_surrogate (c : N) : bool := (56320 <=? c) && (c <=? 57343).

(** [Py_UNICODE_JOIN_SURROGATES]. *)
Definition join_surrogates (hi lo : N) : N :=
  65536 + N.lor (N.shiftl (N.land hi 1023) 10) (N.land lo 1023).

Definition unescape (e : N) : option N :=
  if e =? 34 then Some 34
  else if e =? 92 then Some 92
  else if e =? 47 then Some 47
  else if e =? 98 then Some 8
  else if e =? 102 then Some 12
  else if e =? 110 then Some 10
  else if e =? 114 then Some 13
  else if e =? 116 then Some 9
  else None.

(** [scanstring] (strict): the text after an opening quote, up to the
    closing one.  A [\uXXXX] high surrogate directly followed by a
    [\uXXXX] low surrogate is read as one code point. *)
Fixpoint scanstring_upto (fuel : nat) (s : str) : jres str :=
  match fuel with
  | O => JErr (u "Unterminated string starting at")
  | S f =>
      match s with
      | [] => JErr (u "Unterminated string starting at")
      | c :: t =>
          if c =? 34 then JOk [] t
          else if c =? 92 then
            match t with
            | [] => JErr (u "Unterminated string starting at")
            | e :: t1 =>
                if e =? 117 then
                  match unhex4 t1 with
                  | None => JErr (u "Invalid \uXXXX escape")
                  | Some (uni, t2) =>
                      let single := jmap (cons uni) (scanstring_upto f t2) in
                      if is_high_surrogate uni then
                        match strip_prefix [92; 117] t2 with
                        | None => single
                        | Some t2' =>
                            match unhex4 t2' with
                            | None => JErr (u "Invalid \uXXXX escape")
                            | Some (uni2, t3) =>
                                if is_low_surrogate uni2
                                then jmap (cons (join_surrogates uni uni2)) (scanstring_upto f t3)
                                else single
                            end
                        end
                      else single
                  end
                else
                  match unescape e with
                  | Some ch => jmap (cons ch) (scanstring_upto f t1)
                  | None => JErr (u "Invalid \escape")
                  end
            end
          else if c <? 32 then JErr (u "Invalid control character at")
          else jmap (cons c) (scanstring_upto f t)
      end
  end.

Definition scanstring (s : str) : jres str := scanstring_upto (length s) s.

(** [d[k] = v] on a dict kept in insertion order. *)
Fixpoint dict_set (k : str) (v : pyval) (d : list (str * pyval)) : list (str * pyval) :=
  match d with
  | [] => [(k, v)]
  | (k', v') :: d' =>
      if decide (k = k') then (k', v) :: d' else (k', v') :: dict_set k v d'
  end.

(** [dict(pairs)]: a later pair replaces the value of an equal key. *)
Definition dict_of_pairs (pairs : list (str * pyval)) : list (str * pyval) :=
  fold_left (fun d kv => dict_set (fst kv) (snd kv) d) pairs [].

(** [scan_once], [JSONArray] and [JSONObject].  [parse_items] reads the
    items of an array after its opening bracket, [parse_members] the
    members of an object after the opening quote of a key.  [fuel] bounds
    the calls; [loads] gives enough for any text. *)
Fixpoint scan_once (fuel : nat) (s : str) : jres pyval :=
  match fuel with
  | O => JErr (u "maximum recursion depth exceeded")
  | S f =>
      match s with
      | [] => JErr (u "Expecting value")
      | c :: t =>
          if c =? 34 then jmap PStr (scanstring t)
          else if c =? 123 then
            match skip_ws t with
            | d :: r =>
                if d =? 125 then JOk (PDict []) r
                else if d =? 34 then
                  jmap (fun kvs => PDict (dict_of_pairs kvs)) (parse_members f r)
                else JErr (u "Expecting property name enclosed in double quotes")
            | [] => JErr (u "Expecting property name enclosed in double quotes")
            end
          else if c =? 91 then
            match skip_ws t with
            | d :: r =>
                if d =? 93 then JOk (PList []) r
                else jmap PList (parse_items f (d :: r))
            | [] => JErr (u "Expecting value")
            end
          else
            match strip_prefix (u "null") s, strip_prefix (u "true") s,
                  strip_prefix (u "false") s with
            | Some r, _, _ => JOk PNone r
            | _, Some r, _ => JOk (PBool true) r
            | _, _, Some r => JOk (PBool false) r
            | None, None, None =>
                match match_number s with
                | Some (int_part, [], [], r) => JOk (PInt (int_of_literal int_part)) r
                | Some (int_part, frac, exp, r) =>
                    JOk (PFloat (int_part ++ frac ++ exp)) r
                | None =>
                    match strip_prefix (u "NaN") s, strip_prefix (u "Infinity") s,
                          strip_prefix (u "-Infinity") s with
                    | Some r, _, _ => JOk (PFloat (u "NaN")) r
                    | _, Some r, _ => JOk (PFloat (u "Infinity")) r
                    | _, _, Some r => JOk (PFloat (u "-Infinity")) r
                    | None, None, None => JErr (u "Expecting value")
                    end
                end
            end
      end
  end
with parse_items (fuel : nat) (s : str) : jres (list pyval) :=
  match fuel with
  | O => JErr (u "maximum recursion depth exceeded")
  | S f =>
      match scan_once f s with
      | JErr msg => JErr msg
      | JOk v r =>
          match skip_ws r with
          | c :: r' =>
              if c =? 93 then JOk [v] r'
              else if c =? 44 then jmap (cons v) (parse_items f (skip_ws r'))
              else JErr (u "Expecting ',' delimiter")
          | [] => JErr (u "Expecting ',' delimiter")
          end
      end
  end
with parse_members (fuel : nat) (s : str) : jres (list (str * pyval)) :=
  match fuel with
  | O => JErr (u "maximum recursion depth exceeded")
  | S f =>
      match scanstring s with
      | JErr msg => JErr msg
      | JOk key r =>
          match skip_ws r with
          | c :: r1 =>
              if c =? 58 then
                match scan_once f (skip_ws r1) with
                | JErr msg => JErr msg
                | JOk v r2 =>
                    match skip_ws r2 with
                    | c2 :: r3 =>
                        if c2 =? 125 then JOk [(key, v)] r3
                        else if c2 =? 44 then
                          match skip_ws r3 with
                          | q :: r4 =>
                              if q =? 34 then jmap (cons (key, v)) (parse_members f r4)
                              else JErr (u "Expecting property name enclosed in double quotes")
                          | [] => JErr (u "Expecting property name enclosed in double quotes")
                          end
                        else JErr (u "Expecting ',' delimiter")
                    | [] => JErr (u "Expecting ',' delimiter")
                    end
                end
              else JErr (u "Expecting ':' delimiter")
          | [] => JErr (u "Expecting ':' delimiter")
          end
      end
  end.

(** [json.loads(s)], which [json.load(f)] calls on [f.read()]: one value,
    with white space around it and nothing else.  The message of the
    [JSONDecodeError] is Python's without the position. *)
Definition loads (s : str) : result pyval :=
  if match s with c :: _ => c =? 65279 | [] => false end then
    Raise (Exn JSONDecodeError (u "Unexpected UTF-8 BOM (decode using utf-8-sig)"))
  else
    match scan_once (2 * length s + 2) (skip_ws s) with
    | JErr msg => Raise (Exn JSONDecodeError msg)
    | JOk v rest =>
        match skip_ws rest with
        | [] => Return v
        | _ :: _ => Raise (Exn JSONDecodeError (u "Extra data"))
        end
    end.

(** *** JSON-compatible trees *)

(** The strings the encoder and the scanner agree on: code points below
    [0x110000], and no high surrogate directly followed by a low one (the
    scanner would read the two escapes as one code point). *)
Fixpoint str_ok (s : str) : bool :=
  match s with
  | [] => true
  | c :: t =>
      (c <? 1114112)
      && negb (is_high_surrogate c
               && match t with d :: _ => is_low_surrogate d | [] => false end)
      && str_ok t
  end.

(** The literals of the finite floats: a number with a fraction or an
    exponent, which the scanner reads whole.  [float.__repr__] writes such
    a literal for every finite float ([1.5], [-0.0], [1e+16], [5e-324]);
    [nan], [inf] and [-inf] have none. *)
Definition float_literal (lit : str) : bool :=
  match match_number lit with
  | Some (_, [], [], _) => false
  | Some (_, _, _, []) => true
  | _ => false
  end.

(** A JSON-compatible tree: [None], booleans, integers, finite floats,
    strings, lists, and dicts whose keys are distinct strings. *)
Fixpoint json_compatible (v : pyval) : bool :=
  match v with
  | PNone | PBool _ | PInt _ => true
  | PFloat lit => float_literal lit
  | PStr s => str_ok s
  | PList xs => forallb json_compatible xs
  | PDict kvs =>
      forallb (fun kv => str_ok (fst kv) && json_compatible (snd kv)) kvs
      && bool_decide (NoDup (List.map fst kvs))
  end.

(** A text that cannot continue a number: it is empty, or starts with
    something other than a digit, a dot or an exponent mark. *)
Definition ends_number (rest : str) : bool :=
  match rest with
  | [] => true
  | c :: _ => negb (is_digit c || (c =? 46) || (c =? 101) || (c =? 69))
  end.

(** The characters an encoded value can start with: [n], [t], [f], a
    minus sign, a digit, a quote, a bracket or a brace. *)
Definition value_start (c : N) : bool :=
  (c =? 110) || (c =? 116) || (c =? 102) || (c =? 45) || is_digit c
  || (c =? 34) || (c =? 91) || (c =? 123).

(** The calls [scan_once] needs to read back the encoding of [v]. *)
Fixpoint need (v : pyval) : nat :=
  match v with
  | PList xs => S (list_sum (List.map (fun x => S (need x)) xs))
  | PDict kvs => S (list_sum (List.map (fun kv => S (need (snd kv))) kvs))
  | _ => 1
  end.

(** [scan_once] reads the encoding of [v] back, at any nesting level and
    before any text that cannot continue a number. *)
Definition reads_back (v : pyval) : Prop :=
  json_compatible v = true ->
  forall (lvl fuel : nat) (rest : str),
    (need v <= fuel)%nat -> ends_number rest = true ->
    scan_once fuel (encode lvl v ++ rest) = JOk v rest.

(** What follows an item of a container: the other items, each after a
    comma and a line break, then the closing bracket on a line of its
    own. *)
Definition items_tail (close : N) (lvl : nat) (items : list str) (rest : str) : str :=
  flat_map (fun j => 44 :: newline_indent (S lvl) ++ j) items
    ++ newline_indent lvl ++ close :: rest.

(** A member of a dict, after the opening quote of its key. *)
Definition member_text (lvl : nat) (kv : str * pyval) : str :=
  flat_map encode_char (fst kv) ++ 34 :: 58 :: 32 :: encode (S lvl) (snd kv).

End json.

(** ** The [datetime] module *)

(** A naive [datetime] object. *)
Record datetime : Type := Datetime {
  dt_year : Z;
  dt_month : Z;
  dt_day : Z;
  dt_hour : Z;
  dt_minute : Z;
  dt_second : Z;
  dt_microsecond : Z
}.

#[global] Instance datetime_eq_dec : EqDecision datetime.
Proof. solve_decision. Defined.

Definition MINYEAR : Z := 1.
Definition MAXYEAR : Z := 9999.

(** [date.max.toordinal()]. *)
Definition MAXORDINAL : Z := 3652059.

(** *** The proleptic Gregorian calendar, as [datetime] computes it *)

Definition is_leap (year : Z) : bool :=
  (year mod 4 =? 0) && (negb (year mod 100 =? 0) || (year mod 400 =? 0)).

(** Days before January 1st of [year]. *)
Definition days_before_year (year : Z) : Z :=
  let y := year - 1 in
  y * 365 + y / 4 - y / 100 + y / 400.

Definition DAYS_IN_MONTH : list Z :=
  [-1; 31; 28; 31; 30; 31; 30; 31; 31; 30; 31; 30; 31].

Definition DAYS_BEFORE_MONTH : list Z :=
  [-1; 0; 31; 59; 90; 120; 151; 181; 212; 243; 273; 304; 334].

Definition days_in_month (year month : Z) : Z :=
  if (month =? 2) && is_leap year then 29
  else nth (Z.to_nat month) DAYS_IN_MONTH (-1).

(** Days in [year] before the first day of [month]. *)
Definition days_before_month (year month : Z) : Z :=
  nth (Z.to_nat month) DAYS_BEFORE_MONTH (-1)
  + (if (2 <? month) && is_leap year then 1 else 0).

(** The ordinal of a date: January 1st of year 1 is day 1. *)
Definition ymd2ord (year month day : Z) : Z :=
  days_before_year year + days_before_month year month + day.

(** Days in 400, 100 and 4 years. *)
Definition DI400Y : Z := 146097.
Definition DI100Y : Z := 36524.
Definition DI4Y : Z := 1461.

(** The month and the day of the month of day [n] of a year, counted from
    zero: the month is estimated, and corrected when the estimate is too
    large. *)
Definition month_day (n : Z) (leapyear : bool) : Z * Z :=
  let month := Z.shiftr (n + 50) 5 in
  let preceding :=
    nth (Z.to_nat month) DAYS_BEFORE_MONTH (-1)
    + (if (2 <? month) && leapyear then 1 else 0) in
  if n <? preceding then
    let month := month - 1 in
    let preceding :=
      preceding - (nth (Z.to_nat month) DAYS_IN_MONTH (-1)
                   + (if (month =? 2) && leapyear then 1 else 0)) in
    (month, n - preceding + 1)
  else (month, n - preceding + 1).

(** The date of an ordinal. *)
Definition ord2ymd (ordinal : Z) : Z * Z * Z :=
  let n := ordinal - 1 in
  let n400 := n / DI400Y in
  let n := n mod DI400Y in
  let year := n400 * 400 + 1 in
  let n100 := n / DI100Y in
  let n := n mod DI100Y in
  let n4 := n / DI4Y in
  let n := n mod DI4Y in
  let n1 := n / 365 in
  let n := n mod 365 in
  let year := year + n100 * 100 + n4 * 4 + n1 in
  if (n1 =? 4) || (n100 =? 4) then (year - 1, 12, 31)
  else
    let leapyear := (n1 =? 3) && (negb (n4 =? 24) || (n100 =? 3)) in
    let (month, day) := month_day n leapyear in
    (year, month, day).

(** The dates and times a [datetime] object can hold. *)
Definition valid_date (year month day : Z) : bool :=
  (MINYEAR <=? year) && (year <=? MAXYEAR)
  && (1 <=? month) && (month <=? 12)
  && (1 <=? day) && (day <=? days_in_month year month).

Definition valid_time (hour minute second microsecond : Z) : bool :=
  (0 <=? hour) && (hour <? 24) && (0 <=? minute) && (minute <? 60)
  && (0 <=? second) && (second <? 60)
  && (0 <=? microsecond) && (microsecond <? 1000000).

Definition valid_datetime (d : datetime) : bool :=
  valid_date (dt_year d) (dt_month d) (dt_day d)
  && valid_time (dt_hour d) (dt_minute d) (dt_second d) (dt_microsecond d).

Definition toordinal (d : datetime) : Z :=
  ymd2ord (dt_year d) (dt_month d) (dt_day d).

(** [timedelta(days=days)]: the number of days, which must have at most
    nine digits. *)
Definition timedelta_days (days : Z) : result Z :=
  if Z.abs days >? 999999999
  then Raise (Exn OverflowError
                (u "days=" ++ int_repr days ++ u "; must have magnitude <= 999999999"))
  else Return days.

(** [d + timedelta(days=delta)]: the time of day stays, the date moves by
    [delta] days, and leaving the years 1 to 9999 is an [OverflowError]. *)
Definition datetime_add_days (d : datetime) (delta : Z) : result datetime :=
  let ordinal := toordinal d + delta in
  if (0 <? ordinal) && (ordinal <=? MAXORDINAL) then
    let '(y, m, dd) := ord2ymd ordinal in
    Return (Datetime y m dd (dt_hour d) (dt_minute d) (dt_second d) (dt_microsecond d))
  else Raise (Exn OverflowError (u "date value out of range")).

(** *** The calendar, day by day *)

(** The day after a date, by the rules of the calendar: the next day of
    the month, else the first of the next month, else January 1st of the
    next year. *)
Definition next_day (ymd : Z * Z * Z) : Z * Z * Z :=
  let '(y, m, d) := ymd in
  if d <? days_in_month y m then (y, m, d + 1)
  else if m <? 12 then (y, m + 1, 1)
  else (y + 1, 1, 1).

(** The day before a date. *)
Definition prev_day (ymd : Z * Z * Z) : Z * Z * Z :=
  let '(y, m, d) := ymd in
  if 1 <? d then (y, m, d - 1)
  else if 1 <? m then (y, m - 1, days_in_month y (m - 1))
  else (y - 1, 12, 31).

(** The date [n] days after a date (before it when [n] is negative),
    counted one day at a time. *)
Definition shift_days (ymd : Z * Z * Z) (n : Z) : Z * Z * Z :=
  if 0 <=? n then Nat.iter (Z.to_nat n) next_day ymd
  else Nat.iter (Z.to_nat (- n)) prev_day ymd.

(** A month of the year and a day of that month. *)
Definition valid_md (ymd : Z * Z * Z) : Prop :=
  let '(y, m, d) := ymd in 1 <= m <= 12 /\ 1 <= d <= days_in_month y m.

Definition ordinal_of (ymd : Z * Z * Z) : Z :=
  let '(y, m, d) := ymd in ymd2ord y m d.

(** The date of a [datetime]. *)
Definition date_of (d : datetime) : Z * Z * Z := (dt_year d, dt_month d, dt_day d).

(** *** Formatting *)

(** [n] in decimal, padded with zeros to [width] digits ([%02d],
    [%04d]). *)
Definition zero_pad (width : nat) (n : Z) : str :=
  let ds := digits (Z.to_N n) in
  repeat 48%N (width - length ds) ++ ds.

(** [YYYY-MM-DD]. *)
Definition isoformat_date (ymd : Z * Z * Z) : str :=
  let '(y, m, d) := ymd in
  zero_pad 4 y ++ u "-" ++ zero_pad 2 m ++ u "-" ++ zero_pad 2 d.

(** The shape [YYYY-MM-DD]: four digits, a dash, two digits, a dash, two
    digits. *)
Definition iso_date_shape (s : str) : bool :=
  match s with
  | [y1; y2; y3; y4; h1; m1; m2; h2; d1; d2] =>
      forallb is_digit [y1; y2; y3; y4; m1; m2; d1; d2]
      && (h1 =? 45)%N && (h2 =? 45)%N
  | _ => false
  end.

(** ** [pandas]: DataFrames *)

(** A cell value that is not missing. *)
Inductive scalar : Type :=
| SInt (z : Z)
| SFloat (lit : str)
| SBool (b : bool)
| SStr (s : str).

(** A cell: [None] is a missing value ([NaN], [None], [NaT]). *)
Definition cell : Type := option scalar.

(** A column: its cells in row order. *)
Definition Series : Type := list cell.

(** A [DataFrame]: its columns by label.  Column labels are distinct, and
    the order of the columns plays no part in the methods modelled. *)
Definition DataFrame : Type := gmap str Series.

(** [Series.fillna(value)]: the missing cells take [value], the others
    stay. *)
Definition fillna (value : scalar) (column : Series) : Series :=
  List.map (fun c => match c with None => Some value | Some _ => c end) column.

(** [str(value)], as an f-string renders it. *)
Definition str_of_scalar (value : scalar) : str :=
  match value with
  | SInt z => int_repr z
  | SFloat lit => lit
  | SBool true => u "True"
  | SBool false => u "False"
  | SStr s => s
  end.

(** A reference to a DataFrame object. *)
Definition loc : Type := positive.

(** ** [requests]: requests and responses *)

Inductive http_method : Set := GET | POST.

(** What [requests.get] and [requests.post] are called with. *)
Record request : Type := Request {
  req_method : http_method;
  req_url : str;
  req_params : option (list (str * str));
  req_json : option pyval;
  req_headers : option (list (str * str));
  req_timeout : Z
}.

Record response : Type := Response {
  status_code : Z;
  reason : str;
  url : str;
  text : str
}.

(** ** The world *)

(** Everything outside the class that its methods read or change. *)
Record world : Type := World {
  (** the calls of [logging.info] and [logging.error] so far, oldest first *)
  logs : list log_record;
  (** the text files, by path *)
  files : gmap str str;
  (** whether [open(path, "w")] succeeds *)
  writable : str -> bool;
  (** the DataFrame objects *)
  objects : gmap loc DataFrame;
  (** [datetime.now()] *)
  clock : datetime;
  (** what the network answers to a request: a response, or the exception
      [requests] raises *)
  network : request -> result response;
  (** the random generator: the values [random.random()] will return, as
      numerators over [2^53], and how many were drawn *)
  rng : nat -> N;
  rng_pos : nat
}.

Definition set_logs (w : world) (l : list log_record) : world :=
  World l (files w) (writable w) (objects w) (clock w) (network w) (rng w) (rng_pos w).

Definition set_files (w : world) (f : gmap str str) : world :=
  World (logs w) f (writable w) (objects w) (clock w) (network w) (rng w) (rng_pos w).

Definition set_objects (w : world) (o : gmap loc DataFrame) : world :=
  World (logs w) (files w) (writable w) o (clock w) (network w) (rng w) (rng_pos w).

Definition set_rng_pos (w : world) (n : nat) : world :=
  World (logs w) (files w) (writable w) (objects w) (clock w) (network w) (rng w) n.

(** ** The monad of method bodies *)

(** A computation runs in a world and returns or raises, leaving a
    world. *)
Definition M (A : Type) : Type := world -> result A * world.

Definition ret {A} (a : A) : M A := fun w => (Return a, w).

Definition raise {A} (e : exn) : M A := fun w => (Raise e, w).

Definition bind {A B} (m : M A) (k : A -> M B) : M B :=
  fun w =>
    match m w with
    | (Return a, w') => k a w'
    | (Raise e, w') => (Raise e, w')
    end.

(** A pure library call. *)
Definition lift {A} (r : result A) : M A := fun w => (r, w).

(** [try: body except cls as e: handler(e)].  An exception of another
    class propagates. *)
Definition try_except {A} (body : M A) (cls : exc_class) (handler : exn -> M A) : M A :=
  fun w =>
    match body w with
    | (Return a, w') => (Return a, w')
    | (Raise e, w') =>
        if issubclass (exn_class e) cls then handler e w' else (Raise e, w')
    end.

Declare Scope py_scope.
Delimit Scope py_scope with py.
Notation "x <- m ;; k" := (bind m (fun x => k))
  (at level 100, m at next level, k at level 200, right associativity) : py_scope.
Notation "m ;; k" := (bind m (fun _ => k))
  (at level 100, k at level 200, right associativity) : py_scope.
Local Open Scope py_scope.

(** *** Primitive effects *)

Definition logging_info (msg : str) : M unit :=
  fun w => (Return tt, set_logs w (logs w ++ [(INFO, msg)])).

Definition logging_error (msg : str) : M unit :=
  fun w => (Return tt, set_logs w (logs w ++ [(ERROR, msg)])).

(** [repr(path)] for a path without quotes or escapes. *)
Definition quoted (s : str) : str := u "'" ++ s ++ u "'".

(** [open(path, "r", encoding="utf-8")] followed by [f.read()]. *)
Definition open_read (path : str) : M str :=
  fun w =>
    match files w !! path with
    | Some content => (Return content, w)
    | None =>
        (Raise (Exn FileNotFoundError
                  (u "[Errno 2] No such file or directory: " ++ quoted path)), w)
    end.

(** [open(path, "w", encoding="utf-8")]: the file is created or
    truncated. *)
Definition open_write (path : str) : M unit :=
  fun w =>
    if writable w path then (Return tt, set_files w (<[path := []]> (files w)))
    else (Raise (Exn PermissionError
                   (u "[Errno 13] Permission denied: " ++ quoted path)), w).

(** [f.write(s)] on the file opened at [path]. *)
Definition file_write (path : str) (s : str) : M unit :=
  fun w => (Return tt, set_files w (alter (fun content => content ++ s) path (files w))).

Definition now : M datetime := fun w => (Return (clock w), w).

(** [random.random()]: the next value of the generator, a multiple of
    [2^-53] in [[0, 1)], as its numerator. *)
Definition random : M N :=
  fun w => (Return (rng w (rng_pos w) mod 2 ^ 53)%N, set_rng_pos w (S (rng_pos w))).

Definition send (r : request) : M response := fun w => (network w r, w).

Definition load_object (df : loc) : M DataFrame :=
  fun w =>
    match objects w !! df with
    | Some frame => (Return frame, w)
    | None => (Raise (Exn RuntimeError (u "no such object")), w)
    end.

Definition store_object (df : loc) (frame : DataFrame) : M unit :=
  fun w => (Return tt, set_objects w (<[df := frame]> (objects w))).

(** ** Library calls left open *)

(** The calls whose results are not computed here.  [strptime] and
    [strftime] are [datetime.strptime] and [datetime.strftime] on any
    format; [str_upper] and [str_lower] are [str.upper] and [str.lower]. *)
Record library : Type := Library {
  strptime : str -> str -> result datetime;
  strftime : datetime -> str -> result str;
  str_upper : str -> str;
  str_lower : str -> str
}.

(** ** A reference library *)

(** [cpython] computes [strptime] and [strftime] for formats made of
    [%Y], [%m], [%d], [%H], [%M], [%S], [%%] and literal text, on ASCII
    input, the way CPython's [_strptime] does: the format becomes a regular
    expression, matched from the left with backtracking.  A directive of
    Python that is not computed here raises [NotImplementedError]. *)

Section reference.
Local Open Scope N_scope.

Inductive directive : Set := dir_Y | dir_m | dir_d | dir_H | dir_M | dir_S.

#[global] Instance directive_eq_dec : EqDecision directive.
Proof. solve_decision. Defined.

(** An item of a format: a literal character, a run of white space, or a
    directive. *)
Inductive fmt_item : Set :=
| FLit (c : N)
| FSpace
| FDir (d : directive).

(** White space in ASCII, as [\s] and [str.isspace] see it. *)
Definition is_space (c : N) : bool :=
  ((9 <=? c) && (c <=? 13)) || ((28 <=? c) && (c <=? 32)).

Definition directive_of (c : N) : option directive :=
  if c =? 89 then Some dir_Y
  else if c =? 109 then Some dir_m
  else if c =? 100 then Some dir_d
  else if c =? 72 then Some dir_H
  else if c =? 77 then Some dir_M
  else if c =? 83 then Some dir_S
  else None.

(** The directive letters [_strptime] knows: [aAbBcdfGHIjmMpSUuVwWxXyYzZ]. *)
Definition known_directive (c : N) : bool :=
  existsb (N.eqb c) (u "aAbBcdfGHIjmMpSUuVwWxXyYzZ").

Definition bad_directive (c : N) (fmt : str) : exn :=
  Exn ValueError (quoted [c] ++ u " is a bad directive in format " ++ quoted fmt).

(** The items of a format.  [fmt] is the whole format, for the messages. *)
Fixpoint format_items (fmt : str) (s : str) : result (list fmt_item) :=
  match s with
  | [] => Return []
  | c :: t =>
      if c =? 37 then
        match t with
        | [] => Raise (Exn ValueError (u "stray % in format " ++ quoted fmt))
        | d :: t' =>
            match
              (if d =? 37 then Return (FLit 37)
               else match directive_of d with
                    | Some dir => Return (FDir dir)
                    | None =>
                        if known_directive d
                        then Raise (Exn NotImplementedError (u "directive not computed"))
                        else Raise (bad_directive (if is_space d then 37 else d) fmt)
                    end),
              format_items fmt t'
            with
            | Raise e, _ => Raise e
            | Return _, Raise e => Raise e
            | Return i, Return items => Return (i :: items)
            end
        end
      else
        match format_items fmt t with
        | Raise e => Raise e
        | Return items =>
            if is_space c then
              match items with
              | FSpace :: _ => Return items
              | _ => Return (FSpace :: items)
              end
            else Return (FLit c :: items)
        end
  end.

(** A character class: a range of code points. *)
Definition char_class : Type := N * N.

Definition digit_class : char_class := (48, 57).

(** The alternatives of a directive's regular expression, in order. *)
Definition alternatives (d : directive) : list (list char_class) :=
  match d with
  | dir_Y => [[digit_class; digit_class; digit_class; digit_class]]
  | dir_m => [[(49, 49); (48, 50)]; [(48, 48); (49, 57)]; [(49, 57)]]
  | dir_d => [[(51, 51); (48, 49)]; [(49, 50); digit_class]; [(48, 48); (49, 57)];
              [(49, 57)]; [(32, 32); (49, 57)]]
  | dir_H => [[(50, 50); (48, 51)]; [(48, 49); digit_class]; [digit_class]]
  | dir_M => [[(48, 53); digit_class]; [digit_class]]
  | dir_S => [[(54, 54); (48, 49)]; [(48, 53); digit_class]; [digit_class]]
  end.

(** One alternative against the head of [s]: the text matched and what
    follows. *)
Fixpoint match_classes (alt : list char_class) (s : str) : option (str * str) :=
  match alt with
  | [] => Some ([], s)
  | (lo, hi) :: alt' =>
      match s with
      | c :: t =>
          if (lo <=? c) && (c <=? hi) then
            match match_classes alt' t with
            | Some (m, r) => Some (c :: m, r)
            | None => None
            end
          else None
      | [] => None
      end
  end.

Definition ascii_lower (c : N) : N :=
  if (65 <=? c) && (c <=? 90) then c + 32 else c.

Definition ascii_upper (c : N) : N :=
  if (97 <=? c) && (c <=? 122) then c - 32 else c.

Fixpoint count_spaces (s : str) : nat :=
  match s with
  | c :: t => if is_space c then S (count_spaces t) else O
  | [] => O
  end.

(** The first success of [f] on the elements of [l], in order. *)
Fixpoint first_success {A B} (f : A -> option B) (l : list A) : option B :=
  match l with
  | [] => None
  | a :: l' => match f a with Some b => Some b | None => first_success f l' end
  end.

(** [re.match] of the items against [s], case-insensitively: the text
    each directive matched and the text after the match.  A literal
    matches itself; a run of white space matches as much white space as
    it can, and gives back while the rest fails; a directive tries its
    alternatives in order. *)
Fixpoint match_items (items : list fmt_item) (s : str)
  : option (list (directive * str) * str) :=
  match items with
  | [] => Some ([], s)
  | FLit c :: items' =>
      match s with
      | d :: t => if ascii_lower c =? ascii_lower d then match_items items' t else None
      | [] => None
      end
  | FSpace :: items' =>
      first_success (fun n => match_items items' (drop n s))
        (List.rev (seq 1 (count_spaces s)))
  | FDir d :: items' =>
      first_success
        (fun alt =>
           match match_classes alt s with
           | Some (m, r) =>
               match match_items items' r with
               | Some (found, rest) => Some ((d, m) :: found, rest)
               | None => None
               end
           | None => None
           end)
        (alternatives d)
  end.

(** The group of [d], or [default] when the format does not hold it:
    [int(found_dict[...])]. *)
Definition group (found : list (directive * str)) (d : directive) (default : Z) : Z :=
  match List.find (fun g => bool_decide (fst g = d)) found with
  | Some (_, m) => Z.of_N (int_of_digits (List.filter is_digit m))
  | None => default
  end.

Fixpoint repeated_directive (items : list fmt_item) : bool :=
  match items with
  | [] => false
  | FDir d :: items' =>
      existsb (fun i => match i with FDir d' => bool_decide (d = d') | _ => false end) items'
      || repeated_directive items'
  | _ :: items' => repeated_directive items'
  end.

(** [datetime.strptime(data, fmt)].  A format that repeats a directive
    does not compile to a regular expression: [re.error], of which the
    message is cut short here (it goes on with the group and its
    position). *)
Definition cpython_strptime (data fmt : str) : result datetime :=
  match format_items fmt fmt with
  | Raise e => Raise e
  | Return items =>
      if repeated_directive items
      then Raise (Exn re_error (u "redefinition of group name"))
      else
        match match_items items data with
        | None =>
            Raise (Exn ValueError
                     (u "time data " ++ quoted data
                      ++ u " does not match format " ++ quoted fmt))
        | Some (found, rest) =>
            match rest with
            | _ :: _ => Raise (Exn ValueError (u "unconverted data remains: " ++ rest))
            | [] =>
                let year := group found dir_Y 1900 in
                let month := group found dir_m 1 in
                let day := group found dir_d 1 in
                let hour := group found dir_H 0 in
                let minute := group found dir_M 0 in
                let second := group found dir_S 0 in
                if negb ((MINYEAR <=? year)%Z && (year <=? MAXYEAR)%Z) then
                  Raise (Exn ValueError
                           (u "year " ++ int_repr year ++ u " is out of range"))
                else if negb (valid_date year month day) then
                  Raise (Exn ValueError (u "day is out of range for month"))
                else if negb (valid_time hour minute second 0) then
                  Raise (Exn ValueError (u "second must be in 0..59"))
                else Return (Datetime year month day hour minute second 0)
            end
        end
  end.

(** One directive of [strftime]. *)
Definition render (d : datetime) (dir : directive) : str :=
  match dir with
  | dir_Y => zero_pad 4 (dt_year d)
  | dir_m => zero_pad 2 (dt_month d)
  | dir_d => zero_pad 2 (dt_day d)
  | dir_H => zero_pad 2 (dt_hour d)
  | dir_M => zero_pad 2 (dt_minute d)
  | dir_S => zero_pad 2 (dt_second d)
  end.

(** [d.strftime(fmt)].  The year takes four digits, as current CPython
    writes it; older versions left the years below 1000 to the C library,
    and glibc wrote them without leading zeros. *)
Fixpoint cpython_strftime (d : datetime) (fmt : str) : result str :=
  match fmt with
  | [] => Return []
  | c :: t =>
      if c =? 37 then
        match t with
        | [] => Raise (Exn NotImplementedError (u "directive not computed"))
        | e :: t' =>
            match
              (if e =? 37 then Some [37]
               else match directive_of e with
                    | Some dir => Some (render d dir)
                    | None => None
                    end),
              cpython_strftime d t'
            with
            | None, _ => Raise (Exn NotImplementedError (u "directive not computed"))
            | Some _, Raise e => Raise e
            | Some s, Return r => Return (s ++ r)
            end
        end
      else
        match cpython_strftime d t with
        | Raise e => Raise e
        | Return r => Return (c :: r)
        end
  end.

End reference.

Definition cpython : library :=
  Library cpython_strptime cpython_strftime (List.map ascii_upper) (List.map ascii_lower).

(** ** Calls of the libraries *)

Local Open Scope py_scope.

(** [type(v).__name__]. *)
Definition type_name (v : pyval) : str :=
  match v with
  | PNone => u "NoneType"
  | PBool _ => u "bool"
  | PInt _ => u "int"
  | PFloat _ => u "float"
  | PStr _ => u "str"
  | PList _ => u "list"
  | PDict _ => u "dict"
  end.

(** [requests.get(url, params=params, headers=headers, timeout=timeout)]. *)
Definition requests_get (url : str) (params headers : option (list (str * str)))
    (timeout : Z) : M response :=
  send (Request GET url params None headers timeout).

(** [requests.post(url, json=json, headers=headers, timeout=timeout)]. *)
Definition requests_post (url : str) (json : option pyval)
    (headers : option (list (str * str))) (timeout : Z) : M response :=
  send (Request POST url None json headers timeout).

(** [Response.raise_for_status()]: an [HTTPError] for a status from 400 to
    599, and nothing for any other status. *)
Definition raise_for_status (r : response) : M unit :=
  if (400 <=? status_code r) && (status_code r <? 500) then
    raise (Exn HTTPError
             (int_repr (status_code r) ++ u " Client Error: " ++ reason r
              ++ u " for url: " ++ url r))
  else if (500 <=? status_code r) && (status_code r <? 600) then
    raise (Exn HTTPError
             (int_repr (status_code r) ++ u " Server Error: " ++ reason r
              ++ u " for url: " ++ url r))
  else ret tt.

(** [Response.json()]: the body parsed by [json.loads]; its
    [JSONDecodeError] becomes the one of [requests]. *)
Definition response_json (r : response) : M pyval :=
  match loads (text r) with
  | Return v => ret v
  | Raise e =>
      if issubclass (exn_class e) JSONDecodeError
      then raise (Exn requests_JSONDecodeError (exn_msg e))
      else raise e
  end.

(** [string.ascii_letters + string.digits]. *)
Definition ascii_letters : str :=
  u "abcdefghijklmnopqrstuvwxyzABCDEFGHIJKLMNOPQRSTUVWXYZ".

Definition string_digits : str := u "0123456789".

(** The double nearest to [p / 2^53], as a numerator over [2^53]: [p]
    keeps its 53 leading bits, rounded to nearest, ties to even.  This is
    the product of two doubles, [r / 2^53] and [n], where [p = r * n]. *)
Definition round_double (p : N) : N :=
  (let s := N.log2 p + 1 - 53 in
   let q := p / 2 ^ s in
   let rem := p mod 2 ^ s in
   if (2 ^ s <? 2 * rem) || ((2 * rem =? 2 ^ s) && N.odd q)
   then (q + 1) * 2 ^ s
   else q * 2 ^ s)%N.

(** [random.choices(population, k=k)]: [k] draws with replacement, each
    [population[floor(random() * n)]], for a population of fewer than
    [2^53] elements, whose length [n] is a double. *)
Fixpoint random_choices (population : str) (k : nat) : M str :=
  match k with
  | O => ret []
  | S k' =>
      r <- random ;;
      let i := (round_double (r * N.of_nat (length population)) / 2 ^ 53)%N in
      match population !! N.to_nat i with
      | Some c =>
          rest <- random_choices population k' ;;
          ret (c :: rest)
      | None => raise (Exn IndexError (u "string index out of range"))
      end
  end.

(** * The class [PythonHelper] *)

Module PythonHelper.

(** ** File handling *)

(** The [try] block of [read_json]. *)
Definition read_json_body (file_path : str) : M pyval :=
  content <- open_read file_path ;;
  lift (loads content).

Definition read_json (file_path : str) : M pyval :=
  try_except
    (read_json_body file_path)
    Exception
    (fun e =>
       logging_error (u "Error reading JSON file: " ++ exn_msg e) ;;
       ret PNone).

(** The [try] block of [write_json]. *)
Definition write_json_body (file_path : str) (data : pyval) : M unit :=
  open_write file_path ;;
  file_write file_path (dumps data) ;;
  logging_info (u "JSON file saved: " ++ file_path).

Definition write_json (file_path : str) (data : pyval) : M unit :=
  try_except
    (write_json_body file_path data)
    Exception
    (fun e => logging_error (u "Error writing JSON file: " ++ exn_msg e)).

Section csv.

(** [pd.read_csv(file_path)], which returns a new DataFrame object, and
    [data.to_csv(file_path, index=False)]; what they compute is left
    open. *)
Variable pd_read_csv : str -> M loc.
Variable to_csv : loc -> str -> M unit.

Definition read_csv_body (file_path : str) : M (option loc) :=
  df <- pd_read_csv file_path ;;
  ret (Some df).

Definition read_csv (file_path : str) : M (option loc) :=
  try_except
    (read_csv_body file_path)
    Exception
    (fun e =>
       logging_error (u "Error reading CSV file: " ++ exn_msg e) ;;
       ret None).

Definition write_csv_body (file_path : str) (data : loc) : M unit :=
  to_csv data file_path ;;
  logging_info (u "CSV file saved: " ++ file_path).

Definition write_csv (file_path : str) (data : loc) : M unit :=
  try_except
    (write_csv_body file_path data)
    Exception
    (fun e => logging_error (u "Error writing CSV file: " ++ exn_msg e)).

End csv.

(** ** Date and time *)

Section datetime_methods.
Variable L : library.

Definition get_current_timestamp : M str :=
  d <- now ;;
  lift (strftime L d (u "%Y-%m-%d %H:%M:%S")).

Definition convert_date_format_body (date_str input_format output_format : str)
    : M (option str) :=
  date_obj <- lift (strptime L date_str input_format) ;;
  s <- lift (strftime L date_obj output_format) ;;
  ret (Some s).

Definition convert_date_format (date_str input_format output_format : str)
    : M (option str) :=
  try_except
    (convert_date_format_body date_str input_format output_format)
    ValueError
    (fun e =>
       logging_error (u "Error in date conversion: " ++ exn_msg e) ;;
       ret None).

Definition get_future_date (days : Z) : M str :=
  d <- now ;;
  delta <- lift (timedelta_days days) ;;
  d' <- lift (datetime_add_days d delta) ;;
  lift (strftime L d' (u "%Y-%m-%d")).

End datetime_methods.

(** ** API requests *)

Definition send_get_request_body (url : str)
    (params headers : option (list (str * str))) : M pyval :=
  response <- requests_get url params headers 10 ;;
  raise_for_status response ;;
  response_json response.

Definition send_get_request (url : str) (params headers : option (list (str * str)))
    : M pyval :=
  try_except
    (send_get_request_body url params headers)
    RequestException
    (fun e =>
       logging_error (u "GET request error: " ++ exn_msg e) ;;
       ret PNone).

Definition send_post_request_body (url : str) (data : option pyval)
    (headers : option (list (str * str))) : M pyval :=
  response <- requests_post url data headers 10 ;;
  raise_for_status response ;;
  response_json response.

Definition send_post_request (url : str) (data : option pyval)
    (headers : option (list (str * str))) : M pyval :=
  try_except
    (send_post_request_body url data headers)
    RequestException
    (fun e =>
       logging_error (u "POST request error: " ++ exn_msg e) ;;
       ret PNone).

(** ** Data processing *)

(** [list(set(data))], for elements of a hashable type: the elements of
    the set, in the order the set yields them. *)
Definition remove_duplicates {A} `{Countable A} (data : list A) : list A :=
  elements (list_to_set data : gset A).

(** [df] is the object itself: the column is filled in place and the same
    object is returned. *)
Definition fill_missing_values (df : loc) (column_name : str) (fill_value : scalar)
    : M loc :=
  frame <- load_object df ;;
  (if bool_decide (column_name ∈ dom frame) then
     store_object df (alter (fillna fill_value) column_name frame) ;;
     logging_info (u "Missing values in column '" ++ column_name
                   ++ u "' filled with '" ++ str_of_scalar fill_value ++ u "'")
   else ret tt) ;;
  ret df.

(** ** String utilities *)

Definition generate_random_string (length : Z) : M str :=
  random_choices (ascii_letters ++ string_digits) (Z.to_nat length).

Definition to_uppercase (L : library) (text : pyval) : M pyval :=
  match text with
  | PStr s => ret (PStr (str_upper L s))
  | _ =>
      raise (Exn AttributeError
               (quoted (type_name text) ++ u " object has no attribute 'upper'"))
  end.

Definition to_lowercase (L : library) (text : pyval) : M pyval :=
  match text with
  | PStr s => ret (PStr (str_lower L s))
  | _ =>
      raise (Exn AttributeError
               (quoted (type_name text) ++ u " object has no attribute 'lower'"))
  end.

End PythonHelper.

(** * What the statements speak of *)

(** The world after one more log record. *)
Definition logged (w : world) (lvl : level) (msg : str) : world :=
  set_logs w (logs w ++ [(lvl, msg)]).

(** [m] returns in every world. *)
Definition never_raises {A} (m : M A) : Prop :=
  forall w, raises (fst (m w)) = false.

(** Whatever [m] raises is of class [cls]. *)
Definition raises_only {A} (m : M A) (cls : exc_class) : Prop :=
  forall w e w', m w = (Raise e, w') -> issubclass (exn_class e) cls = true.

(** [method] is [body] under a handler for [cls]: it returns what [body]
    returns; when [body] raises an exception of class [cls] it logs
    [prefix] and the message at level ERROR and returns [none]; any other
    exception propagates. *)
Definition guarded {A} (method body : M A) (cls : exc_class) (prefix : str) (none : A)
    : Prop :=
  forall w,
    method w =
    match body w with
    | (Return a, w') => (Return a, w')
    | (Raise e, w') =>
        if issubclass (exn_class e) cls
        then (Return none, logged w' ERROR (prefix ++ exn_msg e))
        else (Raise e, w')
    end.

(** Letters and digits of ASCII. *)
Definition is_alnum (c : N) : bool :=
  ((97 <=? c) && (c <=? 122) || (65 <=? c) && (c <=? 90) || (48 <=? c) && (c <=? 57))%N.

(** What [Series.fillna] does to one cell. *)
Definition filled (value : scalar) (c : cell) : cell :=
  match c with
  | None => Some value
  | Some _ => c
  end.

(** The message [fill_missing_values] logs. *)
Definition fill_message (column_name : str) (fill_value : scalar) : str :=
  u "Missing values in column '" ++ column_name
  ++ u "' filled with '" ++ str_of_scalar fill_value ++ u "'".

(** ** Sample worlds *)

(** A world with no files and no objects, in which every path can be
    written, the clock shows 2024-01-15 10:30:00 and no host can be
    reached. *)
Definition sample_world : world :=
  World [] ∅ (fun _ => true) ∅
    (Datetime 2024 1 15 10 30 0 0)
    (fun r =>
       Raise (Exn requests_ConnectionError
                (u "HTTPConnectionPool(host='unreachable.invalid', port=80): "
                 ++ u "Max retries exceeded with url: /")))
    (fun n => (N.of_nat n * 6364136223846793005 + 1442695040888963407)%N)
    0.

(** The same world with a server that answers every request with status
    300 and a JSON body. *)
Definition choices_world : world :=
  World [] ∅ (fun _ => true) ∅
    (Datetime 2024 1 15 10 30 0 0)
    (fun r => Return (Response 300 (u "Multiple Choices") (req_url r) (u "[]")))
    (fun n => (N.of_nat n * 6364136223846793005 + 1442695040888963407)%N)
    0.

(** The record of the usage example of the source. *)
Definition sample_data : pyval :=
  PDict [(u "name", PStr (u "Helium V2")); (u "status", PStr (u "Active"))].

(** A table with a column ["status"] that has a missing cell. *)
Definition sample_frame : DataFrame :=
  {[ u "name" := [Some (SStr (u "a")); Some (SStr (u "b")); Some (SStr (u "c"))];
     u "status" := [Some (SStr (u "Active")); None; Some (SStr (u "Done"))] ]}.

(** The sample world with that table as object 1. *)
Definition table_world : world :=
  set_objects sample_world {[ 1%positive := sample_frame ]}.

(** ** More sample worlds *)

(** The sample world with a generator that returns [r / 2^53] at every
    draw. *)
Definition drawing_world (r : N) : world :=
  World [] ∅ (fun _ => true) ∅
    (Datetime 2024 1 15 10 30 0 0)
    (network sample_world)
    (fun _ => r)
    0.

(** The middle of the [i]-th of [n] equal parts of [[0, 1)], as a
    numerator over [2^53]. *)
Definition middle_of_part (i n : nat) : N :=
  ((N.of_nat i * 2 ^ 53 + 2 ^ 52) / N.of_nat n)%N.

(** The sample world with a server that answers every request with status
    404 and a body that is not JSON. *)
Definition not_found_world : world :=
  World [] ∅ (fun _ => true) ∅
    (Datetime 2024 1 15 10 30 0 0)
    (fun r => Return (Response 404 (u "Not Found") (req_url r) (u "<html>Not Found</html>")))
    (rng sample_world)
    0.

(** ** Two-digit fields *)

(** Whether the first alternative of [alts] that matches at [c1 c2] takes
    both characters: no alternative before it matches, and none of them is
    longer than two characters. *)
Fixpoint takes_both (alts : list (list char_class)) (c1 c2 : N) : bool :=
  match alts with
  | [] => false
  | alt :: alts' =>
      match match_classes alt [c1; c2] with
      | Some (_, []) => true
      | Some (_, _ :: _) => false
      | None => (length alt <=? 2)%nat && takes_both alts' c1 c2
      end
  end.

(** The values a two-digit field of a [datetime] takes. *)
Definition field_range (d : directive) : Z * Z :=
  match d with
  | dir_Y => (0, 99)
  | dir_m => (1, 12)
  | dir_d => (1, 31)
  | dir_H => (0, 23)
  | dir_M => (0, 59)
  | dir_S => (0, 59)
  end.

(** The sample world at another time. *)
Definition set_clock (w : world) (d : datetime) : world :=
  World (logs w) (files w) (writable w) (objects w) d (network w) (rng w) (rng_pos w).

(** [DD-MM-YYYY], the default output of [convert_date_format]. *)
Definition dmy_date (ymd : Z * Z * Z) : str :=
  let '(y, m, d) := ymd in
  zero_pad 2 d ++ u "-" ++ zero_pad 2 m ++ u "-" ++ zero_pad 4 y.

(** [YYYY-MM-DD HH:MM:SS]. *)
Definition timestamp_text (d : datetime) : str :=
  isoformat_date (date_of d) ++ u " "
  ++ zero_pad 2 (dt_hour d) ++ u ":" ++ zero_pad 2 (dt_minute d) ++ u ":"
  ++ zero_pad 2 (dt_second d).

(** ** [logging]: the root logger and its handlers *)

(** Where a handler writes: [sys.stderr] or a file opened for appending. *)
Inductive stream : Type :=
| stderr
| log_file (path : str).

(** A handler: its stream, its level and the format of its formatter. *)
Record handler : Type := Handler {
  h_stream : stream;
  h_level : Z;
  h_format : str
}.

(** The root logger: its level, and its handlers in the order they were
    added. *)
Record root_logger : Type := Root {
  root_level : Z;
  root_handlers : list handler
}.

Definition NOTSET : Z := 0.
Definition WARNING : Z := 30.

(** [record.levelno]. *)
Definition levelno (lvl : level) : Z :=
  match lvl with
  | INFO => 20
  | ERROR => 40
  end.

Definition BASIC_FORMAT : str := u "%(levelname)s:%(name)s:%(message)s".

(** The root logger of an interpreter that has not touched [logging]:
    [RootLogger(WARNING)], with no handler. *)
Definition fresh_root : root_logger := Root WARNING [].


(** [open(path, "a")], as [FileHandler] calls it when it is created: the
    file is created when it is missing and kept as it is otherwise. *)
Definition open_append (path : str) : M unit :=
  fun w =>
    if writable w path then
      (Return tt,
       match files w !! path with
       | Some _ => w
       | None => set_files w (<[path := []]> (files w))
       end)
    else (Raise (Exn PermissionError
                   (u "[Errno 13] Permission denied: " ++ quoted path)), w).

(** [logging.basicConfig(filename=filename, filemode="a", format=format,
    level=level)], each argument optional.  It does nothing when the root
    logger has a handler.  Otherwise the root logger gets one handler, a
    [FileHandler] when [filename] is given and not empty and a
    [StreamHandler] on [sys.stderr] otherwise, with the format, and the
    level when one is given. *)
Definition basicConfig (filename : option str) (format : option str) (lvl : option Z)
    (root : root_logger) : M root_logger :=
  match root_handlers root with
  | _ :: _ => ret root
  | [] =>
      s <- match filename with
           | Some (c :: path) => open_append (c :: path) ;; ret (log_file (c :: path))
           | _ => ret stderr
           end ;;
      ret (Root (default (root_level root) lvl)
             [Handler s NOTSET (default BASIC_FORMAT format)])
  end.

(** [logging.info(msg)] and [logging.error(msg)]: a root logger without
    handler first gets the one of [basicConfig()]; the record is then
    handed, when the root logger is enabled for its level, to every handler
    whose level it reaches.  The result is the root logger and the handlers
    that got the record, in order.  What a handler writes is not part of
    the model. *)
Definition root_log (lvl : level) (root : root_logger)
    : M (root_logger * list handler) :=
  root1 <- match root_handlers root with
           | [] => basicConfig None None None root
           | _ :: _ => ret root
           end ;;
  ret (root1,
       if root_level root1 <=? levelno lvl
       then List.filter (fun h => h_level h <=? levelno lvl) (root_handlers root1)
       else []).

(** * The rest of the class [PythonHelper] *)

Module PythonHelperSetup.

(** The format [setup_logging] gives to both of its handlers. *)
Definition log_format : str := u "%(asctime)s - %(levelname)s - %(message)s".

(** The handler [setup_logging] adds for the console. *)
Definition console : handler := Handler stderr 20 log_format.

Definition setup_logging (log_file : str) (root : root_logger) : M root_logger :=
  root1 <- basicConfig (Some log_file) (Some log_format) (Some 20) root ;;
  ret (Root (root_level root1) (root_handlers root1 ++ [console])).

(** [PythonHelper(log_file)]. *)
Definition __init__ (log_file : str) (root : root_logger) : M root_logger :=
  setup_logging log_file root.

(** One instance after the other, each with its log file. *)
Fixpoint instances (log_files : list str) (root : root_logger) : M root_logger :=
  match log_files with
  | [] => ret root
  | f :: fs => root1 <- __init__ f root ;; instances fs root1
  end.

(** [os.getenv(key, default)] is [os.environ.get(key, default)]: the
    environment is a map from names to values. *)
Definition os_getenv (environ : gmap str str) (key : str) (default : pyval) : pyval :=
  match environ !! key with
  | Some value => PStr value
  | None => default
  end.

Definition getkeyvalueByNameFromEnvVaribles (environ : gmap str str) (keyName : str)
    : pyval :=
  os_getenv environ keyName PNone.

Definition get_env_variable (environ : gmap str str) (var_name : str)
    (default_value : pyval) : pyval :=
  os_getenv environ var_name default_value.

End PythonHelperSetup.

(** * Proofs *)

(** ** The [json] module: reading back what was written *)

Ltac ediv_lia := zify; Z.to_euclidean_division_equations; lia.

(** Case analysis on every comparison of numbers in the goal. *)
Ltac ncases :=
  repeat match goal with
  | |- context [N.eqb ?a ?b] => destruct (N.eqb_spec a b)
  | |- context [N.leb ?a ?b] => destruct (N.leb_spec a b)
  | |- context [N.ltb ?a ?b] => destruct (N.ltb_spec a b)
  end.

Section json_facts.
Local Open Scope N_scope.

Lemma digits_upto_read (fuel : nat) : forall (n : N) (acc : str),
  n < 2 ^ N.of_nat (S fuel) ->
  fold_left (fun a c => a * 10 + (c - 48)) (digits_upto fuel n acc) 0
  = fold_left (fun a c => a * 10 + (c - 48)) acc n.
Proof.
  induction fuel as [|fuel IH]; intros n acc Hn.
  - cbn in Hn. simpl. f_equal. ediv_lia.
  - cbn [digits_upto]. destruct (N.eqb_spec (n / 10) 0) as [E|E].
    + simpl. f_equal. ediv_lia.
    + rewrite IH.
      * simpl. f_equal. ediv_lia.
      * rewrite !Nat2N.inj_succ, !N.pow_succ_r' in Hn.
        rewrite Nat2N.inj_succ, N.pow_succ_r'.
        assert (0 < 2 ^ N.of_nat fuel) by (apply N.neq_0_lt_0, N.pow_nonzero; lia).
        ediv_lia.
Qed.

Lemma log2_fuel (n : N) : n < 2 ^ N.of_nat (S (N.to_nat (N.log2 n))).
Proof.
  rewrite Nat2N.inj_succ, N2Nat.id.
  destruct (N.eq_dec n 0) as [->|Hn]; [reflexivity|].
  apply N.log2_spec. lia.
Qed.

Lemma int_of_digits_digits (n : N) : int_of_digits (digits n) = n.
Proof.
  unfold int_of_digits, digits. rewrite digits_upto_read by apply log2_fuel.
  reflexivity.
Qed.

(** [digits_upto] puts digits in front of the accumulator; the first one is
    not a zero unless the number is. *)
Lemma digits_upto_shape (fuel : nat) : forall (n : N) (acc : str),
  exists c ds, digits_upto fuel n acc = c :: ds ++ acc
    /\ is_digit c = true /\ Forall (fun d => is_digit d = true) ds
    /\ (n <> 0 -> n < 2 ^ N.of_nat (S fuel) -> c <> 48).
Proof.
  induction fuel as [|fuel IH]; intros n acc.
  - exists (48 + n mod 10), []. cbn. repeat split; auto.
    + unfold is_digit. apply andb_true_intro. split; apply N.leb_le; ediv_lia.
    + intros. ediv_lia.
  - cbn [digits_upto]. destruct (N.eqb_spec (n / 10) 0) as [E|E].
    + exists (48 + n mod 10), []. repeat split; auto.
      * unfold is_digit. apply andb_true_intro. split; apply N.leb_le; ediv_lia.
      * intros. ediv_lia.
    + destruct (IH (n / 10) ((48 + n mod 10) :: acc)) as (c & ds & -> & Hc & Hds & Hnz).
      exists c, (ds ++ [48 + n mod 10]). rewrite <- app_assoc. repeat split; auto.
      * apply Forall_app. split; auto. constructor; auto.
        unfold is_digit. apply andb_true_intro. split; apply N.leb_le; ediv_lia.
      * intros Hn0 Hlt. apply Hnz; auto.
        rewrite !Nat2N.inj_succ, !N.pow_succ_r' in Hlt.
        rewrite Nat2N.inj_succ, N.pow_succ_r'.
        assert (0 < 2 ^ N.of_nat fuel) by (apply N.neq_0_lt_0, N.pow_nonzero; lia).
        ediv_lia.
Qed.

Lemma digits_shape (n : N) :
  exists c ds, digits n = c :: ds
    /\ is_digit c = true /\ Forall (fun d => is_digit d = true) ds
    /\ (n <> 0 -> c <> 48) /\ (n = 0 -> ds = []).
Proof.
  unfold digits.
  destruct (digits_upto_shape (N.to_nat (N.log2 n)) n []) as (c & ds & E & Hc & Hds & Hnz).
  exists c, ds. rewrite app_nil_r in E. repeat split; auto.
  - intros H. apply Hnz; auto. apply log2_fuel.
  - intros ->. cbn in E. injection E as _ <-. reflexivity.
Qed.

Lemma span_digits_app (ds rest : str) :
  Forall (fun d => is_digit d = true) ds -> ends_number rest = true ->
  span_digits (ds ++ rest) = (ds, rest).
Proof.
  intros Hds Hrest. induction Hds as [|d ds Hd _ IH]; simpl.
  - destruct rest as [|c rest]; [reflexivity|]. simpl in Hrest |- *.
    destruct (is_digit c); [discriminate|reflexivity].
  - rewrite Hd, IH. reflexivity.
Qed.

Lemma is_digit_range (c : N) : is_digit c = true <-> 48 <= c <= 57.
Proof. unfold is_digit. rewrite andb_true_iff, !N.leb_le. tauto. Qed.

Lemma match_frac_end (rest : str) :
  ends_number rest = true -> match_frac rest = ([], rest).
Proof.
  destruct rest as [|d rest]; [reflexivity|]. simpl. intros H.
  apply negb_true_iff in H.
  destruct (d =? 46); [|reflexivity].
  rewrite orb_true_r in H. discriminate.
Qed.

Lemma match_exp_end (rest : str) :
  ends_number rest = true -> match_exp rest = ([], rest).
Proof.
  destruct rest as [|d rest]; [reflexivity|]. simpl. intros H.
  apply negb_true_iff in H.
  apply orb_false_elim in H as [H H69].
  apply orb_false_elim in H as [_ H101].
  rewrite H101, H69. reflexivity.
Qed.

Lemma match_integer_repr (z : Z) (rest : str) :
  ends_number rest = true ->
  match_integer (int_repr z ++ rest) = Some (int_repr z, rest).
Proof.
  intros Hrest. unfold int_repr.
  destruct (digits_shape (Z.abs_N z)) as (c & ds & E & Hc & Hds & Hnz & Hz).
  rewrite E. pose proof (proj1 (is_digit_range c) Hc) as Hr.
  destruct (Z.ltb_spec z 0) as [Hneg|Hpos]; unfold match_integer; cbn [app].
  - rewrite N.eqb_refl.
    assert (c <> 48) as Hc48 by (apply Hnz; lia).
    apply N.eqb_neq in Hc48. rewrite Hc48, Hc.
    rewrite span_digits_app by assumption. reflexivity.
  - assert ((c =? 45) = false) as -> by (apply N.eqb_neq; lia).
    destruct (N.eqb_spec c 48) as [->|Hc48].
    + assert (Z.abs_N z = 0) as Hz0.
      { destruct (N.eq_dec (Z.abs_N z) 0) as [?|Hne]; [assumption|].
        exfalso. apply (Hnz Hne). reflexivity. }
      rewrite (Hz Hz0). reflexivity.
    + rewrite Hc. rewrite span_digits_app by assumption. reflexivity.
Qed.

Lemma match_number_repr (z : Z) (rest : str) :
  ends_number rest = true ->
  match_number (int_repr z ++ rest) = Some (int_repr z, [], [], rest).
Proof.
  intros Hrest. unfold match_number.
  rewrite match_integer_repr, match_frac_end, match_exp_end by assumption.
  reflexivity.
Qed.

(** A text that ends a number ends a run of digits. *)
Lemma ends_number_not_digit (c : N) (t : str) :
  ends_number (c :: t) = true -> is_digit c = false.
Proof.
  cbn [ends_number]. intros H. apply negb_true_iff in H.
  destruct (is_digit c); [discriminate|reflexivity].
Qed.

(** The scanners of the parts of a number read the same parts before a
    text that ends a number. *)
Lemma span_digits_before (s rest ds r : str) :
  ends_number rest = true -> span_digits s = (ds, r) ->
  span_digits (s ++ rest) = (ds, r ++ rest).
Proof.
  intros Hrest. revert ds r. induction s as [|c s IH]; intros ds r; cbn [span_digits app].
  - intros [= <- <-]. destruct rest as [|c rest]; [reflexivity|].
    cbn [span_digits]. rewrite (ends_number_not_digit c rest Hrest). reflexivity.
  - destruct (is_digit c).
    + destruct (span_digits s) as [ds' r'] eqn:E. intros [= <- <-].
      rewrite (IH ds' r' eq_refl). reflexivity.
    + intros [= <- <-]. reflexivity.
Qed.

Lemma match_integer_before (s rest int_part r : str) :
  ends_number rest = true -> match_integer s = Some (int_part, r) ->
  match_integer (s ++ rest) = Some (int_part, r ++ rest).
Proof.
  intros Hrest. unfold match_integer.
  assert (forall sign s1,
            match s1 with
            | c :: t =>
                if c =? 48 then Some (sign ++ [48], t)
                else if is_digit c then
                  let (ds, r) := span_digits t in Some (sign ++ c :: ds, r)
                else None
            | [] => None
            end = Some (int_part, r) ->
            match s1 ++ rest with
            | c :: t =>
                if c =? 48 then Some (sign ++ [48], t)
                else if is_digit c then
                  let (ds, r) := span_digits t in Some (sign ++ c :: ds, r)
                else None
            | [] => None
            end = Some (int_part, r ++ rest)) as Hdigits.
  { intros sign [|c t]; [discriminate|]. cbn [app].
    destruct (c =? 48); [intros [= <- <-]; reflexivity|].
    destruct (is_digit c); [|discriminate].
    destruct (span_digits t) as [ds r'] eqn:E. intros [= <- <-].
    rewrite (span_digits_before t rest ds r' Hrest E). reflexivity. }
  destruct s as [|c t]; [discriminate|]. cbn [app].
  destruct (c =? 45).
  - apply (Hdigits [45] t).
  - apply (Hdigits [] (c :: t)).
Qed.

Lemma match_frac_before (s rest frac r : str) :
  ends_number rest = true -> match_frac s = (frac, r) ->
  match_frac (s ++ rest) = (frac, r ++ rest).
Proof.
  intros Hrest. destruct s as [|c t].
  - intros [= <- <-]. apply match_frac_end, Hrest.
  - cbn [match_frac app]. destruct (c =? 46); [|intros [= <- <-]; reflexivity].
    destruct (span_digits t) as [ds r'] eqn:E.
    rewrite (span_digits_before t rest ds r' Hrest E).
    destruct ds; intros [= <- <-]; reflexivity.
Qed.

Lemma match_exp_before (s rest exp : str) :
  ends_number rest = true -> match_exp s = (exp, []) ->
  match_exp (s ++ rest) = (exp, rest).
Proof.
  intros Hrest. destruct s as [|c t].
  - intros [= <-]. apply match_exp_end, Hrest.
  - cbn [match_exp app]. destruct ((c =? 101) || (c =? 69)); [|discriminate].
    assert (forall sg t',
              match span_digits t' with
              | ([], _) => ([], c :: t)
              | (ds, r) => (c :: sg ++ ds, r)
              end = (exp, []) ->
              match span_digits (t' ++ rest) with
              | ([], _) => ([], c :: t ++ rest)
              | (ds, r) => (c :: sg ++ ds, r)
              end = (exp, rest)) as Hdigits.
    { intros sg t'. destruct (span_digits t') as [ds r'] eqn:E.
      rewrite (span_digits_before t' rest ds r' Hrest E).
      destruct ds; [discriminate|]. intros [= <- ->]. reflexivity. }
    destruct t as [|d t1]; [discriminate|]. cbn [app].
    destruct ((d =? 45) || (d =? 43)).
    + apply (Hdigits [d] t1).
    + apply (Hdigits [] (d :: t1)).
Qed.

(** A literal the scanner reads whole is read the same before a text that
    ends a number. *)
Lemma match_number_before (lit rest int_part frac exp : str) :
  ends_number rest = true -> match_number lit = Some (int_part, frac, exp, []) ->
  match_number (lit ++ rest) = Some (int_part, frac, exp, rest).
Proof.
  intros Hrest. unfold match_number.
  destruct (match_integer lit) as [[i s2]|] eqn:Ei; [|discriminate].
  rewrite (match_integer_before lit rest i s2 Hrest Ei).
  destruct (match_frac s2) as [f s3] eqn:Ef.
  rewrite (match_frac_before s2 rest f s3 Hrest Ef).
  destruct (match_exp s3) as [e s4] eqn:Ee.
  intros [= <- <- <- ->].
  rewrite (match_exp_before s3 rest e Hrest Ee). reflexivity.
Qed.

(** The parts the scanners find make up the text they were found in. *)
Lemma span_digits_parts (s ds r : str) : span_digits s = (ds, r) -> s = ds ++ r.
Proof.
  revert ds r. induction s as [|c s IH]; intros ds r; cbn [span_digits].
  - intros [= <- <-]. reflexivity.
  - destruct (is_digit c); [|intros [= <- <-]; reflexivity].
    destruct (span_digits s) as [ds' r'] eqn:E. intros [= <- <-].
    rewrite (IH ds' r' eq_refl) at 1. reflexivity.
Qed.

Lemma match_number_parts (s int_part frac exp r : str) :
  match_number s = Some (int_part, frac, exp, r) -> s = int_part ++ frac ++ exp ++ r.
Proof.
  unfold match_number.
  destruct (match_integer s) as [[i s2]|] eqn:Ei; [|discriminate].
  destruct (match_frac s2) as [f s3] eqn:Ef.
  destruct (match_exp s3) as [e s4] eqn:Ee.
  intros [= <- <- <- <-].
  assert (s = i ++ s2) as ->.
  { clear Ef Ee. unfold match_integer in Ei.
    assert (forall sign s1,
              match s1 with
              | c :: t =>
                  if c =? 48 then Some (sign ++ [48], t)
                  else if is_digit c then
                    let (ds, r) := span_digits t in Some (sign ++ c :: ds, r)
                  else None
              | [] => None
              end = Some (i, s2) -> sign ++ s1 = i ++ s2) as Hdigits.
    { intros sign [|c t]; [discriminate|].
      destruct (N.eqb_spec c 48) as [->|_].
      - intros [= <- <-]. rewrite <- app_assoc. reflexivity.
      - destruct (is_digit c); [|discriminate].
        destruct (span_digits t) as [ds r'] eqn:E. intros [= <- <-].
        rewrite (span_digits_parts t ds r' E), <- app_assoc. reflexivity. }
    destruct s as [|c t]; [discriminate|].
    destruct (N.eqb_spec c 45) as [->|_].
    - apply (Hdigits [45] t), Ei.
    - apply (Hdigits [] (c :: t)), Ei. }
  f_equal.
  assert (s2 = f ++ s3) as ->.
  { clear Ei Ee. destruct s2 as [|c t]; [injection Ef as <- <-; reflexivity|].
    cbn [match_frac] in Ef. destruct (N.eqb_spec c 46) as [->|_].
    - destruct (span_digits t) as [ds r'] eqn:E.
      destruct ds; injection Ef as <- <-; [reflexivity|].
      rewrite (span_digits_parts t _ r' E). reflexivity.
    - injection Ef as <- <-. reflexivity. }
  f_equal.
  destruct s3 as [|c t]; [injection Ee as <- <-; reflexivity|].
  cbn [match_exp] in Ee. destruct ((c =? 101) || (c =? 69)).
  - assert (forall sg t',
              match span_digits t' with
              | ([], _) => ([], c :: t)
              | (ds, r) => (c :: sg ++ ds, r)
              end = (e, s4) -> sg ++ t' = t -> c :: t = e ++ s4) as Hdigits.
    { intros sg t'. destruct (span_digits t') as [ds r'] eqn:E.
      destruct ds; intros [= <- <-] <-; [reflexivity|].
      rewrite (span_digits_parts t' _ r' E). cbn [app]. rewrite <- app_assoc. reflexivity. }
    destruct t as [|d t1].
    + apply (Hdigits [] []); [exact Ee|reflexivity].
    + destruct ((d =? 45) || (d =? 43)).
      * apply (Hdigits [d] t1); [exact Ee|reflexivity].
      * apply (Hdigits [] (d :: t1)); [exact Ee|reflexivity].
  - injection Ee as <- <-. reflexivity.
Qed.

(** A number starts with a minus sign or a digit. *)
Lemma match_number_head (s int_part frac exp r : str) :
  match_number s = Some (int_part, frac, exp, r) ->
  exists c t, s = c :: t /\ ((c =? 45) || is_digit c) = true.
Proof.
  unfold match_number.
  destruct (match_integer s) as [[i s2]|] eqn:Ei; [|discriminate]. intros _.
  unfold match_integer in Ei. destruct s as [|c t]; [discriminate|].
  exists c, t. split; [reflexivity|].
  destruct (c =? 45); [reflexivity|]. cbn [orb].
  destruct (N.eqb_spec c 48) as [->|_]; [reflexivity|].
  destruct (is_digit c); [reflexivity|discriminate].
Qed.

Lemma int_of_literal_repr (z : Z) : int_of_literal (int_repr z) = z.
Proof.
  unfold int_repr. destruct (Z.ltb_spec z 0) as [Hneg|Hpos].
  - simpl. rewrite int_of_digits_digits. lia.
  - destruct (digits_shape (Z.abs_N z)) as (c & ds & E & Hc & _).
    pose proof (int_of_digits_digits (Z.abs_N z)) as Hv. rewrite E in *.
    apply is_digit_range in Hc. simpl.
    assert ((c =? 45) = false) as -> by (apply N.eqb_neq; lia).
    unfold int_of_digits in Hv. simpl in Hv. unfold int_of_digits. simpl.
    rewrite Hv. lia.
Qed.

(** **** Escapes *)

Lemma unhex_hex_digit (d : N) : d < 16 -> unhex (hex_digit d) = Some d.
Proof.
  intros Hd. unfold unhex, hex_digit.
  ncases; simpl; try lia; f_equal; lia.
Qed.

Lemma unhex4_hex4 (c : N) (t : str) :
  c < 65536 -> unhex4 (hex4 c ++ t) = Some (c, t).
Proof.
  intros Hc. unfold hex4, unhex4. cbn [app].
  rewrite !unhex_hex_digit by ediv_lia.
  f_equal. f_equal. ediv_lia.
Qed.

Lemma land_shifted_low (x y k : N) : y < 2 ^ k -> N.land (x * 2 ^ k) y = 0.
Proof.
  intros Hy. apply N.bits_inj. intros m.
  rewrite N.land_spec, N.bits_0.
  destruct (N.lt_ge_cases m k) as [Hm|Hm].
  - rewrite N.mul_pow2_bits_low by assumption. reflexivity.
  - destruct (N.eq_dec y 0) as [->|Hy0].
    + rewrite N.bits_0. apply andb_false_r.
    + rewrite (N.bits_above_log2 y m), andb_false_r; [reflexivity|].
      apply N.log2_lt_pow2; [lia|].
      eapply N.lt_le_trans; [exact Hy|]. apply N.pow_le_mono_r; lia.
Qed.

Lemma lor_shifted_low (x y k : N) : y < 2 ^ k -> N.lor (x * 2 ^ k) y = x * 2 ^ k + y.
Proof.
  intros Hy. pose proof (land_shifted_low x y k Hy) as H0.
  rewrite <- N.lxor_lor by assumption. symmetry. apply N.add_nocarry_lxor. assumption.
Qed.

Lemma land_1023 (x : N) : N.land x 1023 = x mod 1024.
Proof. change 1023 with (N.ones 10). rewrite N.land_ones. reflexivity. Qed.

Lemma lor_high (y : N) : y < 1024 -> N.lor 55296 y = 55296 + y.
Proof. intros H. exact (lor_shifted_low 54 y 10 H). Qed.

Lemma lor_low (y : N) : y < 1024 -> N.lor 56320 y = 56320 + y.
Proof. intros H. exact (lor_shifted_low 55 y 10 H). Qed.

Lemma lor_join (x y : N) : y < 1024 -> N.lor (N.shiftl x 10) y = x * 1024 + y.
Proof. intros H. rewrite N.shiftl_mul_pow2. exact (lor_shifted_low x y 10 H). Qed.

(** The two escapes of a code point above the basic plane. *)
Lemma surrogates_of (c : N) :
  65536 <= c < 1114112 ->
  let n := c - 65536 in
  let s1 := N.lor 55296 (N.land (N.shiftr n 10) 1023) in
  let s2 := N.lor 56320 (N.land n 1023) in
  s1 < 65536 /\ s2 < 65536
  /\ is_high_surrogate s1 = true /\ is_low_surrogate s2 = true
  /\ join_surrogates s1 s2 = c.
Proof.
  intros Hc n s1 s2.
  assert (n < 1048576) as Hn by (subst n; lia).
  assert (N.shiftr n 10 = n / 1024) as Hs by apply N.shiftr_div_pow2.
  assert (s1 = 55296 + n / 1024) as E1.
  { subst s1. rewrite land_1023, Hs, lor_high by ediv_lia. ediv_lia. }
  assert (s2 = 56320 + n mod 1024) as E2.
  { subst s2. rewrite land_1023, lor_low by ediv_lia. reflexivity. }
  repeat split.
  - rewrite E1. ediv_lia.
  - rewrite E2. ediv_lia.
  - unfold is_high_surrogate. rewrite E1. apply andb_true_intro.
    split; apply N.leb_le; ediv_lia.
  - unfold is_low_surrogate. rewrite E2. apply andb_true_intro.
    split; apply N.leb_le; ediv_lia.
  - unfold join_surrogates. rewrite !land_1023, lor_join by ediv_lia.
    rewrite E1, E2. subst n. ediv_lia.
Qed.

Lemma surrogate_ranges_disjoint (c : N) :
  is_high_surrogate c = true -> is_low_surrogate c = false.
Proof.
  unfold is_high_surrogate, is_low_surrogate. intros H.
  apply andb_true_iff in H as [_ H]. apply N.leb_le in H.
  apply andb_false_iff. left. apply N.leb_gt. lia.
Qed.

(** After the escape of a lone high surrogate the scanner looks for the
    escape of a low one; the encoding of a string that starts with
    anything else does not offer it. *)
Lemma no_low_surrogate_ahead {A} (s' rest : str) (X : A) (Y : N -> str -> A) (E : A) :
  match s' with d :: _ => is_low_surrogate d | [] => false end = false ->
  match strip_prefix [92; 117] (flat_map encode_char s' ++ 34 :: rest) with
  | None => X
  | Some t2' =>
      match unhex4 t2' with
      | None => E
      | Some (uni2, t3) => if is_low_surrogate uni2 then Y uni2 t3 else X
      end
  end = X.
Proof.
  intros Hlow. destruct s' as [|d s']; [reflexivity|].
  cbn [flat_map]. rewrite <- app_assoc.
  set (T := flat_map encode_char s' ++ 34 :: rest).
  unfold encode_char.
  destruct (N.eqb_spec d 34); [reflexivity|].
  destruct (N.eqb_spec d 92); [reflexivity|].
  destruct (N.eqb_spec d 10); [reflexivity|].
  destruct (N.eqb_spec d 13); [reflexivity|].
  destruct (N.eqb_spec d 9); [reflexivity|].
  destruct (N.eqb_spec d 12); [reflexivity|].
  destruct (N.eqb_spec d 8); [reflexivity|].
  destruct ((32 <=? d) && (d <=? 126)) eqn:Hp.
  - cbn [app strip_prefix].
    replace (92 =? d) with false by (symmetry; apply N.eqb_neq; congruence).
    reflexivity.
  - destruct (N.ltb_spec d 65536) as [Hd|Hd].
    + cbn [app strip_prefix]. rewrite !N.eqb_refl.
      rewrite unhex4_hex4 by assumption. rewrite Hlow. reflexivity.
    + cbn zeta. rewrite <- app_assoc. cbn [app strip_prefix]. rewrite !N.eqb_refl.
      destruct (N.lt_ge_cases d 1114112) as [Hd'|Hd'].
      * destruct (surrogates_of d (conj Hd Hd')) as (H1 & _ & Hhi & _).
        rewrite unhex4_hex4 by exact H1.
        rewrite (surrogate_ranges_disjoint _ Hhi). reflexivity.
      * (* not a code point: its first escape is still no low surrogate *)
        set (s1 := N.lor 55296 (N.land (N.shiftr (d - 65536) 10) 1023)).
        assert (s1 = 55296 + (d - 65536) / 1024 mod 1024) as E1.
        { subst s1. rewrite land_1023, N.shiftr_div_pow2, lor_high by ediv_lia.
          reflexivity. }
        rewrite unhex4_hex4 by (rewrite E1; ediv_lia).
        replace (is_low_surrogate s1) with false; [reflexivity|].
        symmetry. unfold is_low_surrogate. apply andb_false_iff. left.
        apply N.leb_gt. rewrite E1. ediv_lia.
Qed.

Lemma scanstring_encode (s : str) : forall (fuel : nat) (rest : str),
  str_ok s = true ->
  (length (flat_map encode_char s) < fuel)%nat ->
  scanstring_upto fuel (flat_map encode_char s ++ 34 :: rest) = JOk s rest.
Proof.
  induction s as [|c s' IH]; intros fuel rest Hok Hlen.
  - destruct fuel as [|f]; [simpl in Hlen; lia|]. reflexivity.
  - cbn [str_ok] in Hok.
    apply andb_true_iff in Hok as [Hok Hok'].
    apply andb_true_iff in Hok as [Hc Hpair].
    apply N.ltb_lt in Hc. apply negb_true_iff in Hpair.
    cbn [flat_map] in *. rewrite <- app_assoc. rewrite length_app in Hlen.
    set (T := flat_map encode_char s' ++ 34 :: rest).
    destruct fuel as [|f]; [lia|].
    assert (forall k, (length (encode_char c) = S k)%nat ->
              scanstring_upto f T = JOk s' rest) as IH'.
    { intros k Hk. apply IH; [assumption|lia]. }
    unfold encode_char in *.
    destruct (N.eqb_spec c 34) as [->|H34];
      [cbn; rewrite (IH' 1%nat eq_refl); reflexivity|].
    destruct (N.eqb_spec c 92) as [->|H92];
      [cbn; rewrite (IH' 1%nat eq_refl); reflexivity|].
    destruct (N.eqb_spec c 10) as [->|H10];
      [cbn; rewrite (IH' 1%nat eq_refl); reflexivity|].
    destruct (N.eqb_spec c 13) as [->|H13];
      [cbn; rewrite (IH' 1%nat eq_refl); reflexivity|].
    destruct (N.eqb_spec c 9) as [->|H9];
      [cbn; rewrite (IH' 1%nat eq_refl); reflexivity|].
    destruct (N.eqb_spec c 12) as [->|H12];
      [cbn; rewrite (IH' 1%nat eq_refl); reflexivity|].
    destruct (N.eqb_spec c 8) as [->|H8];
      [cbn; rewrite (IH' 1%nat eq_refl); reflexivity|].
    destruct ((32 <=? c) && (c <=? 126)) eqn:Hp.
    + apply andb_true_iff in Hp as [Hlo _]. apply N.leb_le in Hlo.
      cbn [app scanstring_upto].
      replace (c =? 34) with false by (symmetry; apply N.eqb_neq; assumption).
      replace (c =? 92) with false by (symmetry; apply N.eqb_neq; assumption).
      replace (c <? 32) with false by (symmetry; apply N.ltb_ge; assumption).
      rewrite (IH' 0%nat eq_refl). reflexivity.
    + destruct (N.ltb_spec c 65536) as [Hbmp|Hsup].
      * cbn [app scanstring_upto]. cbn [N.eqb Pos.eqb].
        rewrite unhex4_hex4 by assumption.
        rewrite (IH' 5%nat eq_refl). cbn [jmap].
        destruct (is_high_surrogate c) eqn:Hhi; [|reflexivity].
        cbn [andb] in Hpair.
        subst T. apply no_low_surrogate_ahead. assumption.
      * cbn zeta in *. rewrite <- app_assoc.
        destruct (surrogates_of c (conj Hsup Hc)) as (H1 & H2 & Hhi & Hlo & Hjoin).
        cbn [app scanstring_upto]. cbn [N.eqb Pos.eqb].
        rewrite unhex4_hex4 by exact H1. rewrite Hhi.
        cbn [strip_prefix]. rewrite !N.eqb_refl.
        rewrite unhex4_hex4 by exact H2. rewrite Hlo, Hjoin.
        rewrite (IH' 11%nat eq_refl). reflexivity.
Qed.

(** **** Values *)

(** Induction on a value, with the property at hand for every item of a
    list and every value of a dict. *)
Lemma pyval_nested_ind (P : pyval -> Prop)
  (HNone : P PNone) (HBool : forall b, P (PBool b)) (HInt : forall z, P (PInt z))
  (HFloat : forall lit, P (PFloat lit)) (HStr : forall s, P (PStr s))
  (HList : forall xs, Forall P xs -> P (PList xs))
  (HDict : forall kvs, Forall (fun kv => P (snd kv)) kvs -> P (PDict kvs)) :
  forall v, P v.
Proof.
  fix IH 1. intros [ | b | z | lit | s | xs | kvs].
  - exact HNone.
  - apply HBool.
  - apply HInt.
  - apply HFloat.
  - apply HStr.
  - apply HList. revert xs. fix IHxs 1. intros [|x xs]; constructor.
    + apply IH.
    + apply IHxs.
  - apply HDict. revert kvs. fix IHkvs 1. intros [|[k x] kvs]; constructor.
    + apply IH.
    + apply IHkvs.
Qed.

Lemma skip_ws_newline_indent (k : nat) (s : str) :
  skip_ws (newline_indent k ++ s) = skip_ws s.
Proof.
  unfold newline_indent. generalize (4 * k)%nat as n. intros n.
  change (skip_ws (repeat 32 n ++ s) = skip_ws s).
  induction n as [|n IH]; [reflexivity|]. exact IH.
Qed.

Lemma value_start_not_ws (c : N) : value_start c = true -> is_ws c = false.
Proof.
  unfold value_start, is_ws, is_digit. intros H.
  ncases; subst; try reflexivity; try discriminate; cbn in H; try discriminate; lia.
Qed.

Lemma skip_ws_value (c : N) (t : str) :
  value_start c = true -> skip_ws (c :: t) = c :: t.
Proof. intros H. cbn. rewrite (value_start_not_ws c H). reflexivity. Qed.

(** A float literal is an integer part, a fraction and an exponent, not
    both of them empty, and nothing more. *)
Lemma float_literal_parts (lit : str) :
  float_literal lit = true ->
  exists int_part frac exp,
    match_number lit = Some (int_part, frac, exp, [])
    /\ (frac <> [] \/ exp <> [])
    /\ lit = int_part ++ frac ++ exp.
Proof.
  unfold float_literal. destruct (match_number lit) as [[[[i f] e] r]|] eqn:Hm.
  - intros H. exists i, f, e.
    assert (r = [] /\ (f <> [] \/ e <> [])) as [-> Hfe].
    { destruct f, e, r; try discriminate; split; auto; try (left; discriminate);
        right; discriminate. }
    repeat split; [exact Hfe|].
    rewrite (match_number_parts lit i f e [] Hm), !app_nil_r. reflexivity.
  - discriminate.
Qed.

Lemma int_repr_head (z : Z) :
  exists c t, int_repr z = c :: t /\ ((c =? 45) || is_digit c) = true.
Proof.
  unfold int_repr. destruct (digits_shape (Z.abs_N z)) as (c & ds & E & Hc & _).
  rewrite E. destruct (z <? 0)%Z.
  - exists 45, (c :: ds). split; reflexivity.
  - exists c, ds. split; [reflexivity|]. rewrite Hc. apply orb_true_r.
Qed.

Lemma encode_head (v : pyval) (lvl : nat) :
  json_compatible v = true ->
  exists c t, encode lvl v = c :: t /\ value_start c = true.
Proof.
  assert (forall c, ((c =? 45) || is_digit c) = true -> value_start c = true) as Hnum.
  { intros c Hc. unfold value_start. apply orb_true_iff in Hc as [->| ->];
      rewrite ?orb_true_r; reflexivity. }
  destruct v as [ | [|] | z | lit | s | [|x xs] | [|kv kvs]]; cbn [json_compatible encode];
    intros H; try discriminate; try (eexists _, _; split; reflexivity).
  - destruct (int_repr_head z) as (c & t & -> & Hc).
    exists c, t. split; [reflexivity|]. apply Hnum, Hc.
  - destruct (float_literal_parts lit H) as (i & f & e & Hm & _ & _).
    destruct (match_number_head lit i f e [] Hm) as (c & t & -> & Hc).
    exists c, t. split; [reflexivity|]. apply Hnum, Hc.
Qed.

Lemma strip_prefix_head (a c : N) (p t : str) :
  (a =? c) = false -> strip_prefix (a :: p) (c :: t) = None.
Proof. intros H. cbn. rewrite H. reflexivity. Qed.

(** On a minus sign or a digit [scan_once] goes to the number. *)
Lemma scan_once_number (f : nat) (s : str) (int_part r : str) (c : N) (t : str) :
  s = c :: t -> ((c =? 45) || is_digit c) = true ->
  match_number s = Some (int_part, [], [], r) ->
  scan_once (S f) s = JOk (PInt (int_of_literal int_part)) r.
Proof.
  intros -> Hc Hm.
  assert (c = 45 \/ 48 <= c <= 57) as Hr.
  { apply orb_true_iff in Hc as [Hc|Hc]; [left; apply N.eqb_eq, Hc|].
    right. apply is_digit_range, Hc. }
  cbn [scan_once].
  replace (c =? 34) with false by (symmetry; apply N.eqb_neq; lia).
  replace (c =? 123) with false by (symmetry; apply N.eqb_neq; lia).
  replace (c =? 91) with false by (symmetry; apply N.eqb_neq; lia).
  change (u "null") with (110 :: u "ull").
  change (u "true") with (116 :: u "rue").
  change (u "false") with (102 :: u "alse").
  rewrite !strip_prefix_head by (apply N.eqb_neq; lia).
  rewrite Hm. reflexivity.
Qed.

(** With a fraction or an exponent the number is a float. *)
Lemma scan_once_float (f : nat) (s : str) (int_part frac exp r : str) (c : N) (t : str) :
  s = c :: t -> ((c =? 45) || is_digit c) = true ->
  match_number s = Some (int_part, frac, exp, r) ->
  frac <> [] \/ exp <> [] ->
  scan_once (S f) s = JOk (PFloat (int_part ++ frac ++ exp)) r.
Proof.
  intros -> Hc Hm Hfe.
  assert (c = 45 \/ 48 <= c <= 57) as Hr.
  { apply orb_true_iff in Hc as [Hc|Hc]; [left; apply N.eqb_eq, Hc|].
    right. apply is_digit_range, Hc. }
  cbn [scan_once].
  replace (c =? 34) with false by (symmetry; apply N.eqb_neq; lia).
  replace (c =? 123) with false by (symmetry; apply N.eqb_neq; lia).
  replace (c =? 91) with false by (symmetry; apply N.eqb_neq; lia).
  change (u "null") with (110 :: u "ull").
  change (u "true") with (116 :: u "rue").
  change (u "false") with (102 :: u "alse").
  rewrite !strip_prefix_head by (apply N.eqb_neq; lia).
  rewrite Hm. destruct frac, exp; try reflexivity.
  destruct Hfe as [Hfe|Hfe]; contradiction.
Qed.

Lemma ends_number_cons (c : N) (t : str) :
  (c = 44 \/ c = 10) -> ends_number (c :: t) = true.
Proof. intros [-> | ->]; reflexivity. Qed.

Lemma dict_set_fresh (k : str) (v : pyval) (d : list (str * pyval)) :
  k ∉ List.map fst d -> dict_set k v d = d ++ [(k, v)].
Proof.
  induction d as [|[k' v'] d IH]; intros Hk; [reflexivity|].
  cbn [dict_set]. cbn in Hk. apply not_elem_of_cons in Hk as [Hne Hk].
  destruct (decide (k = k')) as [?|_]; [contradiction|].
  rewrite IH by assumption. reflexivity.
Qed.

Lemma dict_of_pairs_NoDup (kvs : list (str * pyval)) :
  NoDup (List.map fst kvs) -> dict_of_pairs kvs = kvs.
Proof.
  unfold dict_of_pairs.
  enough (forall acc, NoDup (List.map fst (acc ++ kvs)) ->
            fold_left (fun d kv => dict_set (fst kv) (snd kv) d) kvs acc = acc ++ kvs) as H.
  { intros Hnd. apply (H [] Hnd). }
  induction kvs as [|[k v] kvs IH]; intros acc Hnd; cbn [fold_left].
  - rewrite app_nil_r. reflexivity.
  - cbn [fst snd]. rewrite dict_set_fresh.
    + rewrite IH; rewrite <- app_assoc; [reflexivity|exact Hnd].
    + rewrite map_app in Hnd. cbn in Hnd.
      apply NoDup_app in Hnd as (_ & Hdisj & _).
      intros Hin. apply (Hdisj k Hin). left.
Qed.

Lemma encode_container_tail (open close : N) (lvl : nat) (i : str) (items : list str) (rest : str) :
  encode_container open close lvl (i :: items) ++ rest
  = open :: newline_indent (S lvl) ++ i ++ items_tail close lvl items rest.
Proof.
  unfold encode_container, items_tail. cbn [app].
  rewrite <- !app_assoc. reflexivity.
Qed.

Lemma items_tail_ends_number (close : N) (lvl : nat) (items : list str) (rest : str) :
  ends_number (items_tail close lvl items rest) = true.
Proof. destruct items; reflexivity. Qed.

Lemma items_tail_nil (close : N) (lvl : nat) (rest : str) :
  is_ws close = false ->
  skip_ws (items_tail close lvl [] rest) = close :: rest.
Proof.
  intros H. unfold items_tail. cbn [flat_map app].
  rewrite skip_ws_newline_indent. cbn. rewrite H. reflexivity.
Qed.

Lemma items_tail_cons (close : N) (lvl : nat) (j : str) (items : list str) (rest : str) :
  items_tail close lvl (j :: items) rest
  = 44 :: newline_indent (S lvl) ++ j ++ items_tail close lvl items rest.
Proof.
  unfold items_tail. cbn [flat_map app]. rewrite <- !app_assoc. reflexivity.
Qed.

Lemma parse_items_encode (lvl : nat) (rest : str) (xs : list pyval) :
  forall (x : pyval) (f : nat),
  Forall reads_back (x :: xs) ->
  forallb json_compatible (x :: xs) = true ->
  (list_sum (List.map (fun y => S (need y)) (x :: xs)) <= f)%nat ->
  parse_items f (encode (S lvl) x
                 ++ items_tail 93 lvl (List.map (encode (S lvl)) xs) rest)
  = JOk (x :: xs) rest.
Proof.
  induction xs as [|y ys IH]; intros x f Hrb Hjc Hf;
    inversion Hrb as [|? ? Hx Hrb']; subst;
    cbn [forallb] in Hjc; apply andb_true_iff in Hjc as [Hjx Hjc];
    cbn [List.map list_sum fold_right] in Hf;
    (destruct f as [|f]; [lia|]); cbn [parse_items];
    rewrite (Hx Hjx) by (try apply items_tail_ends_number; lia).
  - cbn [List.map]. rewrite items_tail_nil by reflexivity.
    rewrite N.eqb_refl. reflexivity.
  - cbn [List.map]. rewrite items_tail_cons. cbn [skip_ws is_ws N.eqb Pos.eqb orb].
    rewrite skip_ws_newline_indent.
    cbn [forallb] in Hjc. pose proof Hjc as Hjy. apply andb_true_iff in Hjy as [Hjy _].
    destruct (encode_head y (S lvl) Hjy) as (c & t & E & Hc).
    rewrite E. cbn [app]. rewrite skip_ws_value by assumption.
    change (c :: t ++ ?r) with ((c :: t) ++ r). rewrite <- E.
    rewrite (IH y f Hrb' Hjc) by (cbn [List.map list_sum fold_right] in *; lia).
    reflexivity.
Qed.

Lemma member_item (lvl : nat) (kv : str * pyval) :
  encode_str (fst kv) ++ [58; 32] ++ encode (S lvl) (snd kv) = 34 :: member_text lvl kv.
Proof.
  unfold encode_str, member_text. cbn [app]. rewrite <- app_assoc. reflexivity.
Qed.

Lemma member_item_cons (lvl : nat) (kv : str * pyval) :
  encode_str (fst kv) ++ 58 :: 32 :: encode (S lvl) (snd kv) = 34 :: member_text lvl kv.
Proof. apply member_item. Qed.

Lemma scanstring_key (k : str) (rest : str) :
  str_ok k = true ->
  scanstring (flat_map encode_char k ++ 34 :: rest) = JOk k rest.
Proof.
  intros Hk. unfold scanstring. apply scanstring_encode; [assumption|].
  rewrite length_app. cbn [length]. lia.
Qed.

Lemma parse_members_encode (lvl : nat) (rest : str) (kvs : list (str * pyval)) :
  forall (kv : str * pyval) (f : nat),
  Forall (fun kv => reads_back (snd kv)) (kv :: kvs) ->
  forallb (fun kv => str_ok (fst kv) && json_compatible (snd kv)) (kv :: kvs) = true ->
  (list_sum (List.map (fun kv => S (need (snd kv))) (kv :: kvs)) <= f)%nat ->
  parse_members f
    (member_text lvl kv
     ++ items_tail 125 lvl
          (List.map (fun kv => encode_str (fst kv) ++ [58; 32] ++ encode (S lvl) (snd kv)) kvs)
          rest)
  = JOk (kv :: kvs) rest.
Proof.
  set (item := fun kv : str * pyval =>
                 encode_str (fst kv) ++ [58; 32] ++ encode (S lvl) (snd kv)).
  induction kvs as [|kv' kvs IH]; intros [k x] f Hrb Hjc Hf;
    inversion Hrb as [|? ? Hx Hrb']; subst;
    cbn [forallb fst snd] in Hjc; apply andb_true_iff in Hjc as [Hjx Hjc];
    apply andb_true_iff in Hjx as [Hk Hjx];
    cbn [List.map list_sum fold_right snd] in Hf;
    (destruct f as [|f]; [lia|]); cbn [parse_members];
    unfold member_text at 1; cbn [fst snd]; rewrite <- app_assoc; cbn [app];
    rewrite scanstring_key by assumption;
    cbn [skip_ws is_ws N.eqb Pos.eqb orb];
    destruct (encode_head x (S lvl) Hjx) as (c & t & E & Hc);
    rewrite E; cbn [app]; rewrite skip_ws_value by assumption;
    change (c :: t ++ ?r) with ((c :: t) ++ r); rewrite <- E;
    cbn [snd] in Hx;
    rewrite (Hx Hjx) by (try apply items_tail_ends_number; lia).
  - cbn [List.map]. rewrite items_tail_nil by reflexivity.
    rewrite N.eqb_refl. reflexivity.
  - cbn [List.map]. rewrite items_tail_cons. cbn [skip_ws is_ws N.eqb Pos.eqb orb].
    rewrite skip_ws_newline_indent.
    replace (item kv') with (34 :: member_text lvl kv')
      by (symmetry; apply member_item).
    cbn [app skip_ws is_ws N.eqb Pos.eqb orb].
    rewrite (IH kv' f Hrb' Hjc) by (cbn [List.map list_sum fold_right] in *; lia).
    reflexivity.
Qed.

(** Every JSON-compatible value is read back from its encoding. *)
Lemma scan_once_encode (v : pyval) : reads_back v.
Proof.
  induction v as [ | b | z | lit | s | xs IH | kvs IH] using pyval_nested_ind;
    intros Hjc lvl fuel rest Hfuel Hrest;
    (destruct fuel as [|f]; [cbn in Hfuel; lia|]).
  - reflexivity.
  - destruct b; reflexivity.
  - cbn [encode]. destruct (int_repr_head z) as (c & t & E & Hc).
    rewrite (scan_once_number f (int_repr z ++ rest) (int_repr z) rest c (t ++ rest)).
    + rewrite int_of_literal_repr. reflexivity.
    + rewrite E. reflexivity.
    + assumption.
    + apply match_number_repr. assumption.
  - cbn [encode json_compatible] in *.
    destruct (float_literal_parts lit Hjc) as (i & fr & e & Hm & Hfe & Hlit).
    destruct (match_number_head lit i fr e [] Hm) as (c & t & E & Hc).
    rewrite (scan_once_float f (lit ++ rest) i fr e rest c (t ++ rest)).
    + rewrite <- Hlit. reflexivity.
    + rewrite E. reflexivity.
    + assumption.
    + apply match_number_before; assumption.
    + assumption.
  - cbn [encode json_compatible] in *. unfold encode_str.
    cbn [app scan_once N.eqb Pos.eqb]. rewrite <- app_assoc. cbn [app].
    rewrite scanstring_key by assumption. reflexivity.
  - cbn [encode json_compatible need] in *. destruct xs as [|x xs]; [reflexivity|].
    cbn [List.map]. rewrite encode_container_tail.
    cbn [scan_once N.eqb Pos.eqb]. rewrite skip_ws_newline_indent.
    pose proof Hjc as Hjx. cbn [forallb] in Hjx. apply andb_true_iff in Hjx as [Hjx _].
    destruct (encode_head x (S lvl) Hjx) as (c & t & E & Hc).
    rewrite E. cbn [app]. rewrite skip_ws_value by assumption.
    replace (c =? 93) with false.
    2:{ symmetry. apply N.eqb_neq. intros ->. discriminate. }
    change (c :: t ++ ?r) with ((c :: t) ++ r). rewrite <- E.
    rewrite parse_items_encode by (try assumption; lia).
    reflexivity.
  - cbn [encode json_compatible need] in *. destruct kvs as [|kv kvs]; [reflexivity|].
    apply andb_true_iff in Hjc as [Hjc Hnd]. apply bool_decide_eq_true in Hnd.
    cbn [List.map]. rewrite encode_container_tail, member_item.
    set (item := fun kv : str * pyval =>
                   encode_str (fst kv) ++ [58; 32] ++ encode (S lvl) (snd kv)).
    cbn [scan_once N.eqb Pos.eqb]. rewrite skip_ws_newline_indent.
    cbn [app skip_ws is_ws N.eqb Pos.eqb orb]. subst item.
    rewrite parse_members_encode by (try assumption; lia).
    cbn [jmap]. rewrite dict_of_pairs_NoDup by assumption. reflexivity.
Qed.

(** **** Fuel *)

Lemma length_items_tail (lvl : nat) (items : list str) :
  (list_sum (List.map (@length N) items)
   <= length (flat_map (fun j => 44%N :: newline_indent (S lvl) ++ j) items))%nat.
Proof.
  induction items as [|j items IH]; [cbn; lia|].
  cbn [flat_map List.map list_sum fold_right]. rewrite !length_app.
  cbn [length]. rewrite length_app. unfold list_sum in IH. lia.
Qed.

Lemma length_encode_container (open close : N) (lvl : nat) (items : list str) :
  (2 + list_sum (List.map (@length N) items)
   <= length (encode_container open close lvl items))%nat.
Proof.
  destruct items as [|i items]; [cbn; lia|].
  unfold encode_container. cbn [List.map list_sum fold_right length].
  rewrite !length_app. cbn [length].
  pose proof (length_items_tail lvl items) as H. unfold list_sum in H. lia.
Qed.

Lemma need_bound (v : pyval) :
  json_compatible v = true -> forall lvl, (S (need v) <= 2 * length (encode lvl v))%nat.
Proof.
  induction v as [ | b | z | lit | s | xs IH | kvs IH] using pyval_nested_ind;
    intros Hjc lvl.
  - cbn. lia.
  - destruct b; cbn; lia.
  - destruct (int_repr_head z) as (c & t & E & _). cbn [encode need]. rewrite E.
    cbn [length]. lia.
  - cbn [json_compatible] in Hjc.
    destruct (float_literal_parts lit Hjc) as (i & fr & e & Hm & _ & _).
    destruct (match_number_head lit i fr e [] Hm) as (c & t & -> & _).
    cbn [encode need length]. lia.
  - cbn [encode need]. unfold encode_str. cbn [length]. lia.
  - cbn [encode need json_compatible] in *.
    pose proof (length_encode_container 91 93 lvl (List.map (encode (S lvl)) xs)) as Hlen.
    enough (list_sum (List.map (fun x => S (need x)) xs)
            <= 2 * list_sum (List.map (@length N) (List.map (encode (S lvl)) xs)))%nat by lia.
    clear Hlen. induction IH as [|x xs Hx _ IHxs]; [cbn; lia|].
    cbn [forallb] in Hjc. apply andb_true_iff in Hjc as [Hjx Hjc].
    specialize (IHxs Hjc). specialize (Hx Hjx (S lvl)).
    cbn [List.map list_sum fold_right]. unfold list_sum in IHxs. lia.
  - cbn [encode need json_compatible] in *.
    apply andb_true_iff in Hjc as [Hjc _].
    set (item := fun kv : str * pyval =>
                   encode_str (fst kv) ++ [58; 32] ++ encode (S lvl) (snd kv)).
    pose proof (length_encode_container 123 125 lvl (List.map item kvs)) as Hlen.
    enough (list_sum (List.map (fun kv => S (need (snd kv))) kvs)
            <= 2 * list_sum (List.map (@length N) (List.map item kvs)))%nat by lia.
    clear Hlen. induction IH as [|kv kvs Hx _ IHkvs]; [cbn; lia|].
    cbn [forallb] in Hjc. apply andb_true_iff in Hjc as [Hjx Hjc].
    apply andb_true_iff in Hjx as [_ Hjx].
    specialize (IHkvs Hjc). specialize (Hx Hjx (S lvl)).
    cbn [List.map list_sum fold_right]. unfold list_sum in IHkvs.
    assert (length (encode (S lvl) (snd kv)) <= length (item kv))%nat.
    { unfold item. rewrite !length_app. lia. }
    lia.
Qed.

(** [json.loads] reads back what [json.dumps(..., indent=4)] wrote. *)
Lemma loads_dumps (v : pyval) :
  json_compatible v = true -> loads (dumps v) = Return v.
Proof.
  intros Hjc. unfold loads, dumps.
  destruct (encode_head v 0 Hjc) as (c & t & E & Hc).
  pose proof (need_bound v Hjc 0%nat) as Hneed.
  pose proof (scan_once_encode v Hjc 0%nat (2 * length (encode 0 v) + 2)%nat []) as Hscan.
  rewrite app_nil_r in Hscan.
  rewrite E in *.
  replace (c =? 65279) with false.
  2:{ symmetry. apply N.eqb_neq. intros ->. discriminate. }
  rewrite skip_ws_value by assumption.
  rewrite Hscan by (try reflexivity; lia). reflexivity.
Qed.

End json_facts.

(** ** The calendar: ordinals and dates *)

Ltac zdiv_lia := Z.div_mod_to_equations; lia.

Lemma days_before_year_split (y : Z) :
  let Y := y - 1 in
  days_before_year y
  = 146097 * (Y / 400) + 36524 * (Y mod 400 / 100) + 1461 * (Y mod 100 / 4) + 365 * (Y mod 4).
Proof. unfold days_before_year. cbv zeta. zdiv_lia. Qed.

Lemma is_leap_split (y : Z) :
  let Y := y - 1 in
  is_leap y = ((Y mod 4 =? 3) && (negb (Y mod 100 / 4 =? 24) || (Y mod 400 / 100 =? 3))).
Proof.
  cbv zeta. unfold is_leap.
  repeat match goal with |- context [Z.eqb ?a ?b] => destruct (Z.eqb_spec a b) end;
  cbn; try reflexivity; exfalso; zdiv_lia.
Qed.

(** [ord2ymd] on an ordinal split into cycles of 400, 100, 4 and 1 years
    and the day of the year [r] (from zero). *)
Lemma ord2ymd_split (a b c e r : Z) :
  0 <= b <= 3 -> 0 <= c <= 24 -> 0 <= e <= 3 -> 0 <= r ->
  let leap := (e =? 3) && (negb (c =? 24) || (b =? 3)) in
  r <= (if leap then 365 else 364) ->
  ord2ymd (146097 * a + 36524 * b + 1461 * c + 365 * e + r + 1)
  = if r =? 365 then (400 * a + 100 * b + 4 * c + e + 1, 12, 31)
    else let (m, d) := month_day r leap in (400 * a + 100 * b + 4 * c + e + 1, m, d).
Proof.
  intros Hb Hc He Hr leap Hmax.
  unfold ord2ymd, DI400Y, DI100Y, DI4Y. cbv zeta.
  replace (146097 * a + 36524 * b + 1461 * c + 365 * e + r + 1 - 1)
    with (146097 * a + (36524 * b + 1461 * c + 365 * e + r)) by ring.
  set (n := 36524 * b + 1461 * c + 365 * e + r).
  assert (0 <= n < 146097) as Hn.
  { subst n leap. destruct (Z.eqb_spec e 3), (Z.eqb_spec c 24), (Z.eqb_spec b 3);
      cbn in Hmax; lia. }
  assert ((146097 * a + n) / 146097 = a) as -> by zdiv_lia.
  assert ((146097 * a + n) mod 146097 = n) as -> by zdiv_lia.
  destruct (Z.eqb_spec r 365) as [->|Hr365].
  - (* the last day of a leap year *)
    assert (e = 3 /\ (c <> 24 \/ b = 3)) as (-> & Hcb).
    { subst leap. destruct (Z.eqb_spec e 3), (Z.eqb_spec c 24), (Z.eqb_spec b 3);
        cbn in Hmax; lia. }
    destruct (Z.eq_dec c 24) as [->|Hc24].
    + assert (b = 3) as -> by lia.
      assert (n = 146096) as -> by (subst n; reflexivity).
      change (146096 / 36524) with 4. change (146096 mod 36524) with 0.
      change (0 / 1461) with 0. change (0 mod 1461) with 0.
      change (0 / 365) with 0. cbn [Z.eqb Pos.eqb orb].
      f_equal. f_equal. lia.
    + assert (n / 36524 = b) as -> by (subst n; zdiv_lia).
      assert (n mod 36524 = 1461 * c + 1460) as -> by (subst n; zdiv_lia).
      assert ((1461 * c + 1460) / 1461 = c) as -> by zdiv_lia.
      assert ((1461 * c + 1460) mod 1461 = 1460) as -> by zdiv_lia.
      change (1460 / 365) with 4. cbn [Z.eqb Pos.eqb orb].
      f_equal. f_equal. lia.
  - assert (r <= 364) as Hr364 by (destruct leap; lia).
    assert (1461 * c + 365 * e + r < 36524) as Hlt.
    { subst leap. destruct (Z.eqb_spec e 3), (Z.eqb_spec c 24), (Z.eqb_spec b 3);
        cbn in Hmax; lia. }
    assert (n / 36524 = b) as -> by (subst n; zdiv_lia).
    assert (n mod 36524 = 1461 * c + (365 * e + r)) as -> by (subst n; zdiv_lia).
    assert ((1461 * c + (365 * e + r)) / 1461 = c) as -> by zdiv_lia.
    assert ((1461 * c + (365 * e + r)) mod 1461 = 365 * e + r) as -> by zdiv_lia.
    assert ((365 * e + r) / 365 = e) as -> by zdiv_lia.
    assert ((365 * e + r) mod 365 = r) as -> by zdiv_lia.
    replace (e =? 4) with false by (symmetry; apply Z.eqb_neq; lia).
    replace (b =? 4) with false by (symmetry; apply Z.eqb_neq; lia).
    cbn [orb]. fold leap. destruct (month_day r leap) as [m d].
    f_equal. f_equal. lia.
Qed.

Lemma month_cases (m : Z) :
  1 <= m <= 12 ->
  m = 1 \/ m = 2 \/ m = 3 \/ m = 4 \/ m = 5 \/ m = 6
  \/ m = 7 \/ m = 8 \/ m = 9 \/ m = 10 \/ m = 11 \/ m = 12.
Proof. lia. Qed.

(** Look a month up in the tables. *)
Ltac tables :=
  cbv [nth Z.to_nat Pos.to_nat Pos.iter_op Init.Nat.add DAYS_IN_MONTH DAYS_BEFORE_MONTH
       Z.eqb Z.ltb Z.compare Pos.eqb Pos.compare Pos.compare_cont andb] in *.

(** Compute the sums and differences of numerals. *)
Ltac znorm :=
  repeat match goal with
  | |- context [Z.add (Zpos ?a) (Zpos ?b)] =>
      let v := eval vm_compute in (Z.add (Zpos a) (Zpos b)) in
      change (Z.add (Zpos a) (Zpos b)) with v
  | |- context [Z.sub (Zpos ?a) (Zpos ?b)] =>
      let v := eval vm_compute in (Z.sub (Zpos a) (Zpos b)) in
      change (Z.sub (Zpos a) (Zpos b)) with v
  end.

(** Every month in turn. *)
Ltac each_month m H :=
  destruct (month_cases m H) as [?|[?|[?|[?|[?|[?|[?|[?|[?|[?|[?|?]]]]]]]]]]]; subst m.

Lemma in_Z_range (lo len x : Z) :
  lo <= x < lo + len ->
  In x (List.map (fun i => lo + Z.of_nat i) (seq 0 (Z.to_nat len))).
Proof.
  intros H. apply in_map_iff. exists (Z.to_nat (x - lo)). split; [lia|].
  apply in_seq. lia.
Qed.

(** [month_day] inverts the count of days before a month, in every month
    of a common year and of a leap year: checked on the 744 cases. *)
Lemma month_day_spec (y m d : Z) :
  1 <= m <= 12 -> 1 <= d <= days_in_month y m ->
  month_day (days_before_month y m + d - 1) (is_leap y) = (m, d).
Proof.
  intros Hm Hd. unfold days_in_month, days_before_month in *.
  generalize dependent (is_leap y). intros leap Hd.
  assert (forallb (fun leap =>
            forallb (fun m =>
              forallb (fun d =>
                let dim := if (m =? 2) && leap then 29
                           else nth (Z.to_nat m) DAYS_IN_MONTH (-1) in
                let dbm := nth (Z.to_nat m) DAYS_BEFORE_MONTH (-1)
                           + (if (2 <? m) && leap then 1 else 0) in
                negb (d <=? dim)
                || bool_decide (month_day (dbm + d - 1) leap = (m, d)))
              (List.map (fun i => 1 + Z.of_nat i) (seq 0 (Z.to_nat 31))))
            (List.map (fun i => 1 + Z.of_nat i) (seq 0 (Z.to_nat 12))))
          [true; false] = true) as Hall by (vm_compute; reflexivity).
  rewrite forallb_forall in Hall.
  assert (In leap [true; false]) as Hleap by (destruct leap; cbn; auto).
  specialize (Hall leap Hleap). rewrite forallb_forall in Hall.
  specialize (Hall m (in_Z_range 1 12 m ltac:(lia))). rewrite forallb_forall in Hall.
  assert (d <= 31) as Hd31.
  { destruct ((m =? 2) && leap); [lia|]. each_month m Hm; tables; lia. }
  specialize (Hall d (in_Z_range 1 31 d ltac:(lia))). cbv zeta in Hall.
  apply orb_true_iff in Hall as [Hall|Hall].
  - apply negb_true_iff, Z.leb_gt in Hall. lia.
  - apply bool_decide_eq_true in Hall. exact Hall.
Qed.

Lemma valid_date_bounds (y m d : Z) :
  valid_date y m d = true ->
  1 <= y <= 9999 /\ 1 <= m <= 12 /\ 1 <= d <= days_in_month y m.
Proof.
  unfold valid_date, MINYEAR, MAXYEAR. rewrite !andb_true_iff, !Z.leb_le. tauto.
Qed.

(** The date of the ordinal of a date is the date. *)
Lemma ord2ymd_ymd2ord (y m d : Z) :
  1 <= m <= 12 -> 1 <= d <= days_in_month y m ->
  ord2ymd (ymd2ord y m d) = (y, m, d).
Proof.
  intros Hm Hd. unfold ymd2ord.
  pose proof (days_before_year_split y) as Hy. cbv zeta in Hy. rewrite Hy.
  pose proof (is_leap_split y) as Hleap. cbv zeta in Hleap.
  set (a := (y - 1) / 400) in *. set (b := (y - 1) mod 400 / 100) in *.
  set (c := (y - 1) mod 100 / 4) in *. set (e := (y - 1) mod 4) in *.
  assert (y = 400 * a + 100 * b + 4 * c + e + 1) as Hyear by (subst a b c e; zdiv_lia).
  assert (0 <= b <= 3) as Hb by (subst b; zdiv_lia).
  assert (0 <= c <= 24) as Hc by (subst c; zdiv_lia).
  assert (0 <= e <= 3) as He by (subst e; zdiv_lia).
  set (r := days_before_month y m + d - 1).
  assert (0 <= r /\ r <= (if is_leap y then 365 else 364)
          /\ (r = 365 -> m = 12 /\ d = 31)) as (Hr0 & Hrmax & Hr365).
  { subst r. unfold days_before_month, days_in_month in *.
    destruct (is_leap y); each_month m Hm; tables; lia. }
  replace (146097 * a + 36524 * b + 1461 * c + 365 * e + days_before_month y m + d)
    with (146097 * a + 36524 * b + 1461 * c + 365 * e + r + 1) by (subst r; ring).
  rewrite ord2ymd_split; try assumption; [|rewrite <- Hleap; exact Hrmax].
  rewrite <- Hleap, <- Hyear.
  destruct (Z.eqb_spec r 365) as [E|_].
  - destruct (Hr365 E) as [-> ->]. reflexivity.
  - subst r. rewrite month_day_spec by assumption. reflexivity.
Qed.

Lemma days_before_year_succ (y : Z) :
  days_before_year (y + 1) = days_before_year y + (if is_leap y then 366 else 365).
Proof.
  unfold days_before_year, is_leap. cbv zeta.
  repeat match goal with |- context [Z.eqb ?a ?b] => destruct (Z.eqb_spec a b) end;
    cbn [negb andb orb]; zdiv_lia.
Qed.

Lemma days_in_month_bounds (y m : Z) : 1 <= m <= 12 -> 28 <= days_in_month y m <= 31.
Proof.
  intros Hm. unfold days_in_month. destruct (is_leap y); each_month m Hm; tables; lia.
Qed.

(** The day after a date has the next ordinal. *)
Lemma next_day_ordinal (ymd : Z * Z * Z) :
  valid_md ymd ->
  valid_md (next_day ymd) /\ ordinal_of (next_day ymd) = ordinal_of ymd + 1.
Proof.
  destruct ymd as [[y m] d]. intros [Hm Hd].
  unfold next_day, valid_md, ordinal_of, ymd2ord.
  destruct (Z.ltb_spec d (days_in_month y m)) as [Hlt|Hge].
  - split; [split; lia|lia].
  - assert (d = days_in_month y m) as -> by lia.
    destruct (Z.ltb_spec m 12) as [Hm12|Hm12].
    + pose proof (days_in_month_bounds y (m + 1) ltac:(lia)).
      split; [split; lia|].
      unfold days_before_month, days_in_month.
      destruct (is_leap y); each_month m Hm; try lia; znorm; tables; lia.
    + assert (m = 12) as -> by lia.
      pose proof (days_in_month_bounds (y + 1) 1 ltac:(lia)).
      split; [split; lia|].
      rewrite days_before_year_succ.
      unfold days_before_month, days_in_month.
      destruct (is_leap y), (is_leap (y + 1)); tables; lia.
Qed.

Lemma days_before_year_pred (y : Z) :
  days_before_year y = days_before_year (y - 1) + (if is_leap (y - 1) then 366 else 365).
Proof.
  pose proof (days_before_year_succ (y - 1)) as H.
  replace (y - 1 + 1) with y in H by ring. exact H.
Qed.

(** The day before a date has the previous ordinal. *)
Lemma prev_day_ordinal (ymd : Z * Z * Z) :
  valid_md ymd ->
  valid_md (prev_day ymd) /\ ordinal_of (prev_day ymd) = ordinal_of ymd - 1.
Proof.
  destruct ymd as [[y m] d]. intros [Hm Hd].
  unfold prev_day, valid_md, ordinal_of, ymd2ord.
  destruct (Z.ltb_spec 1 d) as [Hlt|Hge].
  - split; [split; lia|lia].
  - assert (d = 1) as -> by lia.
    destruct (Z.ltb_spec 1 m) as [Hm1|Hm1].
    + pose proof (days_in_month_bounds y (m - 1) ltac:(lia)).
      split; [split; lia|].
      unfold days_before_month, days_in_month.
      destruct (is_leap y); each_month m Hm; try lia; znorm; tables; lia.
    + assert (m = 1) as -> by lia.
      split; [split; [lia|]|].
      * unfold days_in_month. destruct (is_leap (y - 1)); tables; lia.
      * rewrite (days_before_year_pred y).
        unfold days_before_month.
        destruct (is_leap y), (is_leap (y - 1)); tables; lia.
Qed.

Lemma iter_next_day (n : nat) (ymd : Z * Z * Z) :
  valid_md ymd ->
  valid_md (Nat.iter n next_day ymd)
  /\ ordinal_of (Nat.iter n next_day ymd) = ordinal_of ymd + Z.of_nat n.
Proof.
  intros Hv. induction n as [|n [IHv IHo]]; [split; [assumption|cbn; lia]|].
  change (Nat.iter (S n) next_day ymd) with (next_day (Nat.iter n next_day ymd)).
  destruct (next_day_ordinal _ IHv) as [Hv' Ho']. split; [assumption|lia].
Qed.

Lemma iter_prev_day (n : nat) (ymd : Z * Z * Z) :
  valid_md ymd ->
  valid_md (Nat.iter n prev_day ymd)
  /\ ordinal_of (Nat.iter n prev_day ymd) = ordinal_of ymd - Z.of_nat n.
Proof.
  intros Hv. induction n as [|n [IHv IHo]]; [split; [assumption|cbn; lia]|].
  change (Nat.iter (S n) prev_day ymd) with (prev_day (Nat.iter n prev_day ymd)).
  destruct (prev_day_ordinal _ IHv) as [Hv' Ho']. split; [assumption|lia].
Qed.

Lemma shift_days_ordinal (ymd : Z * Z * Z) (n : Z) :
  valid_md ymd ->
  valid_md (shift_days ymd n) /\ ordinal_of (shift_days ymd n) = ordinal_of ymd + n.
Proof.
  intros Hv. unfold shift_days. destruct (Z.leb_spec 0 n) as [Hn|Hn].
  - destruct (iter_next_day (Z.to_nat n) ymd Hv) as [Hv' Ho]. split; [assumption|lia].
  - destruct (iter_prev_day (Z.to_nat (- n)) ymd Hv) as [Hv' Ho]. split; [assumption|lia].
Qed.

(** Moving the ordinal by [n] is moving the date by [n] days, one at a
    time. *)
Lemma ord2ymd_shift (ymd : Z * Z * Z) (n : Z) :
  valid_md ymd -> ord2ymd (ordinal_of ymd + n) = shift_days ymd n.
Proof.
  intros Hv. destruct (shift_days_ordinal ymd n Hv) as [Hv' Ho].
  rewrite <- Ho. destruct (shift_days ymd n) as [[y m] d].
  destruct Hv' as [Hm Hd]. apply ord2ymd_ymd2ord; assumption.
Qed.

Lemma days_before_month_bounds (y m : Z) :
  1 <= m <= 12 -> 0 <= days_before_month y m <= 335.
Proof.
  intros Hm. unfold days_before_month. destruct (is_leap y); each_month m Hm; tables; lia.
Qed.

(** The ordinals from 1 to [MAXORDINAL] are those of the years 1 to
    9999. *)
Lemma ordinal_year_range (y m d : Z) :
  1 <= m <= 12 -> 1 <= d <= days_in_month y m ->
  (0 < ymd2ord y m d <= MAXORDINAL <-> 1 <= y <= 9999).
Proof.
  intros Hm Hd. unfold ymd2ord, MAXORDINAL.
  pose proof (days_before_month_bounds y m Hm) as Hb.
  pose proof (days_in_month_bounds y m Hm) as Hdim.
  assert (days_before_month y m + d <= 365 + (if is_leap y then 1 else 0)) as Hdoy.
  { unfold days_before_month, days_in_month in *.
    destruct (is_leap y); each_month m Hm; tables; lia. }
  pose proof (days_before_year_succ y) as Hsucc.
  unfold days_before_year in *. split; intros H.
  - destruct (is_leap y); zdiv_lia.
  - destruct (is_leap y); zdiv_lia.
Qed.

Lemma valid_date_md (y m d : Z) :
  valid_date y m d = true <-> 1 <= y <= 9999 /\ valid_md (y, m, d).
Proof.
  unfold valid_date, valid_md, MINYEAR, MAXYEAR.
  rewrite !andb_true_iff, !Z.leb_le. tauto.
Qed.

(** **** Formatting *)

Lemma zero_pad_2 (n : Z) :
  0 <= n <= 99 ->
  zero_pad 2 n = [Z.to_N (48 + n / 10); Z.to_N (48 + n mod 10)].
Proof.
  intros Hn.
  assert (forallb (fun n => bool_decide
            (zero_pad 2 n = [Z.to_N (48 + n / 10); Z.to_N (48 + n mod 10)]))
          (List.map (fun i => 0 + Z.of_nat i) (seq 0 (Z.to_nat 100))) = true) as Hall
    by (vm_compute; reflexivity).
  rewrite forallb_forall in Hall.
  specialize (Hall n (in_Z_range 0 100 n ltac:(lia))).
  apply bool_decide_eq_true in Hall. exact Hall.
Qed.

Lemma zero_pad_4 (n : Z) :
  0 <= n <= 9999 ->
  zero_pad 4 n = [Z.to_N (48 + n / 1000); Z.to_N (48 + n / 100 mod 10);
                  Z.to_N (48 + n / 10 mod 10); Z.to_N (48 + n mod 10)].
Proof.
  intros Hn.
  assert (forallb (fun n => bool_decide
            (zero_pad 4 n = [Z.to_N (48 + n / 1000); Z.to_N (48 + n / 100 mod 10);
                             Z.to_N (48 + n / 10 mod 10); Z.to_N (48 + n mod 10)]))
          (List.map (fun i => 0 + Z.of_nat i) (seq 0 (Z.to_nat 10000))) = true) as Hall
    by (vm_compute; reflexivity).
  rewrite forallb_forall in Hall.
  specialize (Hall n (in_Z_range 0 10000 n ltac:(lia))).
  apply bool_decide_eq_true in Hall. exact Hall.
Qed.

Lemma is_digit_of_Z (k : Z) : 0 <= k <= 9 -> is_digit (Z.to_N (48 + k)) = true.
Proof. intros Hk. apply is_digit_range. lia. Qed.

(** A date of the years 1 to 9999 is written [YYYY-MM-DD]. *)
Lemma isoformat_date_shape (y m d : Z) :
  1 <= y <= 9999 -> 1 <= m <= 12 -> 1 <= d <= 31 ->
  iso_date_shape (isoformat_date (y, m, d)) = true.
Proof.
  intros Hy Hm Hd. unfold isoformat_date.
  rewrite zero_pad_4, !zero_pad_2 by lia.
  cbn [app u List.map list_ascii_of_string N_of_ascii N_of_digits iso_date_shape forallb].
  rewrite !is_digit_of_Z by zdiv_lia. reflexivity.
Qed.

(** * Handlers and claims *)

Import PythonHelper.
Local Open Scope py_scope.

(** ** Handlers *)

Lemma guarded_try_except {A} (body : M A) (cls : exc_class) (prefix : str) (none : A) :
  guarded
    (try_except body cls (fun e => logging_error (prefix ++ exn_msg e) ;; ret none))
    body cls prefix none.
Proof.
  intros w. unfold try_except. destruct (body w) as [[a|e] w']; [reflexivity|].
  destruct (issubclass (exn_class e) cls); reflexivity.
Qed.

Lemma guarded_try_except_unit (body : M unit) (cls : exc_class) (prefix : str) :
  guarded
    (try_except body cls (fun e => logging_error (prefix ++ exn_msg e)))
    body cls prefix tt.
Proof.
  intros w. unfold try_except. destruct (body w) as [[a|e] w']; [reflexivity|].
  destruct (issubclass (exn_class e) cls); reflexivity.
Qed.

(** A method under a handler for everything its body raises never
    raises. *)
Lemma guarded_never_raises {A} (method body : M A) (cls : exc_class) (prefix : str)
    (none : A) :
  guarded method body cls prefix none -> raises_only body cls -> never_raises method.
Proof.
  intros Hg Hr w. rewrite (Hg w). specialize (Hr w).
  destruct (body w) as [[a|e] w']; [reflexivity|].
  rewrite (Hr e w' eq_refl). reflexivity.
Qed.

Lemma loads_raises_class (s : str) (e : exn) :
  loads s = Raise e -> exn_class e = JSONDecodeError.
Proof.
  unfold loads. destruct (match s with c :: _ => (c =? 65279)%N | [] => false end).
  - intros [= <-]. reflexivity.
  - destruct (scan_once _ _) as [v rest|msg].
    + destruct (skip_ws rest); [discriminate|]. intros [= <-]. reflexivity.
    + intros [= <-]. reflexivity.
Qed.

Lemma read_json_body_raises (file_path : str) :
  raises_only (read_json_body file_path) Exception.
Proof.
  intros w e w'. unfold read_json_body, bind, open_read, lift.
  destruct (files w !! file_path) as [content|].
  - destruct (loads content) as [v|e'] eqn:E; [discriminate|].
    intros [= <- _]. rewrite (loads_raises_class _ _ E). reflexivity.
  - intros [= <- _]. reflexivity.
Qed.

Lemma write_json_body_raises (file_path : str) (data : pyval) :
  raises_only (write_json_body file_path data) Exception.
Proof.
  intros w e w'. unfold write_json_body, bind, open_write, file_write, logging_info.
  destruct (writable w file_path); [discriminate|].
  intros [= <- _]. reflexivity.
Qed.

(** * The claims *)

(** ** C1: which exceptions reach the caller *)



(** ** C2: network errors *)

Lemma try_except_caught {A} (body : M A) (cls : exc_class) (handler : exn -> M A)
    (w w' : world) (e : exn) :
  body w = (Raise e, w') -> issubclass (exn_class e) cls = true ->
  try_except body cls handler w = handler e w'.
Proof. intros Hb Hc. unfold try_except. rewrite Hb, Hc. reflexivity. Qed.

(** What the [try] block of the two request methods does with the answer
    of the network. *)
Lemma request_body_outcome (req : request) (w : world) :
  (response <- send req ;; raise_for_status response ;; response_json response)%py w
  = match network w req with
    | Raise e => (Raise e, w)
    | Return r =>
        if (400 <=? status_code r) && (status_code r <? 500) then
          (Raise (Exn HTTPError
                    (int_repr (status_code r) ++ u " Client Error: " ++ reason r
                     ++ u " for url: " ++ url r)), w)
        else if (500 <=? status_code r) && (status_code r <? 600) then
          (Raise (Exn HTTPError
                    (int_repr (status_code r) ++ u " Server Error: " ++ reason r
                     ++ u " for url: " ++ url r)), w)
        else
          match loads (text r) with
          | Return v => (Return v, w)
          | Raise e => (Raise (Exn requests_JSONDecodeError (exn_msg e)), w)
          end
    end.
Proof.
  unfold bind, send, raise_for_status, response_json.
  destruct (network w req) as [r|e]; [|reflexivity].
  destruct ((400 <=? status_code r) && (status_code r <? 500)); [reflexivity|].
  destruct ((500 <=? status_code r) && (status_code r <? 600)); [reflexivity|].
  destruct (loads (text r)) as [v|e] eqn:E; [reflexivity|].
  rewrite (loads_raises_class _ _ E). reflexivity.
Qed.

(** The outcome of a request method whose network call fails in one of
    the ways of the claim: always [None] and one error record. *)
Lemma request_failures (req : request) (prefix : str) (w : world) :
  let method :=
    try_except
      (response <- send req ;; raise_for_status response ;; response_json response)%py
      RequestException
      (fun e => logging_error (prefix ++ exn_msg e) ;; ret PNone)%py in
  (forall e, network w req = Raise e ->
     issubclass (exn_class e) RequestException = true ->
     method w = (Return PNone, logged w ERROR (prefix ++ exn_msg e)))
  /\ (forall r, network w req = Return r -> 400 <= status_code r < 600 ->
        exists msg, method w = (Return PNone, logged w ERROR (prefix ++ msg)))
  /\ (forall r e, network w req = Return r -> ~ 400 <= status_code r < 600 ->
        loads (text r) = Raise e ->
        method w = (Return PNone, logged w ERROR (prefix ++ exn_msg e))).
Proof.
  cbv zeta. repeat apply conj.
  - intros e He Hc. erewrite try_except_caught; [reflexivity| |exact Hc].
    rewrite request_body_outcome, He. reflexivity.
  - intros r Hr Hs.
    destruct ((400 <=? status_code r) && (status_code r <? 500)) eqn:E4.
    + eexists. erewrite try_except_caught; [reflexivity| |].
      * rewrite request_body_outcome, Hr, E4. reflexivity.
      * reflexivity.
    + assert ((500 <=? status_code r) && (status_code r <? 600) = true) as E5.
      { apply andb_false_iff in E4. apply andb_true_iff.
        rewrite Z.leb_le, Z.ltb_lt. rewrite Z.leb_gt, Z.ltb_ge in E4. lia. }
      eexists. erewrite try_except_caught; [reflexivity| |].
      * rewrite request_body_outcome, Hr, E4, E5. reflexivity.
      * reflexivity.
  - intros r e Hr Hs He.
    assert ((400 <=? status_code r) && (status_code r <? 500) = false) as E4.
    { apply andb_false_iff. rewrite Z.leb_gt, Z.ltb_ge. lia. }
    assert ((500 <=? status_code r) && (status_code r <? 600) = false) as E5.
    { apply andb_false_iff. rewrite Z.leb_gt, Z.ltb_ge. lia. }
    rewrite (try_except_caught _ _ _ w w (Exn requests_JSONDecodeError (exn_msg e)));
      [reflexivity| |reflexivity].
    rewrite request_body_outcome, Hr, E4, E5, He. reflexivity.
Qed.




(** ** C3 and C8: converting a date *)



(** C8.  When the text parses against the input format,
    [convert_date_format] returns the parsed date rendered with the output
    format, and logs nothing.  In particular
    [convert_date_format("2024-01-15", "%Y-%m-%d", "%d-%m-%Y")] returns
    ["15-01-2024"]. *)
Theorem convert_date_format_success :
  (forall L date_str input_format output_format w d s,
     strptime L date_str input_format = Return d ->
     strftime L d output_format = Return s ->
     PythonHelper.convert_date_format L date_str input_format output_format w
     = (Return (Some s), w))
  /\ (forall w,
        PythonHelper.convert_date_format cpython
          (u "2024-01-15") (u "%Y-%m-%d") (u "%d-%m-%Y") w
        = (Return (Some (u "15-01-2024")), w)).
Proof.
  split.
  - intros L date_str input_format output_format w d s Hp Hf.
    unfold PythonHelper.convert_date_format, PythonHelper.convert_date_format_body,
      try_except, bind, lift, ret.
    rewrite Hp, Hf. reflexivity.
  - intros w. reflexivity.
Qed.

(** The example of the specification, from the general statement. *)
Lemma january_15_is_converted :
  PythonHelper.convert_date_format cpython
    (u "2024-01-15") (u "%Y-%m-%d") (u "%d-%m-%Y") sample_world
  = (Return (Some (u "15-01-2024")), sample_world).
Proof.
  apply (proj1 convert_date_format_success cpython
           (u "2024-01-15") (u "%Y-%m-%d") (u "%d-%m-%Y") sample_world
           (Datetime 2024 1 15 0 0 0 0) (u "15-01-2024"));
    reflexivity.
Defined.

(** ** C4: writing a record and reading it back *)



(** ** C5 and C10: filling missing values *)

Lemma fill_missing_values_outcome (df : loc) (column_name : str) (fill_value : scalar)
    (w : world) (frame : DataFrame) :
  objects w !! df = Some frame ->
  PythonHelper.fill_missing_values df column_name fill_value w
  = if bool_decide (column_name ∈ dom frame)
    then (Return df,
          logged (set_objects w
                    (<[df := alter (fillna fill_value) column_name frame]> (objects w)))
            INFO (fill_message column_name fill_value))
    else (Return df, w).
Proof.
  intros Hdf.
  unfold PythonHelper.fill_missing_values, bind, load_object, store_object,
    logging_info, ret, logged, fill_message.
  rewrite Hdf. destruct (bool_decide (column_name ∈ dom frame)); reflexivity.
Qed.



(** C10.  [fill_missing_values] changes nothing but missing cells of the
    named column of the object it is given: the other columns, the cells
    of the named column that hold a value, the number of rows, the column
    labels, the other objects and the files all stay. *)
Theorem fill_missing_values_frame (df : loc) (column_name : str) (fill_value : scalar)
    (w : world) (frame : DataFrame) :
  objects w !! df = Some frame ->
  let w' := snd (PythonHelper.fill_missing_values df column_name fill_value w) in
  exists frame',
    objects w' !! df = Some frame'
    /\ (forall other, other <> column_name -> frame' !! other = frame !! other)
    /\ (forall column, frame !! column_name = Some column ->
          exists column',
            frame' !! column_name = Some column'
            /\ length column' = length column
            /\ (forall i value, column !! i = Some (Some value) ->
                  column' !! i = Some (Some value)))
    /\ dom frame' = dom frame
    /\ (forall other_df, other_df <> df -> objects w' !! other_df = objects w !! other_df)
    /\ files w' = files w.
Proof.
  intros Hdf w'. subst w'.
  rewrite (fill_missing_values_outcome df column_name fill_value w frame Hdf).
  unfold DataFrame, Series, cell in *.
  destruct (bool_decide (column_name ∈ dom frame)) eqn:Hin.
  - exists (alter (fillna fill_value) column_name frame).
    cbn [snd logged set_logs set_objects objects files].
    repeat apply conj.
    + apply lookup_insert_eq.
    + intros other Hne. apply lookup_alter_ne. congruence.
    + intros column Hcol. exists (fillna fill_value column). repeat apply conj.
      * rewrite lookup_alter_eq, Hcol. reflexivity.
      * unfold fillna. apply length_map.
      * intros i value Hi. unfold fillna.
        change (List.map ?f column) with (f <$> column).
        rewrite list_lookup_fmap, Hi. reflexivity.
    + apply dom_alter_L.
    + intros other_df Hne. apply lookup_insert_ne. congruence.
    + reflexivity.
  - exists frame. cbn [snd]. repeat apply conj; try reflexivity; try assumption.
    intros column Hcol. exists column. repeat apply conj; auto.
Qed.

(** The other column of the same example stays. *)
Lemma status_fill_leaves_the_rest :
  exists frame',
    objects (snd (PythonHelper.fill_missing_values 1%positive (u "status")
                    (SStr (u "Unknown")) table_world)) !! 1%positive = Some frame'
    /\ frame' !! u "name" = sample_frame !! u "name".
Proof.
  destruct (fill_missing_values_frame 1%positive (u "status") (SStr (u "Unknown"))
              table_world sample_frame eq_refl) as (frame' & Hf & Hother & _).
  exists frame'. split; [exact Hf|]. apply Hother. vm_compute. discriminate.
Defined.

(** ** C6: removing duplicates *)


(** ** C7: random strings *)

Lemma alphabet_alnum :
  Forall (fun c => is_alnum c = true) (ascii_letters ++ string_digits).
Proof. repeat constructor. Qed.

Section rounding.
Local Open Scope N_scope.

(** Rounding moves a number by at most half a unit of its last place. *)
Lemma round_double_near (p : N) :
  round_double p <= p + 2 ^ (N.log2 p + 1 - 53) / 2.
Proof.
  unfold round_double. generalize (N.log2 p + 1 - 53). intros s.
  assert (0 < 2 ^ s) as Hpos by (apply N.neq_0_lt_0, N.pow_nonzero; lia).
  pose proof (N.Div0.div_mod p (2 ^ s)) as Hdiv.
  pose proof (N.mod_upper_bound p (2 ^ s) ltac:(lia)) as Hrem.
  set (b := 2 ^ s) in *. clearbody b.
  set (q := p / b) in *. set (rem := p mod b) in *. clearbody q rem.
  destruct ((b <? 2 * rem) || ((2 * rem =? b) && N.odd q)) eqn:Hup.
  - assert (b <= 2 * rem) as Hhalf.
    { apply orb_true_iff in Hup as [Hup|Hup].
      - apply N.ltb_lt in Hup. lia.
      - apply andb_true_iff in Hup as [Hup _]. apply N.eqb_eq in Hup. lia. }
    assert (b <= rem + b / 2) by ediv_lia.
    lia.
  - clear Hup. ediv_lia.
Qed.

(** The product of a double below 1 and a length [n] stays below [n]
    after rounding. *)
Lemma round_double_below (r n : N) :
  r < 2 ^ 53 -> 0 < n -> round_double (r * n) / 2 ^ 53 < n.
Proof.
  intros Hr Hn. apply N.Div0.div_lt_upper_bound.
  pose proof (round_double_near (r * n)) as Hnear.
  assert (r * n + n <= 2 ^ 53 * n) as Hp by nia.
  set (p := r * n) in *. clearbody p.
  destruct (N.le_gt_cases (N.log2 p + 1) 53) as [Hs|Hs].
  - replace (N.log2 p + 1 - 53) with 0 in Hnear by lia.
    change (2 ^ 0 / 2) with 0 in Hnear. lia.
  - assert (p <> 0) as Hp0 by (intros ->; cbn in Hs; lia).
    destruct (N.log2_spec p ltac:(lia)) as [Hlo _].
    set (s := N.log2 p + 1 - 53) in *.
    replace (N.log2 p) with (N.succ (s - 1) + 52) in Hlo by lia.
    replace s with (N.succ (s - 1)) in Hnear by lia.
    rewrite N.pow_add_r, N.pow_succ_r' in Hlo. rewrite N.pow_succ_r' in Hnear.
    replace (2 * 2 ^ (s - 1) / 2) with (2 ^ (s - 1)) in Hnear by ediv_lia.
    set (a := 2 ^ (s - 1)) in *. clearbody a.
    change (2 ^ 52) with 4503599627370496 in Hlo.
    change (2 ^ 53) with 9007199254740992 in *.
    lia.
Qed.

End rounding.

(** Every draw finds its element: [random.choices] returns [k] elements
    of the population and has drawn [k] values. *)
Lemma random_choices_spec (population : str) (k : nat) (w : world) :
  population <> [] ->
  exists s,
    random_choices population k w = (Return s, set_rng_pos w (rng_pos w + k))
    /\ length s = k
    /\ Forall (fun c => c ∈ population) s.
Proof.
  intros Hne.
  assert (0 < N.of_nat (length population))%N as Hn
    by (destruct population; [congruence|cbn [length]; lia]).
  revert w. induction k as [|k IH]; intros w.
  - exists []. cbn [random_choices ret]. repeat split; [|constructor].
    destruct w. unfold set_rng_pos. cbn. rewrite Nat.add_0_r. reflexivity.
  - cbn [random_choices]. unfold bind at 1. unfold random at 1.
    set (r := (rng w (rng_pos w) mod 2 ^ 53)%N).
    assert (r < 2 ^ 53)%N as Hr by (apply N.mod_upper_bound; discriminate).
    pose proof (round_double_below r _ Hr Hn) as Hi.
    match goal with
    | |- context [population !! ?i] => destruct (population !! i) as [c|] eqn:Hc
    end; [|apply lookup_ge_None_1 in Hc; lia].
    destruct (IH (set_rng_pos w (S (rng_pos w)))) as (s & Hs & Hlen & Hin).
    exists (c :: s). unfold bind at 1. rewrite Hs. cbn [ret].
    repeat apply conj.
    + unfold ret. f_equal. destruct w. unfold set_rng_pos. cbn. f_equal. lia.
    + cbn [length]. rewrite Hlen. reflexivity.
    + constructor; [|exact Hin]. apply (list_elem_of_lookup_2 _ _ _ Hc).
Qed.

(** C7.  [generate_random_string(length)] returns a string of [length]
    characters (none when [length] is not positive), each a letter or a
    digit of the alphabet, and draws [length] values from the generator.
    In particular [generate_random_string(12)] has length 12 and is made
    of letters and digits. *)
Theorem generate_random_string_alnum :
  (forall (length : Z) (w : world),
     exists s,
       PythonHelper.generate_random_string length w
       = (Return s, set_rng_pos w (rng_pos w + Z.to_nat length))
       /\ List.length s = Z.to_nat length
       /\ (0 <= length -> Z.of_nat (List.length s) = length)
       /\ Forall (fun c => c ∈ ascii_letters ++ string_digits) s
       /\ Forall (fun c => is_alnum c = true) s)
  /\ (forall w,
        exists s w',
          PythonHelper.generate_random_string 12 w = (Return s, w')
          /\ List.length s = 12%nat
          /\ Forall (fun c => is_alnum c = true) s).
Proof.
  assert (forall (length : Z) (w : world),
     exists s,
       PythonHelper.generate_random_string length w
       = (Return s, set_rng_pos w (rng_pos w + Z.to_nat length))
       /\ List.length s = Z.to_nat length
       /\ (0 <= length -> Z.of_nat (List.length s) = length)
       /\ Forall (fun c => c ∈ ascii_letters ++ string_digits) s
       /\ Forall (fun c => is_alnum c = true) s) as Hgen.
  { intros len w. unfold PythonHelper.generate_random_string.
    destruct (random_choices_spec (ascii_letters ++ string_digits) (Z.to_nat len) w)
      as (s & Hs & Hlen & Hin); [discriminate|].
    exists s. repeat apply conj; try assumption.
    - intros Hpos. rewrite Hlen. lia.
    - pose proof alphabet_alnum as Halnum. rewrite Forall_forall in Halnum.
      apply Forall_forall. intros c Hc. rewrite Forall_forall in Hin.
      apply Halnum, Hin, Hc. }
  split; [exact Hgen|].
  intros w. destruct (Hgen 12 w) as (s & Hs & Hlen & _ & _ & Halnum).
  exists s, (set_rng_pos w (rng_pos w + Z.to_nat 12)). repeat apply conj; assumption.
Qed.

(** ** C9: a date some days from now *)

Lemma strftime_iso (d : datetime) :
  cpython_strftime d (u "%Y-%m-%d") = Return (isoformat_date (date_of d)).
Proof.
  change (u "%Y-%m-%d") with [37; 89; 45; 37; 109; 45; 37; 100]%N.
  unfold isoformat_date, date_of. change (u "-") with [45%N].
  cbn [cpython_strftime N.eqb Pos.eqb directive_of render].
  cbn [app]. rewrite app_nil_r. reflexivity.
Qed.

Lemma valid_datetime_date (d : datetime) :
  valid_datetime d = true ->
  1 <= dt_year d <= 9999 /\ valid_md (date_of d).
Proof.
  unfold valid_datetime. intros H. apply andb_true_iff in H as [H _].
  apply valid_date_md in H. exact H.
Qed.





(** * Further properties of the methods *)

(** ** JSON files *)

(** What [read_json] does, by the file it finds. *)
Lemma read_json_outcome (file_path : str) (w : world) :
  PythonHelper.read_json file_path w
  = match files w !! file_path with
    | None =>
        (Return PNone,
         logged w ERROR
           (u "Error reading JSON file: [Errno 2] No such file or directory: '"
            ++ file_path ++ u "'"))
    | Some content =>
        match loads content with
        | Return v => (Return v, w)
        | Raise e => (Return PNone, logged w ERROR (u "Error reading JSON file: " ++ exn_msg e))
        end
    end.
Proof.
  unfold PythonHelper.read_json, PythonHelper.read_json_body, try_except, bind,
    open_read, lift.
  destruct (files w !! file_path) as [content|]; [|reflexivity].
  destruct (loads content) as [v|e] eqn:E; [reflexivity|].
  rewrite (loads_raises_class _ _ E). reflexivity.
Qed.

(** What [write_json] does, by whether the path can be written. *)
Lemma write_json_outcome (file_path : str) (data : pyval) (w : world) :
  PythonHelper.write_json file_path data w
  = if writable w file_path
    then (Return tt,
          logged (set_files w (<[file_path := dumps data]> (files w))) INFO
            (u "JSON file saved: " ++ file_path))
    else (Return tt,
          logged w ERROR
            (u "Error writing JSON file: [Errno 13] Permission denied: '"
             ++ file_path ++ u "'")).
Proof.
  unfold PythonHelper.write_json, PythonHelper.write_json_body, try_except, bind,
    open_write, file_write, logging_info, logged.
  destruct (writable w file_path); [|reflexivity].
  cbn [files set_files set_logs logs]. rewrite alter_insert_eq. reflexivity.
Qed.





Section json_text.
Local Open Scope N_scope.

Lemma hex4_ascii (n : N) : Forall (fun c => c < 128) (hex4 n).
Proof.
  assert (forall d, d < 16 -> hex_digit d < 128) as Hd.
  { intros d Hlt. unfold hex_digit. destruct (N.ltb_spec d 10); lia. }
  unfold hex4. repeat constructor; apply Hd; apply N.mod_upper_bound; discriminate.
Qed.

(** Lists of code points given one by one. *)
Ltac ascii_list :=
  repeat first
    [ apply Forall_nil_2
    | apply hex4_ascii
    | apply Forall_cons_2; [lia|]
    | apply Forall_app; split ].

Lemma encode_char_ascii (c : N) : Forall (fun d => d < 128) (encode_char c).
Proof.
  unfold encode_char.
  repeat match goal with
  | |- context [if (?a =? ?b) then _ else _] =>
      destruct (N.eqb_spec a b); [ascii_list|]
  end.
  destruct (N.leb_spec 32 c); destruct (N.leb_spec c 126); cbn [andb];
    [ascii_list| | |]; destruct (N.ltb_spec c 65536); ascii_list.
Qed.

Lemma encode_str_ascii (s : str) : Forall (fun d => d < 128) (encode_str s).
Proof.
  unfold encode_str. apply Forall_cons_2; [lia|]. apply Forall_app. split.
  - induction s as [|c s IH]; [apply Forall_nil_2|]. cbn [flat_map].
    apply Forall_app. split; [apply encode_char_ascii|exact IH].
  - ascii_list.
Qed.

Lemma digits_ascii (ds : str) :
  Forall (fun d => is_digit d = true) ds -> Forall (fun d => d < 128) ds.
Proof.
  intros H. eapply Forall_impl; [exact H|].
  intros d Hd. apply is_digit_range in Hd. lia.
Qed.

Lemma int_repr_ascii (z : Z) : Forall (fun d => d < 128) (int_repr z).
Proof.
  unfold int_repr. destruct (digits_shape (Z.abs_N z)) as (c & ds & -> & Hc & Hds & _).
  assert (Forall (fun d => d < 128) (c :: ds)) as H
    by (apply digits_ascii, Forall_cons_2; assumption).
  destruct (z <? 0)%Z; [apply Forall_cons_2; [lia|exact H]|exact H].
Qed.

Lemma span_digits_digits (s ds r : str) :
  span_digits s = (ds, r) -> Forall (fun d => is_digit d = true) ds.
Proof.
  revert ds r. induction s as [|c s IH]; intros ds r; cbn [span_digits].
  - intros [= <- <-]. apply Forall_nil_2.
  - destruct (is_digit c) eqn:Hc; [|intros [= <- <-]; apply Forall_nil_2].
    destruct (span_digits s) as [ds' r'] eqn:E. intros [= <- <-].
    apply Forall_cons_2; [exact Hc|]. apply (IH ds' r' eq_refl).
Qed.

(** The parts of a number hold digits, signs, a dot and an exponent mark. *)
Lemma match_number_ascii (s int_part frac exp r : str) :
  match_number s = Some (int_part, frac, exp, r) ->
  Forall (fun d => d < 128) (int_part ++ frac ++ exp).
Proof.
  unfold match_number.
  destruct (match_integer s) as [[i s2]|] eqn:Ei; [|discriminate].
  destruct (match_frac s2) as [f s3] eqn:Ef.
  destruct (match_exp s3) as [e s4] eqn:Ee.
  intros [= <- <- <- <-]. rewrite !Forall_app. repeat apply conj.
  - unfold match_integer in Ei.
    assert (forall sign s1,
              Forall (fun d => d < 128) sign ->
              match s1 with
              | c :: t =>
                  if c =? 48 then Some (sign ++ [48], t)
                  else if is_digit c then
                    let (ds, r) := span_digits t in Some (sign ++ c :: ds, r)
                  else None
              | [] => None
              end = Some (i, s2) -> Forall (fun d => d < 128) i) as Hdigits.
    { intros sign [|c t] Hsign; [discriminate|].
      destruct (c =? 48); [intros [= <- <-]; apply Forall_app; split;
                           [exact Hsign|ascii_list]|].
      destruct (is_digit c) eqn:Hc; [|discriminate].
      destruct (span_digits t) as [ds r'] eqn:E. intros [= <- <-].
      apply Forall_app. split; [exact Hsign|].
      apply digits_ascii, Forall_cons_2; [exact Hc|apply (span_digits_digits t ds r' E)]. }
    destruct s as [|c t]; [discriminate|].
    destruct (c =? 45).
    + apply (Hdigits [45] t); [ascii_list|exact Ei].
    + apply (Hdigits [] (c :: t)); [apply Forall_nil_2|exact Ei].
  - destruct s2 as [|c t]; [injection Ef as <- <-; apply Forall_nil_2|].
    cbn [match_frac] in Ef. destruct (N.eqb_spec c 46) as [->|_].
    + destruct (span_digits t) as [ds r'] eqn:E.
      destruct ds; injection Ef as <- <-; [apply Forall_nil_2|].
      apply Forall_cons_2; [lia|]. apply digits_ascii, (span_digits_digits t _ r' E).
    + injection Ef as <- <-. apply Forall_nil_2.
  - destruct s3 as [|c t]; [injection Ee as <- <-; apply Forall_nil_2|].
    cbn [match_exp] in Ee.
    assert (forall sg t',
              Forall (fun d => d < 128) (c :: sg) ->
              match span_digits t' with
              | ([], _) => ([], c :: t)
              | (ds, r) => (c :: sg ++ ds, r)
              end = (e, s4) -> Forall (fun d => d < 128) e) as Hdigits.
    { intros sg t' Hsg. destruct (span_digits t') as [ds r'] eqn:E.
      destruct ds; intros [= <- <-]; [apply Forall_nil_2|].
      change (c :: sg ++ n :: ds) with ((c :: sg) ++ n :: ds).
      apply Forall_app. split; [exact Hsg|].
      apply digits_ascii, (span_digits_digits t' _ r' E). }
    destruct ((c =? 101) || (c =? 69)) eqn:Hc;
      [|injection Ee as <- <-; apply Forall_nil_2].
    assert (c < 128) as Hc128.
    { apply orb_true_iff in Hc as [Hc|Hc]; apply N.eqb_eq in Hc; lia. }
    destruct t as [|d t1].
    + apply (Hdigits [] []); [ascii_list|exact Ee].
    + destruct ((d =? 45) || (d =? 43)) eqn:Hd.
      * apply (Hdigits [d] t1); [|exact Ee].
        assert (d < 128)
          by (apply orb_true_iff in Hd as [Hd|Hd]; apply N.eqb_eq in Hd; lia).
        ascii_list.
      * apply (Hdigits [] (d :: t1)); [ascii_list|exact Ee].
Qed.

Lemma encode_container_ascii (open close : N) (lvl : nat) (items : list str) :
  open < 128 -> close < 128 ->
  Forall (Forall (fun d => d < 128)) items ->
  Forall (fun d => d < 128) (encode_container open close lvl items).
Proof.
  intros Ho Hc Hitems.
  assert (forall k, Forall (fun d => d < 128) (newline_indent k)) as Hnl.
  { intros k. unfold newline_indent. apply Forall_cons_2; [lia|].
    apply Forall_forall. intros d Hd. apply list_elem_of_In, repeat_spec in Hd. lia. }
  destruct Hitems as [|i items Hi Hitems]; [ascii_list|].
  unfold encode_container. apply Forall_cons_2; [exact Ho|].
  rewrite !Forall_app. repeat apply conj; try apply Hnl; try exact Hi.
  - induction Hitems as [|j items Hj _ IH]; [apply Forall_nil_2|].
    cbn [flat_map]. apply Forall_cons_2; [lia|].
    rewrite !Forall_app. repeat apply conj; [apply Hnl|exact Hj|exact IH].
  - ascii_list.
Qed.

Lemma encode_ascii (v : pyval) :
  json_compatible v = true -> forall lvl, Forall (fun d => d < 128) (encode lvl v).
Proof.
  induction v as [ | b | z | lit | s | xs IH | kvs IH] using pyval_nested_ind;
    intros Hjc lvl; cbn [encode].
  - change (u "null") with [110; 117; 108; 108]. ascii_list.
  - destruct b; [change (u "true") with [116; 114; 117; 101]
                |change (u "false") with [102; 97; 108; 115; 101]]; ascii_list.
  - apply int_repr_ascii.
  - cbn [json_compatible] in Hjc.
    destruct (float_literal_parts lit Hjc) as (i & f & e & Hm & _ & ->).
    apply (match_number_ascii _ _ _ _ _ Hm).
  - apply encode_str_ascii.
  - apply encode_container_ascii; [lia|lia|].
    cbn [json_compatible] in Hjc. rewrite forallb_forall in Hjc.
    apply Forall_forall. intros t Ht.
    apply list_elem_of_In, in_map_iff in Ht as (x & <- & Hx).
    rewrite Forall_forall in IH. apply IH; [apply list_elem_of_In, Hx|apply Hjc, Hx].
  - apply encode_container_ascii; [lia|lia|].
    cbn [json_compatible] in Hjc. apply andb_true_iff in Hjc as [Hjc _].
    rewrite forallb_forall in Hjc.
    apply Forall_forall. intros t Ht.
    apply list_elem_of_In, in_map_iff in Ht as (kv & <- & Hkv).
    rewrite !Forall_app. repeat apply conj.
    + apply encode_str_ascii.
    + ascii_list.
    + rewrite Forall_forall in IH. apply IH; [apply list_elem_of_In, Hkv|].
      specialize (Hjc kv Hkv). apply andb_true_iff in Hjc as [_ Hjc]. exact Hjc.
Qed.

End json_text.

(** X4.  The file [write_json] writes holds ASCII characters only,
    whatever the strings of the tree hold: [json.dump] escapes the rest. *)
Theorem written_json_is_ascii (file_path : str) (data : pyval) (w : world) :
  json_compatible data = true -> writable w file_path = true ->
  exists content,
    files (snd (PythonHelper.write_json file_path data w)) !! file_path = Some content
    /\ Forall (fun c => (c < 128)%N) content.
Proof.
  intros Hjc Hw. rewrite write_json_outcome, Hw. exists (dumps data).
  cbn [snd logged set_logs set_files files]. split; [apply lookup_insert_eq|].
  apply encode_ascii, Hjc.
Qed.

Lemma accented_name_is_written_in_ascii :
  exists content,
    files (snd (PythonHelper.write_json (u "sample.json")
                  (PDict [(u "name", PStr [72; 233; 108; 105; 117; 109; 128512]%N)])
                  sample_world)) !! u "sample.json" = Some content
    /\ Forall (fun c => (c < 128)%N) content.
Proof.
  apply (written_json_is_ascii (u "sample.json")
           (PDict [(u "name", PStr [72; 233; 108; 105; 117; 109; 128512]%N)])
           sample_world); vm_compute; reflexivity.
Defined.



Section padded.
Local Open Scope N_scope.

Lemma skip_ws_padding (before s : str) :
  forallb is_ws before = true -> skip_ws (before ++ s) = skip_ws s.
Proof.
  induction before as [|c before IH]; [reflexivity|]. cbn [forallb app skip_ws].
  intros H. apply andb_true_iff in H as [-> H]. apply IH, H.
Qed.

Lemma is_ws_ends_number (s : str) : forallb is_ws s = true -> ends_number s = true.
Proof.
  destruct s as [|c s]; [reflexivity|]. cbn [forallb ends_number].
  intros H. apply andb_true_iff in H as [H _].
  revert H. unfold is_ws, is_digit.
  ncases; subst; cbn; intros Hws; try reflexivity; try discriminate; lia.
Qed.

(** White space around the text of a value is skipped. *)
Lemma loads_padded (v : pyval) (before after : str) :
  json_compatible v = true ->
  forallb is_ws before = true -> forallb is_ws after = true ->
  loads (before ++ dumps v ++ after) = Return v.
Proof.
  intros Hjc Hb Ha. unfold loads, dumps.
  destruct (encode_head v 0 Hjc) as (c & t & E & Hc).
  pose proof (need_bound v Hjc 0%nat) as Hneed.
  assert (match before ++ encode 0 v ++ after with
          | d :: _ => d =? 65279
          | [] => false
          end = false) as ->.
  { destruct before as [|d before].
    - rewrite E. cbn [app]. apply N.eqb_neq. intros ->. discriminate.
    - cbn [app]. cbn [forallb] in Hb. apply andb_true_iff in Hb as [Hd _].
      apply N.eqb_neq. intros ->. discriminate. }
  rewrite skip_ws_padding by assumption.
  set (fuel := (2 * length (before ++ encode 0 v ++ after) + 2)%nat).
  assert (need v <= fuel)%nat as Hfuel by (subst fuel; rewrite !length_app; lia).
  clearbody fuel.
  pose proof (scan_once_encode v Hjc 0%nat fuel after Hfuel (is_ws_ends_number _ Ha))
    as Hscan.
  rewrite E in *. cbn [app] in *. rewrite skip_ws_value by assumption.
  rewrite Hscan.
  replace (skip_ws after) with (@nil N); [reflexivity|].
  rewrite <- (app_nil_r after), skip_ws_padding by assumption. reflexivity.
Qed.

End padded.




(** ** Data processing *)


(** Cells that hold a value. *)
Lemma fillna_complete (value : scalar) (column : Series) :
  Forall is_Some (fillna value column)
  /\ (Forall is_Some column -> fillna value column = column).
Proof.
  unfold fillna. split.
  - induction column as [|[s|] column IH]; cbn [List.map]; constructor; eauto.
  - induction 1 as [|c column [s ->] _ IH]; [reflexivity|].
    cbn [List.map]. rewrite IH. reflexivity.
Qed.



(** X9.  On a column without missing cells [fill_missing_values] changes
    no object, and still logs that the column was filled.  So a second
    call, with any fill value, changes nothing but the log. *)
Theorem fill_missing_values_again (df : loc) (column_name : str)
    (fill_value other_value : scalar) (w : world) (frame : DataFrame) (column : Series) :
  objects w !! df = Some frame -> frame !! column_name = Some column ->
  (Forall is_Some column ->
   PythonHelper.fill_missing_values df column_name fill_value w
   = (Return df, logged w INFO (fill_message column_name fill_value)))
  /\ (let w1 := snd (PythonHelper.fill_missing_values df column_name fill_value w) in
      PythonHelper.fill_missing_values df column_name other_value w1
      = (Return df, logged w1 INFO (fill_message column_name other_value))).
Proof.
  intros Hdf Hcol.
  assert (forall (w0 : world) (frame0 : DataFrame) (column0 : Series) (value : scalar),
            objects w0 !! df = Some frame0 -> frame0 !! column_name = Some column0 ->
            Forall is_Some column0 ->
            PythonHelper.fill_missing_values df column_name value w0
            = (Return df, logged w0 INFO (fill_message column_name value))) as Hsame.
  { intros w0 frame0 column0 value Hdf0 Hcol0 Hfull.
    rewrite (fill_missing_values_outcome df column_name value w0 frame0 Hdf0).
    rewrite bool_decide_eq_true_2 by (apply elem_of_dom; eauto).
    unfold DataFrame, Series, cell in *.
    rewrite (alter_alt_Some _ _ _ _ Hcol0).
    rewrite (proj2 (fillna_complete value column0) Hfull).
    rewrite (insert_id frame0 column_name column0 Hcol0).
    rewrite (insert_id (objects w0) df frame0 Hdf0).
    destruct w0. reflexivity. }
  split; [intros Hfull; apply (Hsame w frame column fill_value Hdf Hcol Hfull)|].
  intros w1. subst w1.
  rewrite (fill_missing_values_outcome df column_name fill_value w frame Hdf).
  rewrite bool_decide_eq_true_2 by (apply elem_of_dom; eauto).
  cbn [snd]. unfold DataFrame, Series, cell in *.
  apply (Hsame _ (alter (fillna fill_value) column_name frame) (fillna fill_value column)).
  - cbn [logged set_logs set_objects objects]. apply lookup_insert_eq.
  - rewrite lookup_alter_eq, Hcol. reflexivity.
  - apply fillna_complete.
Qed.

Lemma status_filled_twice :
  let w1 := snd (PythonHelper.fill_missing_values 1%positive (u "status")
                   (SStr (u "Unknown")) table_world) in
  PythonHelper.fill_missing_values 1%positive (u "status") (SStr (u "n/a")) w1
  = (Return 1%positive,
     logged w1 INFO (u "Missing values in column 'status' filled with 'n/a'")).
Proof.
  apply (proj2 (fill_missing_values_again 1%positive (u "status") (SStr (u "Unknown"))
                  (SStr (u "n/a")) table_world sample_frame
                  [Some (SStr (u "Active")); None; Some (SStr (u "Done"))]
                  eq_refl eq_refl)).
Defined.


(** ** String utilities *)

(** One draw: the next value of the generator picks the element. *)
Lemma random_choices_S (population : str) (k : nat) (w : world) :
  random_choices population (S k) w
  = let w1 := set_rng_pos w (S (rng_pos w)) in
    let r := (rng w (rng_pos w) mod 2 ^ 53)%N in
    match population
          !! N.to_nat (round_double (r * N.of_nat (length population)) / 2 ^ 53)%N with
    | Some c =>
        match random_choices population k w1 with
        | (Return rest, w2) => (Return (c :: rest), w2)
        | (Raise e, w2) => (Raise e, w2)
        end
    | None => (Raise (Exn IndexError (u "string index out of range")), w1)
    end.
Proof.
  cbn [random_choices]. unfold bind at 1. unfold random. cbv zeta.
  destruct (population !! _) as [c|]; [|reflexivity].
  unfold bind, ret. reflexivity.
Qed.

(** Draws follow each other: [n + m] draws are [n] draws and then [m]. *)
Lemma random_choices_app (population : str) (n m : nat) (w : world) :
  random_choices population (n + m) w
  = (s1 <- random_choices population n ;;
     s2 <- random_choices population m ;;
     ret (s1 ++ s2)) w.
Proof.
  revert w. induction n as [|n IH]; intros w.
  - cbn [Nat.add random_choices]. unfold bind, ret.
    destruct (random_choices population m w) as [[s2|e] w']; reflexivity.
  - change (S n + m)%nat with (S (n + m)). unfold bind at 1.
    rewrite !random_choices_S. cbv zeta.
    destruct (population !! _) as [c|]; [|reflexivity].
    rewrite IH. unfold bind, ret.
    destruct (random_choices population n _) as [[s1|e] w1]; [|reflexivity].
    destruct (random_choices population m w1) as [[s2|e] w2]; reflexivity.
Qed.

(** X10.  A random string of [a + b] characters is the string of [a]
    characters followed by the string of [b] characters that two calls in
    a row return: every character takes one value of the generator, in
    order. *)
Theorem generate_random_string_app (a b : Z) (w : world) :
  0 <= a -> 0 <= b ->
  PythonHelper.generate_random_string (a + b) w
  = (s1 <- PythonHelper.generate_random_string a ;;
     s2 <- PythonHelper.generate_random_string b ;;
     ret (s1 ++ s2)) w.
Proof.
  intros Ha Hb. unfold PythonHelper.generate_random_string.
  rewrite Z2Nat.inj_add by assumption. apply random_choices_app.
Qed.

Lemma twelve_is_four_and_eight :
  PythonHelper.generate_random_string 12 sample_world
  = (s1 <- PythonHelper.generate_random_string 4 ;;
     s2 <- PythonHelper.generate_random_string 8 ;;
     ret (s1 ++ s2)) sample_world.
Proof. apply (generate_random_string_app 4 8 sample_world); lia. Defined.

(** X11.  Every character of the alphabet can be drawn: for each of the
    52 letters and 10 digits there is a value of the generator for which
    [generate_random_string(1)] is that character. *)
Theorem every_character_can_be_drawn :
  length (ascii_letters ++ string_digits) = 62%nat
  /\ Forall (fun c => exists r,
               fst (PythonHelper.generate_random_string 1 (drawing_world r))
               = Return [c])
       (ascii_letters ++ string_digits).
Proof.
  split; [reflexivity|].
  assert (forallb
            (fun i =>
               match fst (PythonHelper.generate_random_string 1
                            (drawing_world (middle_of_part i 62))),
                     (ascii_letters ++ string_digits) !! i with
               | Return [c], Some d => (c =? d)%N
               | _, _ => false
               end) (seq 0 62) = true) as Hall by (vm_compute; reflexivity).
  rewrite forallb_forall in Hall.
  apply Forall_forall. intros c Hc.
  apply list_elem_of_lookup_1 in Hc as [i Hi].
  pose proof (lookup_lt_Some _ _ _ Hi) as Hlt.
  change (length (ascii_letters ++ string_digits)) with 62%nat in Hlt.
  specialize (Hall i ltac:(apply in_seq; lia)).
  exists (middle_of_part i 62).
  destruct (fst (PythonHelper.generate_random_string 1 _)) as [[|c' [|? ?]]|e];
    try discriminate.
  unfold str in *. rewrite Hi in Hall. apply N.eqb_eq in Hall. congruence.
Qed.


(** ** API requests *)



(** X13.  The error record of an HTTP error names the status, the side at
    fault, the reason and the URL of the response: [Client Error] for a
    status from 400 to 499 and [Server Error] from 500 to 599; the body is
    not read. *)
Theorem http_error_record (address : str) (params headers : option (list (str * str)))
    (w : world) (r : response) :
  network w (Request GET address params None headers 10) = Return r ->
  (400 <= status_code r < 500 ->
   PythonHelper.send_get_request address params headers w
   = (Return PNone,
      logged w ERROR
        (u "GET request error: " ++ int_repr (status_code r) ++ u " Client Error: "
         ++ reason r ++ u " for url: " ++ url r)))
  /\ (500 <= status_code r < 600 ->
      PythonHelper.send_get_request address params headers w
      = (Return PNone,
         logged w ERROR
           (u "GET request error: " ++ int_repr (status_code r) ++ u " Server Error: "
            ++ reason r ++ u " for url: " ++ url r))).
Proof.
  intros Hr. unfold PythonHelper.send_get_request, PythonHelper.send_get_request_body,
    requests_get, try_except.
  rewrite request_body_outcome, Hr. split; intros Hs.
  - replace ((400 <=? status_code r) && (status_code r <? 500)) with true
      by (symmetry; apply andb_true_iff; rewrite Z.leb_le, Z.ltb_lt; exact Hs).
    reflexivity.
  - replace ((400 <=? status_code r) && (status_code r <? 500)) with false
      by (symmetry; apply andb_false_iff; rewrite Z.leb_gt, Z.ltb_ge; lia).
    replace ((500 <=? status_code r) && (status_code r <? 600)) with true
      by (symmetry; apply andb_true_iff; rewrite Z.leb_le, Z.ltb_lt; exact Hs).
    reflexivity.
Qed.

Lemma not_found_is_logged :
  PythonHelper.send_get_request (u "http://example.com/missing") None None not_found_world
  = (Return PNone,
     logged not_found_world ERROR
       (u "GET request error: 404 Client Error: Not Found for url: "
        ++ u "http://example.com/missing")).
Proof.
  apply (proj1 (http_error_record (u "http://example.com/missing") None None
                  not_found_world
                  (Response 404 (u "Not Found") (u "http://example.com/missing")
                     (u "<html>Not Found</html>"))
                  eq_refl)).
  cbn. lia.
Defined.


(** ** Date and time *)

Section fields.
Local Open Scope N_scope.

(** An alternative of at most two classes sees only the two characters
    in front of it. *)
Lemma match_classes_two (alt : list char_class) (c1 c2 : N) (rest : str) :
  (length alt <= 2)%nat ->
  match_classes alt (c1 :: c2 :: rest)
  = match match_classes alt [c1; c2] with
    | Some (m, r) => Some (m, r ++ rest)
    | None => None
    end.
Proof.
  intros Hlen. destruct alt as [|[lo1 hi1] [|[lo2 hi2] [|? ?]]]; cbn [length] in Hlen;
    try lia; cbn [match_classes].
  - reflexivity.
  - destruct ((lo1 <=? c1) && (c1 <=? hi1)); reflexivity.
  - destruct ((lo1 <=? c1) && (c1 <=? hi1)); [|reflexivity].
    destruct ((lo2 <=? c2) && (c2 <=? hi2)); reflexivity.
Qed.

(** What an alternative matched is in front of what it left. *)
Lemma match_classes_parts (alt : list char_class) (s m r : str) :
  match_classes alt s = Some (m, r) -> s = m ++ r.
Proof.
  revert s m r. induction alt as [|[lo hi] alt IH]; intros s m r; cbn [match_classes].
  - intros [= <- <-]. reflexivity.
  - destruct s as [|c t]; [discriminate|].
    destruct ((lo <=? c) && (c <=? hi)); [|discriminate].
    destruct (match_classes alt t) as [[m' r']|] eqn:E; [|discriminate].
    intros [= <- <-]. rewrite (IH t m' r' E). reflexivity.
Qed.

(** When the first alternative that matches takes both characters and
    the rest of the format matches what follows, the directive matches
    the two characters. *)
Lemma first_success_takes_both (d : directive) (alts : list (list char_class))
    (c1 c2 : N) (rest : str)
    (k : str -> option (list (directive * str) * str))
    (found : list (directive * str)) (r : str) :
  takes_both alts c1 c2 = true -> k rest = Some (found, r) ->
  first_success
    (fun alt =>
       match match_classes alt (c1 :: c2 :: rest) with
       | Some (m, r') =>
           match k r' with
           | Some (found', rest') => Some ((d, m) :: found', rest')
           | None => None
           end
       | None => None
       end) alts
  = Some ((d, [c1; c2]) :: found, r).
Proof.
  intros Hboth Hk. induction alts as [|alt alts IH]; [discriminate|].
  cbn [takes_both] in Hboth. cbn [first_success].
  destruct (match_classes alt [c1; c2]) as [[m [|x r']]|] eqn:E.
  - assert (length alt <= 2)%nat as Hlen.
    { clear -E. destruct alt as [|[lo1 hi1] [|[lo2 hi2] [|[lo3 hi3] alt]]];
        cbn [length]; try lia. exfalso. cbn [match_classes] in E.
      destruct ((lo1 <=? c1) && (c1 <=? hi1)); [|discriminate].
      destruct ((lo2 <=? c2) && (c2 <=? hi2)); discriminate. }
    rewrite (match_classes_two alt c1 c2 rest Hlen), E. cbn [app].
    pose proof (match_classes_parts _ _ _ _ E) as Hm. rewrite app_nil_r in Hm.
    subst m. rewrite Hk. reflexivity.
  - discriminate.
  - apply andb_true_iff in Hboth as [Hlen Hboth]. apply Nat.leb_le in Hlen.
    rewrite (match_classes_two alt c1 c2 rest Hlen), E. apply IH, Hboth.
Qed.

End fields.

(** Every value of a two-digit field, written with two digits, is taken
    whole by the first alternative that matches it. *)
Lemma field_takes_both (d : directive) (v : Z) :
  d <> dir_Y -> fst (field_range d) <= v <= snd (field_range d) ->
  exists c1 c2, zero_pad 2 v = [c1; c2] /\ takes_both (alternatives d) c1 c2 = true
    /\ int_of_digits (List.filter is_digit [c1; c2]) = Z.to_N v.
Proof.
  intros Hd Hv.
  assert (forallb
            (fun d =>
               forallb
                 (fun v =>
                    match zero_pad 2 v with
                    | [c1; c2] =>
                        takes_both (alternatives d) c1 c2
                        && (int_of_digits (List.filter is_digit [c1; c2]) =? Z.to_N v)%N
                    | _ => false
                    end)
                 (List.map (fun i => fst (field_range d) + Z.of_nat i)
                    (seq 0 (Z.to_nat (snd (field_range d) - fst (field_range d) + 1)))))
            [dir_m; dir_d; dir_H; dir_M; dir_S] = true) as Hall
    by (vm_compute; reflexivity).
  rewrite forallb_forall in Hall.
  assert (In d [dir_m; dir_d; dir_H; dir_M; dir_S]) as Hin
    by (destruct d; cbn; tauto).
  specialize (Hall d Hin). rewrite forallb_forall in Hall.
  specialize (Hall v (in_Z_range (fst (field_range d))
                        (snd (field_range d) - fst (field_range d) + 1) v ltac:(lia))).
  destruct (zero_pad 2 v) as [|c1 [|c2 [|? ?]]]; try discriminate.
  apply andb_true_iff in Hall as [Hboth Hval]. apply N.eqb_eq in Hval.
  exists c1, c2. auto.
Qed.

(** *** Reading what [strftime] wrote *)

Lemma match_items_field (d : directive) (v : Z) (items : list fmt_item) (rest : str)
    (found : list (directive * str)) (r : str) :
  d <> dir_Y -> fst (field_range d) <= v <= snd (field_range d) ->
  match_items items rest = Some (found, r) ->
  match_items (FDir d :: items) (zero_pad 2 v ++ rest)
  = Some ((d, zero_pad 2 v) :: found, r).
Proof.
  intros Hd Hv Hk. destruct (field_takes_both d v Hd Hv) as (c1 & c2 & -> & Hboth & _).
  cbn [app match_items].
  apply (first_success_takes_both d (alternatives d) c1 c2 rest (match_items items)
           found r Hboth Hk).
Qed.

Lemma match_items_year (y : Z) (items : list fmt_item) (rest : str)
    (found : list (directive * str)) (r : str) :
  0 <= y <= 9999 -> match_items items rest = Some (found, r) ->
  match_items (FDir dir_Y :: items) (zero_pad 4 y ++ rest)
  = Some ((dir_Y, zero_pad 4 y) :: found, r).
Proof.
  intros Hy Hk. rewrite (zero_pad_4 y Hy).
  assert (forall k, 0 <= k <= 9 ->
            ((48 <=? Z.to_N (48 + k)) && (Z.to_N (48 + k) <=? 57))%N = true) as Hdigit.
  { intros k Hk9. apply (is_digit_of_Z k Hk9). }
  cbn [app match_items alternatives first_success match_classes digit_class].
  rewrite !Hdigit by zdiv_lia. rewrite Hk. reflexivity.
Qed.

Lemma match_items_lit (c : N) (items : list fmt_item) (s : str) :
  match_items (FLit c :: items) (c :: s) = match_items items s.
Proof. cbn [match_items]. rewrite N.eqb_refl. reflexivity. Qed.

(** One blank before a character that is no white space. *)
Lemma match_items_blank (items : list fmt_item) (c : N) (s : str) :
  is_space c = false ->
  match_items (FSpace :: items) (32%N :: c :: s) = match_items items (c :: s).
Proof.
  intros Hc. cbn [match_items count_spaces]. change (is_space 32) with true.
  rewrite Hc. cbn [seq List.rev app first_success drop].
  destruct (match_items items (c :: s)); reflexivity.
Qed.

(** The number a field holds. *)
Lemma group_found (d : directive) (m : str) (found : list (directive * str))
    (default : Z) :
  group ((d, m) :: found) d default = Z.of_N (int_of_digits (List.filter is_digit m)).
Proof.
  unfold group. cbn [List.find fst]. rewrite bool_decide_eq_true_2 by reflexivity.
  reflexivity.
Qed.

Lemma group_other (d d' : directive) (m : str) (found : list (directive * str))
    (default : Z) :
  d' <> d -> group ((d', m) :: found) d default = group found d default.
Proof.
  intros Hne. unfold group. cbn [List.find fst].
  rewrite bool_decide_eq_false_2 by exact Hne. reflexivity.
Qed.

Lemma field_value (d : directive) (v : Z) :
  d <> dir_Y -> fst (field_range d) <= v <= snd (field_range d) ->
  Z.of_N (int_of_digits (List.filter is_digit (zero_pad 2 v))) = v.
Proof.
  intros Hd Hv. destruct (field_takes_both d v Hd Hv) as (c1 & c2 & -> & _ & ->).
  destruct d; cbn in Hv; lia.
Qed.

Lemma year_value (y : Z) :
  0 <= y <= 9999 -> Z.of_N (int_of_digits (List.filter is_digit (zero_pad 4 y))) = y.
Proof.
  intros Hy.
  assert (forallb
            (fun y => Z.of_N (int_of_digits (List.filter is_digit (zero_pad 4 y))) =? y)%Z
            (List.map (fun i => 0 + Z.of_nat i) (seq 0 (Z.to_nat 10000))) = true) as Hall
    by (vm_compute; reflexivity).
  rewrite forallb_forall in Hall.
  apply Z.eqb_eq, (Hall y (in_Z_range 0 10000 y ltac:(lia))).
Qed.

(** What [strptime] does once the format is compiled and the text
    matched. *)
Lemma strptime_matched (data fmt : str) (items : list fmt_item)
    (found : list (directive * str)) :
  format_items fmt fmt = Return items -> repeated_directive items = false ->
  match_items items data = Some (found, []) ->
  valid_date (group found dir_Y 1900) (group found dir_m 1) (group found dir_d 1) = true ->
  valid_time (group found dir_H 0) (group found dir_M 0) (group found dir_S 0) 0 = true ->
  cpython_strptime data fmt
  = Return (Datetime (group found dir_Y 1900) (group found dir_m 1) (group found dir_d 1)
              (group found dir_H 0) (group found dir_M 0) (group found dir_S 0) 0).
Proof.
  intros Hitems Hrep Hmatch Hdate Htime. unfold cpython_strptime.
  rewrite Hitems, Hrep, Hmatch, Hdate, Htime.
  destruct (valid_date_bounds _ _ _ Hdate) as [Hy _].
  replace ((MINYEAR <=? group found dir_Y 1900) && (group found dir_Y 1900 <=? MAXYEAR))
    with true; [reflexivity|].
  symmetry. apply andb_true_iff. unfold MINYEAR, MAXYEAR. rewrite !Z.leb_le. lia.
Qed.

Ltac field_side :=
  first [ reflexivity | discriminate | assumption | cbn [field_range fst snd]; lia ].

(** [strptime] reads [YYYY-MM-DD] back. *)
Lemma strptime_isoformat (y m d : Z) :
  valid_date y m d = true ->
  cpython_strptime (isoformat_date (y, m, d)) (u "%Y-%m-%d")
  = Return (Datetime y m d 0 0 0 0).
Proof.
  intros Hvalid. pose proof (valid_date_bounds y m d Hvalid) as (Hy & Hm & Hd).
  pose proof (days_in_month_bounds y m Hm) as Hdim.
  set (found := [(dir_Y, zero_pad 4 y); (dir_m, zero_pad 2 m); (dir_d, zero_pad 2 d)]).
  rewrite (strptime_matched _ _ [FDir dir_Y; FLit 45; FDir dir_m; FLit 45; FDir dir_d]
             found).
  - subst found.
    rewrite group_found, !(group_other _ dir_Y), !group_found by discriminate.
    rewrite !(group_other _ dir_m), group_found by discriminate.
    unfold group. cbn [List.find fst]. rewrite !bool_decide_eq_false_2 by discriminate.
    rewrite year_value by lia.
    rewrite (field_value dir_m m), (field_value dir_d d) by field_side.
    reflexivity.
  - vm_compute. reflexivity.
  - reflexivity.
  - unfold isoformat_date. change (u "-") with [45%N]. cbn [app].
    rewrite <- (app_nil_r (zero_pad 2 d)).
    rewrite (match_items_year y _ _ [(dir_m, zero_pad 2 m); (dir_d, zero_pad 2 d)] []);
      [reflexivity|lia|].
    rewrite match_items_lit.
    rewrite (match_items_field dir_m m _ _ [(dir_d, zero_pad 2 d)] []);
      [reflexivity|field_side|field_side|].
    rewrite match_items_lit.
    rewrite (match_items_field dir_d d [] [] [] []); field_side.
  - subst found.
    rewrite group_found, !(group_other _ dir_Y), !group_found by discriminate.
    rewrite !(group_other _ dir_m), group_found by discriminate.
    rewrite year_value by lia.
    rewrite (field_value dir_m m), (field_value dir_d d) by field_side.
    exact Hvalid.
  - reflexivity.
Qed.

(** [strptime] reads [DD-MM-YYYY] back. *)
Lemma strptime_dmy (y m d : Z) :
  valid_date y m d = true ->
  cpython_strptime (dmy_date (y, m, d)) (u "%d-%m-%Y") = Return (Datetime y m d 0 0 0 0).
Proof.
  intros Hvalid. pose proof (valid_date_bounds y m d Hvalid) as (Hy & Hm & Hd).
  pose proof (days_in_month_bounds y m Hm) as Hdim.
  set (found := [(dir_d, zero_pad 2 d); (dir_m, zero_pad 2 m); (dir_Y, zero_pad 4 y)]).
  assert (group found dir_Y 1900 = y /\ group found dir_m 1 = m /\ group found dir_d 1 = d
          /\ group found dir_H 0 = 0 /\ group found dir_M 0 = 0 /\ group found dir_S 0 = 0)
    as (HY & HM & HD & HH & HMi & HS).
  { subst found. repeat apply conj.
    - rewrite !(group_other dir_Y), group_found by discriminate. apply year_value. lia.
    - rewrite !(group_other dir_m dir_d), group_found by discriminate.
      apply (field_value dir_m); field_side.
    - rewrite group_found. apply (field_value dir_d); field_side.
    - unfold group. cbn [List.find fst].
      rewrite !bool_decide_eq_false_2 by discriminate. reflexivity.
    - unfold group. cbn [List.find fst].
      rewrite !bool_decide_eq_false_2 by discriminate. reflexivity.
    - unfold group. cbn [List.find fst].
      rewrite !bool_decide_eq_false_2 by discriminate. reflexivity. }
  rewrite (strptime_matched _ _ [FDir dir_d; FLit 45; FDir dir_m; FLit 45; FDir dir_Y]
             found).
  - rewrite HY, HM, HD, HH, HMi, HS. reflexivity.
  - vm_compute. reflexivity.
  - reflexivity.
  - unfold dmy_date. change (u "-") with [45%N]. cbn [app].
    rewrite <- (app_nil_r (zero_pad 4 y)).
    rewrite (match_items_field dir_d d _ _ [(dir_m, zero_pad 2 m); (dir_Y, zero_pad 4 y)] []);
      [reflexivity|field_side|field_side|].
    rewrite match_items_lit.
    rewrite (match_items_field dir_m m _ _ [(dir_Y, zero_pad 4 y)] []);
      [reflexivity|field_side|field_side|].
    rewrite match_items_lit.
    rewrite (match_items_year y [] [] [] []); [reflexivity|lia|reflexivity].
  - rewrite HY, HM, HD. exact Hvalid.
  - rewrite HH, HMi, HS. reflexivity.
Qed.

Lemma valid_time_bounds (h mi s us : Z) :
  valid_time h mi s us = true ->
  0 <= h < 24 /\ 0 <= mi < 60 /\ 0 <= s < 60 /\ 0 <= us < 1000000.
Proof.
  unfold valid_time. rewrite !andb_true_iff, !Z.leb_le, !Z.ltb_lt. tauto.
Qed.

(** Two digits start with no white space. *)
Lemma zero_pad_2_head (v : Z) :
  0 <= v <= 99 -> exists c t, zero_pad 2 v = c :: t /\ is_space c = false.
Proof.
  intros Hv. rewrite (zero_pad_2 v Hv). eexists _, _. split; [reflexivity|].
  unfold is_space.
  assert (48 <= Z.to_N (48 + v / 10) <= 57)%N by zdiv_lia.
  apply orb_false_iff. split; apply andb_false_iff; right; apply N.leb_gt; lia.
Qed.

(** [strptime] reads [YYYY-MM-DD HH:MM:SS] back, to the second. *)
Lemma strptime_timestamp (d : datetime) :
  valid_datetime d = true ->
  cpython_strptime (timestamp_text d) (u "%Y-%m-%d %H:%M:%S")
  = Return (Datetime (dt_year d) (dt_month d) (dt_day d)
              (dt_hour d) (dt_minute d) (dt_second d) 0).
Proof.
  destruct d as [y m d h mi s us]. unfold valid_datetime.
  cbn [dt_year dt_month dt_day dt_hour dt_minute dt_second dt_microsecond].
  intros Hvalid. apply andb_true_iff in Hvalid as [Hdate Htime].
  pose proof (valid_date_bounds y m d Hdate) as (Hy & Hm & Hd).
  pose proof (days_in_month_bounds y m Hm) as Hdim.
  pose proof (valid_time_bounds h mi s us Htime) as (Hh & Hmi & Hs & _).
  set (found := [(dir_Y, zero_pad 4 y); (dir_m, zero_pad 2 m); (dir_d, zero_pad 2 d);
                 (dir_H, zero_pad 2 h); (dir_M, zero_pad 2 mi); (dir_S, zero_pad 2 s)]).
  assert (group found dir_Y 1900 = y /\ group found dir_m 1 = m /\ group found dir_d 1 = d
          /\ group found dir_H 0 = h /\ group found dir_M 0 = mi /\ group found dir_S 0 = s)
    as (HY & HM & HD & HH & HMi & HS).
  { subst found. repeat apply conj.
    - rewrite group_found. apply year_value. lia.
    - rewrite !(group_other dir_m), group_found by discriminate.
      apply (field_value dir_m); field_side.
    - rewrite !(group_other dir_d), group_found by discriminate.
      apply (field_value dir_d); field_side.
    - rewrite !(group_other dir_H), group_found by discriminate.
      apply (field_value dir_H); field_side.
    - rewrite !(group_other dir_M), group_found by discriminate.
      apply (field_value dir_M); field_side.
    - rewrite !(group_other dir_S), group_found by discriminate.
      apply (field_value dir_S); field_side. }
  rewrite (strptime_matched _ _
             [FDir dir_Y; FLit 45; FDir dir_m; FLit 45; FDir dir_d; FSpace;
              FDir dir_H; FLit 58; FDir dir_M; FLit 58; FDir dir_S] found).
  - rewrite HY, HM, HD, HH, HMi, HS. reflexivity.
  - vm_compute. reflexivity.
  - reflexivity.
  - unfold timestamp_text, isoformat_date, date_of.
    cbn [dt_year dt_month dt_day dt_hour dt_minute dt_second].
    change (u "-") with [45%N]. change (u " ") with [32%N]. change (u ":") with [58%N].
    rewrite <- !app_assoc. cbn [app].
    rewrite <- (app_nil_r (zero_pad 2 s)).
    rewrite (match_items_year y _ _
               [(dir_m, zero_pad 2 m); (dir_d, zero_pad 2 d); (dir_H, zero_pad 2 h);
                (dir_M, zero_pad 2 mi); (dir_S, zero_pad 2 s)] []);
      [reflexivity|lia|].
    rewrite match_items_lit.
    rewrite (match_items_field dir_m m _ _
               [(dir_d, zero_pad 2 d); (dir_H, zero_pad 2 h);
                (dir_M, zero_pad 2 mi); (dir_S, zero_pad 2 s)] []);
      [reflexivity|field_side|field_side|].
    rewrite match_items_lit.
    rewrite (match_items_field dir_d d _ _
               [(dir_H, zero_pad 2 h); (dir_M, zero_pad 2 mi); (dir_S, zero_pad 2 s)] []);
      [reflexivity|field_side|field_side|].
    destruct (zero_pad_2_head h ltac:(lia)) as (c & t & Eh & Hc).
    rewrite Eh. cbn [app]. rewrite (match_items_blank _ c _ Hc).
    change (c :: t ++ ?x) with ((c :: t) ++ x). rewrite <- Eh.
    rewrite (match_items_field dir_H h _ _
               [(dir_M, zero_pad 2 mi); (dir_S, zero_pad 2 s)] []);
      [reflexivity|field_side|field_side|].
    rewrite match_items_lit.
    rewrite (match_items_field dir_M mi _ _ [(dir_S, zero_pad 2 s)] []);
      [reflexivity|field_side|field_side|].
    rewrite match_items_lit.
    rewrite (match_items_field dir_S s [] [] [] []); field_side.
  - rewrite HY, HM, HD. exact Hdate.
  - rewrite HH, HMi, HS. unfold valid_time in *.
    rewrite !andb_true_iff, !Z.leb_le, !Z.ltb_lt in *. lia.
Qed.

Lemma strftime_dmy (d : datetime) :
  cpython_strftime d (u "%d-%m-%Y") = Return (dmy_date (date_of d)).
Proof.
  change (u "%d-%m-%Y") with [37; 100; 45; 37; 109; 45; 37; 89]%N.
  unfold dmy_date, date_of. change (u "-") with [45%N].
  cbn [cpython_strftime N.eqb Pos.eqb directive_of render].
  cbn [app]. rewrite app_nil_r. reflexivity.
Qed.

Lemma strftime_timestamp (d : datetime) :
  cpython_strftime d (u "%Y-%m-%d %H:%M:%S") = Return (timestamp_text d).
Proof.
  change (u "%Y-%m-%d %H:%M:%S")
    with [37; 89; 45; 37; 109; 45; 37; 100; 32; 37; 72; 58; 37; 77; 58; 37; 83]%N.
  unfold timestamp_text, isoformat_date, date_of.
  change (u "-") with [45%N]. change (u " ") with [32%N]. change (u ":") with [58%N].
  cbn [cpython_strftime N.eqb Pos.eqb directive_of render].
  rewrite app_nil_r. repeat first [rewrite <- app_assoc | progress cbn [app]].
  reflexivity.
Qed.

(** *** The methods *)

(** What [get_future_date] does, for every number of days. *)
Lemma get_future_date_outcome (days : Z) (w : world) :
  valid_datetime (clock w) = true ->
  PythonHelper.get_future_date cpython days w
  = if Z.abs days >? 999999999 then
      (Raise (Exn OverflowError
                (u "days=" ++ int_repr days ++ u "; must have magnitude <= 999999999")), w)
    else if (0 <? toordinal (clock w) + days) && (toordinal (clock w) + days <=? MAXORDINAL)
    then (Return (isoformat_date (shift_days (date_of (clock w)) days)), w)
    else (Raise (Exn OverflowError (u "date value out of range")), w).
Proof.
  intros Hvalid. destruct (valid_datetime_date _ Hvalid) as [Hyear Hmd].
  unfold PythonHelper.get_future_date, bind, now, lift, timedelta_days.
  destruct (Z.abs days >? 999999999); [reflexivity|].
  unfold datetime_add_days.
  destruct ((0 <? toordinal (clock w) + days)
            && (toordinal (clock w) + days <=? MAXORDINAL)); [|reflexivity].
  pose proof (ord2ymd_shift (date_of (clock w)) days Hmd) as Hshift.
  unfold toordinal. change (ymd2ord (dt_year (clock w)) (dt_month (clock w))
                              (dt_day (clock w)))
    with (ordinal_of (date_of (clock w))).
  rewrite Hshift. destruct (shift_days (date_of (clock w)) days) as [[y' m'] d'].
  cbn [strftime cpython]. rewrite strftime_iso. reflexivity.
Qed.

(** The date [days] days from a valid date, when its ordinal is in
    range, is a valid date. *)
Lemma shift_days_valid (ymd : Z * Z * Z) (days : Z) :
  valid_md ymd -> 0 < ordinal_of ymd + days <= MAXORDINAL ->
  let '(y, m, d) := shift_days ymd days in valid_date y m d = true.
Proof.
  intros Hmd Hrange. destruct (shift_days_ordinal ymd days Hmd) as [Hmd' Hord].
  destruct (shift_days ymd days) as [[y m] d]. cbn [ordinal_of] in Hord.
  apply valid_date_md. split; [|exact Hmd'].
  destruct Hmd' as [Hm Hd]. apply (ordinal_year_range y m d Hm Hd). lia.
Qed.

(** Dates with the same ordinal are the same date. *)
Lemma ordinal_of_inj (t1 t2 : Z * Z * Z) :
  valid_md t1 -> valid_md t2 -> ordinal_of t1 = ordinal_of t2 -> t1 = t2.
Proof.
  destruct t1 as [[y1 m1] d1], t2 as [[y2 m2] d2]. cbn [valid_md ordinal_of].
  intros [Hm1 Hd1] [Hm2 Hd2] E.
  rewrite <- (ord2ymd_ymd2ord y1 m1 d1 Hm1 Hd1), <- (ord2ymd_ymd2ord y2 m2 d2 Hm2 Hd2), E.
  reflexivity.
Qed.

(** Counting [a] days and then [b] days is counting [a + b] days. *)
Lemma shift_days_add (ymd : Z * Z * Z) (a b : Z) :
  valid_md ymd -> shift_days (shift_days ymd a) b = shift_days ymd (a + b).
Proof.
  intros Hmd.
  destruct (shift_days_ordinal ymd a Hmd) as [Hmd1 Ho1].
  destruct (shift_days_ordinal (shift_days ymd a) b Hmd1) as [Hmd2 Ho2].
  destruct (shift_days_ordinal ymd (a + b) Hmd) as [Hmd3 Ho3].
  apply ordinal_of_inj; [assumption..|lia].
Qed.

Lemma in_range_test (n : Z) :
  (0 <? n) && (n <=? MAXORDINAL) = true <-> 0 < n <= MAXORDINAL.
Proof. rewrite andb_true_iff, Z.ltb_lt, Z.leb_le. tauto. Qed.

Lemma small_days_test (days ordinal : Z) :
  0 < ordinal <= MAXORDINAL -> 0 < ordinal + days <= MAXORDINAL ->
  (Z.abs days >? 999999999) = false.
Proof. unfold MAXORDINAL. intros H1 H2. rewrite Z.gtb_ltb. apply Z.ltb_ge. lia. Qed.

Lemma valid_clock_ordinal (d : datetime) :
  valid_datetime d = true -> 0 < toordinal d <= MAXORDINAL.
Proof.
  intros Hvalid. destruct (valid_datetime_date _ Hvalid) as [Hyear Hmd].
  destruct d as [y m dd h mi s us]. unfold toordinal, valid_md, date_of in *.
  cbn [dt_year dt_month dt_day] in *. destruct Hmd as [Hm Hd].
  apply (ordinal_year_range y m dd Hm Hd), Hyear.
Qed.

(** X14.  [get_current_timestamp] returns the 19 characters
    [YYYY-MM-DD HH:MM:SS] of the clock, every field padded with zeros, and
    [convert_date_format] with that format reads them back and writes the
    same text. *)
Theorem timestamp_reads_back (w : world) :
  valid_datetime (clock w) = true ->
  PythonHelper.get_current_timestamp cpython w = (Return (timestamp_text (clock w)), w)
  /\ length (timestamp_text (clock w)) = 19%nat
  /\ (t <- PythonHelper.get_current_timestamp cpython ;;
      PythonHelper.convert_date_format cpython t
        (u "%Y-%m-%d %H:%M:%S") (u "%Y-%m-%d %H:%M:%S"))%py w
     = (Return (Some (timestamp_text (clock w))), w).
Proof.
  intros Hvalid.
  assert (PythonHelper.get_current_timestamp cpython w
          = (Return (timestamp_text (clock w)), w)) as Hts.
  { unfold PythonHelper.get_current_timestamp, bind, now, lift.
    cbn [strftime cpython]. rewrite strftime_timestamp. reflexivity. }
  repeat apply conj.
  - exact Hts.
  - destruct (clock w) as [y m d h mi s us]. unfold valid_datetime in Hvalid.
    cbn [dt_year dt_month dt_day dt_hour dt_minute dt_second dt_microsecond] in Hvalid.
    apply andb_true_iff in Hvalid as [Hdate Htime].
    pose proof (valid_date_bounds y m d Hdate) as (Hy & Hm & Hd).
    pose proof (days_in_month_bounds y m Hm) as Hdim.
    pose proof (valid_time_bounds h mi s us Htime) as (Hh & Hmi & Hs & _).
    unfold timestamp_text, isoformat_date, date_of.
    cbn [dt_year dt_month dt_day dt_hour dt_minute dt_second].
    rewrite zero_pad_4, !zero_pad_2 by lia. reflexivity.
  - unfold bind at 1. rewrite Hts.
    unfold PythonHelper.convert_date_format, PythonHelper.convert_date_format_body,
      try_except, bind, lift, ret.
    cbn [strptime strftime cpython].
    rewrite (strptime_timestamp (clock w) Hvalid), strftime_timestamp. reflexivity.
Qed.

Lemma sample_timestamp_reads_back :
  PythonHelper.get_current_timestamp cpython sample_world
  = (Return (u "2024-01-15 10:30:00"), sample_world).
Proof. apply (proj1 (timestamp_reads_back sample_world eq_refl)). Defined.

(** The two directions of the default conversion. *)
Lemma convert_written_date (y m d : Z) (w : world) :
  valid_date y m d = true ->
  PythonHelper.convert_date_format cpython (isoformat_date (y, m, d))
    (u "%Y-%m-%d") (u "%d-%m-%Y") w
  = (Return (Some (dmy_date (y, m, d))), w)
  /\ PythonHelper.convert_date_format cpython (dmy_date (y, m, d))
       (u "%d-%m-%Y") (u "%Y-%m-%d") w
     = (Return (Some (isoformat_date (y, m, d))), w).
Proof.
  intros Hvalid.
  unfold PythonHelper.convert_date_format, PythonHelper.convert_date_format_body,
    try_except, bind, lift, ret.
  cbn [strptime strftime cpython].
  rewrite (strptime_isoformat y m d Hvalid), (strptime_dmy y m d Hvalid).
  rewrite strftime_dmy, strftime_iso. split; reflexivity.
Qed.





(** [strptime] on a day the month does not have. *)
Lemma strptime_impossible_day (y m d : Z) :
  1 <= y <= 9999 -> 1 <= m <= 12 -> days_in_month y m < d <= 31 ->
  cpython_strptime (isoformat_date (y, m, d)) (u "%Y-%m-%d")
  = Raise (Exn ValueError (u "day is out of range for month")).
Proof.
  intros Hy Hm Hd.
  pose proof (days_in_month_bounds y m Hm) as Hdim.
  set (found := [(dir_Y, zero_pad 4 y); (dir_m, zero_pad 2 m); (dir_d, zero_pad 2 d)]).
  assert (group found dir_Y 1900 = y /\ group found dir_m 1 = m /\ group found dir_d 1 = d)
    as (HY & HM & HD).
  { subst found. repeat apply conj.
    - rewrite group_found. apply year_value. lia.
    - rewrite !(group_other dir_m), group_found by discriminate.
      apply (field_value dir_m); field_side.
    - rewrite !(group_other dir_d), group_found by discriminate.
      apply (field_value dir_d); field_side. }
  assert (match_items [FDir dir_Y; FLit 45; FDir dir_m; FLit 45; FDir dir_d]
            (isoformat_date (y, m, d)) = Some (found, [])) as Hmatch.
  { unfold isoformat_date. change (u "-") with [45%N]. cbn [app].
    rewrite <- (app_nil_r (zero_pad 2 d)).
    rewrite (match_items_year y _ _ [(dir_m, zero_pad 2 m); (dir_d, zero_pad 2 d)] []);
      [reflexivity|lia|].
    rewrite match_items_lit.
    rewrite (match_items_field dir_m m _ _ [(dir_d, zero_pad 2 d)] []);
      [reflexivity|field_side|field_side|].
    rewrite match_items_lit.
    rewrite (match_items_field dir_d d [] [] [] []); field_side. }
  unfold cpython_strptime.
  change (format_items (u "%Y-%m-%d") (u "%Y-%m-%d"))
    with (Return [FDir dir_Y; FLit 45%N; FDir dir_m; FLit 45%N; FDir dir_d]).
  cbn [repeated_directive existsb orb]. rewrite !bool_decide_eq_false_2 by discriminate.
  cbn [orb]. rewrite Hmatch, HY, HM, HD.
  replace ((MINYEAR <=? y) && (y <=? MAXYEAR)) with true
    by (symmetry; apply andb_true_iff; unfold MINYEAR, MAXYEAR; rewrite !Z.leb_le; lia).
  replace (valid_date y m d) with false; [reflexivity|].
  symmetry. unfold valid_date. rewrite !andb_false_iff. right. apply Z.leb_gt. lia.
Qed.

(** X17.  A day the month does not have is no date: for a text
    [YYYY-MM-DD] whose day is past the end of its month, as 30 February or
    29 February outside a leap year, [convert_date_format] logs the error
    and returns [None]. *)
Theorem convert_date_format_impossible_day (y m d : Z) (output_format : str) (w : world) :
  1 <= y <= 9999 -> 1 <= m <= 12 -> days_in_month y m < d <= 31 ->
  PythonHelper.convert_date_format cpython (isoformat_date (y, m, d))
    (u "%Y-%m-%d") output_format w
  = (Return None,
     logged w ERROR (u "Error in date conversion: day is out of range for month")).
Proof.
  intros Hy Hm Hd.
  unfold PythonHelper.convert_date_format, PythonHelper.convert_date_format_body,
    try_except, bind, lift, ret.
  cbn [strptime cpython]. rewrite (strptime_impossible_day y m d Hy Hm Hd). reflexivity.
Qed.

Lemma february_29_of_2023_is_no_date :
  PythonHelper.convert_date_format cpython (u "2023-02-29")
    (u "%Y-%m-%d") (u "%d-%m-%Y") sample_world
  = (Return None,
     logged sample_world ERROR
       (u "Error in date conversion: day is out of range for month")).
Proof.
  apply (convert_date_format_impossible_day 2023 2 29 (u "%d-%m-%Y") sample_world);
    vm_compute; split; congruence.
Defined.

(** X18.  [get_future_date] raises [OverflowError], and changes nothing,
    for every number of days that leads out of the years 1 to 9999. *)
Theorem get_future_date_out_of_range (days : Z) (w : world) :
  valid_datetime (clock w) = true ->
  ~ 0 < toordinal (clock w) + days <= MAXORDINAL ->
  exists msg,
    PythonHelper.get_future_date cpython days w = (Raise (Exn OverflowError msg), w).
Proof.
  intros Hvalid Hout. rewrite (get_future_date_outcome days w Hvalid).
  destruct (Z.abs days >? 999999999); [eexists; reflexivity|].
  destruct ((0 <? toordinal (clock w) + days)
            && (toordinal (clock w) + days <=? MAXORDINAL)) eqn:E;
    [|eexists; reflexivity].
  apply in_range_test in E. contradiction.
Qed.

Lemma before_year_1_is_out_of_range :
  exists msg,
    PythonHelper.get_future_date cpython (-738900) sample_world
    = (Raise (Exn OverflowError msg), sample_world).
Proof.
  apply (get_future_date_out_of_range (-738900) sample_world eq_refl).
  vm_compute. intros [H _]. discriminate.
Defined.

(** X19.  Days add up: the date [a + b] days from today is the date [b]
    days from the day that is [a] days from today. *)
Theorem get_future_date_adds (a b : Z) (w : world) (later : datetime) :
  valid_datetime (clock w) = true ->
  datetime_add_days (clock w) a = Return later ->
  0 < toordinal (clock w) + (a + b) <= MAXORDINAL ->
  fst (PythonHelper.get_future_date cpython (a + b) w)
  = fst (PythonHelper.get_future_date cpython b (set_clock w later)).
Proof.
  intros Hvalid Hlater Hrange.
  destruct (valid_datetime_date _ Hvalid) as [Hyear Hmd].
  pose proof (valid_clock_ordinal _ Hvalid) as Hord.
  unfold datetime_add_days in Hlater.
  destruct ((0 <? toordinal (clock w) + a) && (toordinal (clock w) + a <=? MAXORDINAL))
    eqn:Ha; [|discriminate].
  apply in_range_test in Ha.
  pose proof (ord2ymd_shift (date_of (clock w)) a Hmd) as Hshift.
  pose proof (shift_days_valid (date_of (clock w)) a Hmd Ha) as Hva.
  destruct (shift_days_ordinal (date_of (clock w)) a Hmd) as [Hmda Horda].
  unfold toordinal in Hlater, Ha, Hrange, Hord.
  change (ymd2ord (dt_year (clock w)) (dt_month (clock w)) (dt_day (clock w)))
    with (ordinal_of (date_of (clock w))) in *.
  rewrite Hshift in Hlater.
  destruct (shift_days (date_of (clock w)) a) as [[y m] d] eqn:Ea.
  injection Hlater as <-.
  assert (valid_datetime
            (Datetime y m d (dt_hour (clock w)) (dt_minute (clock w))
               (dt_second (clock w)) (dt_microsecond (clock w))) = true) as Hvalid'.
  { unfold valid_datetime in *. cbn [dt_year dt_month dt_day dt_hour dt_minute
                                       dt_second dt_microsecond].
    apply andb_true_iff in Hvalid as [_ Htime]. rewrite Hva, Htime. reflexivity. }
  set (later := Datetime y m d (dt_hour (clock w)) (dt_minute (clock w))
                  (dt_second (clock w)) (dt_microsecond (clock w))) in *.
  assert (toordinal later = ordinal_of (date_of (clock w)) + a) as Hto by exact Horda.
  rewrite (get_future_date_outcome (a + b) w Hvalid).
  rewrite (get_future_date_outcome b (set_clock w later) Hvalid').
  change (clock (set_clock w later)) with later.
  change (date_of later) with (y, m, d). rewrite Hto.
  unfold toordinal.
  change (ymd2ord (dt_year (clock w)) (dt_month (clock w)) (dt_day (clock w)))
    with (ordinal_of (date_of (clock w))).
  rewrite (small_days_test (a + b) _ Hord Hrange).
  rewrite (small_days_test b (ordinal_of (date_of (clock w)) + a) Ha) by lia.
  rewrite (proj2 (in_range_test _) Hrange).
  rewrite (proj2 (in_range_test (ordinal_of (date_of (clock w)) + a + b)))
    by lia.
  cbn [fst]. rewrite <- Ea, shift_days_add by assumption. reflexivity.
Qed.

Lemma a_week_and_a_day :
  fst (PythonHelper.get_future_date cpython (7 + 1) sample_world)
  = fst (PythonHelper.get_future_date cpython 1
           (set_clock sample_world (Datetime 2024 1 22 10 30 0 0))).
Proof.
  apply (get_future_date_adds 7 1 sample_world (Datetime 2024 1 22 10 30 0 0)
           eq_refl eq_refl).
  vm_compute. split; [reflexivity|discriminate].
Defined.

(** X20.  Different numbers of days give different texts: within the
    years 1 to 9999, [get_future_date] returns the same text for two
    numbers of days only when they are the same number. *)
Theorem get_future_date_distinct (a b : Z) (w : world) :
  valid_datetime (clock w) = true ->
  0 < toordinal (clock w) + a <= MAXORDINAL ->
  0 < toordinal (clock w) + b <= MAXORDINAL ->
  (fst (PythonHelper.get_future_date cpython a w)
   = fst (PythonHelper.get_future_date cpython b w) <-> a = b).
Proof.
  intros Hvalid Ha Hb. split; [|intros ->; reflexivity].
  destruct (valid_datetime_date _ Hvalid) as [_ Hmd].
  pose proof (valid_clock_ordinal _ Hvalid) as Hord.
  rewrite !(get_future_date_outcome _ w Hvalid).
  rewrite (small_days_test a _ Hord Ha), (small_days_test b _ Hord Hb).
  rewrite (proj2 (in_range_test _) Ha), (proj2 (in_range_test _) Hb).
  cbn [fst]. intros [= E].
  pose proof (shift_days_valid _ a Hmd Ha) as Hva.
  pose proof (shift_days_valid _ b Hmd Hb) as Hvb.
  destruct (shift_days_ordinal (date_of (clock w)) a Hmd) as [_ Hoa].
  destruct (shift_days_ordinal (date_of (clock w)) b Hmd) as [_ Hob].
  destruct (shift_days (date_of (clock w)) a) as [[y1 m1] d1].
  destruct (shift_days (date_of (clock w)) b) as [[y2 m2] d2].
  pose proof (strptime_isoformat y1 m1 d1 Hva) as H1.
  rewrite E, (strptime_isoformat y2 m2 d2 Hvb) in H1.
  injection H1 as -> -> ->. lia.
Qed.

Lemma today_and_tomorrow_differ :
  fst (PythonHelper.get_future_date cpython 0 sample_world)
  = fst (PythonHelper.get_future_date cpython 1 sample_world) <-> 0 = 1.
Proof.
  apply (get_future_date_distinct 0 1 sample_world eq_refl);
    vm_compute; split; first [reflexivity|discriminate].
Defined.

Import PythonHelperSetup.

(** ** Logging setup *)

(** [basicConfig] on a root logger that has a handler. *)
Lemma setup_logging_configured (file : str) (root : root_logger) (w : world) :
  root_handlers root <> [] ->
  setup_logging file root w
  = (Return (Root (root_level root) (root_handlers root ++ [console])), w).
Proof.
  intros Hh. unfold setup_logging, basicConfig, bind, ret.
  destruct root as [lv [|h hs]]; [contradiction|reflexivity].
Qed.

(** The first [setup_logging], on a file that can be opened. *)
Lemma setup_logging_fresh (file : str) (w : world) :
  file <> [] -> writable w file = true ->
  setup_logging file fresh_root w
  = (Return (Root 20 [Handler (log_file file) NOTSET log_format; console]),
     match files w !! file with
     | Some _ => w
     | None => set_files w (<[file := []]> (files w))
     end).
Proof.
  intros Hne Hw. unfold setup_logging, basicConfig, bind, ret, open_append.
  destruct file as [|c path]; [contradiction|].
  cbn [fresh_root root_handlers]. rewrite Hw. reflexivity.
Qed.

Lemma instances_configured (files : list str) (root : root_logger) (w : world) :
  root_handlers root <> [] ->
  instances files root w
  = (Return (Root (root_level root)
               (root_handlers root ++ repeat console (length files))), w).
Proof.
  revert root. induction files as [|f fs IH]; intros root Hh.
  - cbn [instances length repeat]. rewrite app_nil_r. destruct root. reflexivity.
  - cbn [instances length repeat]. unfold bind, __init__.
    rewrite (setup_logging_configured f root w Hh).
    rewrite IH by (cbn [root_handlers]; destruct (root_handlers root); discriminate).
    cbn [root_level root_handlers]. rewrite <- app_assoc. reflexivity.
Qed.

(** X21.  The first [PythonHelper(log_file)] of a program that has not
    logged yet sets the root logger to level INFO with two handlers: one
    that appends to the log file, which is created when it is missing and
    kept otherwise, and one for the console.  No other file changes. *)
Theorem first_instance_configures (file : str) (w : world) :
  file <> [] -> writable w file = true ->
  let w' := snd (__init__ file fresh_root w) in
  fst (__init__ file fresh_root w)
  = Return (Root 20 [Handler (log_file file) 0 log_format;
                     Handler stderr 20 log_format])
  /\ files w' !! file = Some (default [] (files w !! file))
  /\ (forall other, other <> file -> files w' !! other = files w !! other)
  /\ logs w' = logs w.
Proof.
  intros Hne Hw. cbv zeta. unfold __init__.
  rewrite (setup_logging_fresh file w Hne Hw).
  destruct (files w !! file) as [content|] eqn:Hfile; cbn [fst snd default].
  - repeat apply conj; [reflexivity|exact Hfile|reflexivity|reflexivity].
  - cbn [set_files files logs]. repeat apply conj; try reflexivity.
    + apply lookup_insert_eq.
    + intros other Ho. apply lookup_insert_ne. congruence.
Qed.

Lemma app_log_is_created :
  fst (__init__ (u "app.log") fresh_root sample_world)
  = Return (Root 20 [Handler (log_file (u "app.log")) 0 log_format;
                     Handler stderr 20 log_format]).
Proof.
  apply (proj1 (first_instance_configures (u "app.log") sample_world
                  ltac:(discriminate) eq_refl)).
Defined.

(** A record that the root logger and all of its handlers let pass. *)
Lemma root_log_all (lvl : level) (root : root_logger) (w : world) :
  root_handlers root <> [] -> root_level root <= levelno lvl ->
  Forall (fun h => h_level h <= levelno lvl) (root_handlers root) ->
  root_log lvl root w = (Return (root, root_handlers root), w).
Proof.
  intros Hh Hroot Hall. unfold root_log, bind, ret.
  destruct root as [lv hs]. cbn [root_handlers root_level] in *.
  destruct hs as [|h hs]; [contradiction|]. cbv beta iota.
  cbn [root_handlers root_level].
  rewrite (proj2 (Z.leb_le _ _) Hroot).
  assert (forall l, Forall (fun h => h_level h <= levelno lvl) l ->
                    List.filter (fun h => h_level h <=? levelno lvl) l = l) as Hfilter.
  { induction 1 as [|x l Hx _ IH]; [reflexivity|]. cbn [List.filter].
    rewrite (proj2 (Z.leb_le _ _) Hx), IH. reflexivity. }
  rewrite (Hfilter _ Hall). reflexivity.
Qed.

(** A record below the level of the root logger. *)
Lemma root_log_none (lvl : level) (root : root_logger) (w : world) :
  root_handlers root <> [] -> levelno lvl < root_level root ->
  root_log lvl root w = (Return (root, []), w).
Proof.
  intros Hh Hroot. unfold root_log, bind, ret.
  destruct root as [lv [|h hs]]; [contradiction|]. cbn [root_handlers root_level] in *.
  cbv beta iota. cbn [root_handlers root_level].
  rewrite (proj2 (Z.leb_gt _ _) Hroot). reflexivity.
Qed.

(** X22.  Every further instance adds one more console handler and
    nothing else: its log file is not opened, not even looked at, and the
    level stays.  After [n] instances a record is handed once to the first
    log file and [n] times to the console. *)
Theorem every_instance_adds_a_console (file : str) (others : list str) (w : world) :
  file <> [] -> writable w file = true ->
  let n := S (length others) in
  let root := Root 20 (Handler (log_file file) 0 log_format :: repeat console n) in
  fst (instances (file :: others) fresh_root w) = Return root
  /\ snd (instances (file :: others) fresh_root w) = snd (__init__ file fresh_root w)
  /\ (forall lvl w',
        root_log lvl root w'
        = (Return (root, Handler (log_file file) 0 log_format :: repeat console n), w')).
Proof.
  intros Hne Hw. cbv zeta. cbn [instances]. unfold bind, __init__.
  rewrite (setup_logging_fresh file w Hne Hw).
  rewrite instances_configured by discriminate.
  cbn [fst snd root_level root_handlers app repeat].
  repeat apply conj; try reflexivity.
  intros lvl w'. apply (root_log_all lvl (Root 20 _) w').
  - discriminate.
  - destruct lvl; cbn; lia.
  - cbn [root_handlers]. apply Forall_cons_2; [destruct lvl; cbn; lia|].
    apply Forall_cons_2; [destruct lvl; cbn; lia|].
    apply Forall_forall. intros h Hin. apply list_elem_of_In, repeat_spec in Hin.
    subst h. destruct lvl; cbn; lia.
Qed.

Lemma two_instances_two_consoles :
  fst (instances [u "app.log"; u "other.log"] fresh_root sample_world)
  = Return (Root 20 [Handler (log_file (u "app.log")) 0 log_format; console; console]).
Proof.
  apply (proj1 (every_instance_adds_a_console (u "app.log") [u "other.log"] sample_world
                  ltac:(discriminate) eq_refl)).
Defined.

(** X23.  When anything is logged before the first instance is made, the
    root logger gets the console handler of [basicConfig()] and keeps
    level WARNING.  No instance made later changes that: no log file is
    opened, and every INFO record is dropped. *)
Theorem logging_before_the_first_instance (lvl : level) (files : list str) (w : world) :
  let root := Root WARNING
                (Handler stderr NOTSET BASIC_FORMAT :: repeat console (length files)) in
  (r <- root_log lvl fresh_root ;; instances files (fst r))%py w = (Return root, w)
  /\ Forall (fun h => h_stream h = stderr) (root_handlers root)
  /\ (forall w', root_log INFO root w' = (Return (root, []), w'))
  /\ (forall w', root_log ERROR root w' = (Return (root, root_handlers root), w')).
Proof.
  cbv zeta. repeat apply conj.
  - unfold bind at 1. unfold root_log, basicConfig, bind, ret.
    cbn [fresh_root root_handlers root_level default fst].
    rewrite instances_configured by discriminate. reflexivity.
  - cbn [root_handlers]. apply Forall_cons_2; [reflexivity|].
    apply Forall_forall. intros h Hin. apply list_elem_of_In, repeat_spec in Hin.
    subst h. reflexivity.
  - intros w'. apply root_log_none; [discriminate|]. cbn. reflexivity.
  - intros w'. apply (root_log_all ERROR (Root WARNING _) w').
    + discriminate.
    + cbn. discriminate.
    + cbn [root_handlers]. apply Forall_cons_2; [cbn; discriminate|].
      apply Forall_forall. intros h Hin. apply list_elem_of_In, repeat_spec in Hin.
      subst h. cbn. discriminate.
Qed.


(** ** Environment variables *)

(** X25.  The two getters return the value of a variable that is set,
    also when the value is the empty string, and the default ([None] for
    [getkeyvalueByNameFromEnvVaribles]) only for a variable that is not
    set; with default [None] the two agree.  A result that is not the
    default tells that the variable is set. *)
Theorem environment_getters (environ : gmap str str) (name : str) (default_value : pyval) :
  getkeyvalueByNameFromEnvVaribles environ name = get_env_variable environ name PNone
  /\ (forall value, environ !! name = Some value ->
        get_env_variable environ name default_value = PStr value)
  /\ (environ !! name = None -> get_env_variable environ name default_value = default_value)
  /\ (getkeyvalueByNameFromEnvVaribles environ name = PNone <-> environ !! name = None)
  /\ get_env_variable (<[name := []]> environ) name default_value = PStr [].
Proof.
  unfold getkeyvalueByNameFromEnvVaribles, get_env_variable, os_getenv.
  repeat apply conj.
  - reflexivity.
  - intros value ->. reflexivity.
  - intros ->. reflexivity.
  - destruct (environ !! name); [discriminate|reflexivity].
  - destruct (environ !! name); [discriminate|reflexivity].
  - rewrite lookup_insert_eq. reflexivity.
Qed.
